(** * A model of the textbook question-answering backend

    The Python sources under [backend/] are embedded file by file:
    - [Py]               the fragment of Python's [str], [list] and [dict]
                         behaviour the backend relies on;
    - [CreateEmbeddings] [scripts/create-embeddings.py] (word chunking,
                         embedding with retries, the upsert);
    - [Main]             [main.py]  (HTTP embedding and chat endpoints, Qdrant);
    - [App]              [app.py]   (Cohere client, Qdrant);
    - [Embeddings]       [embeddings.py] (offline embedding with retries);
    - [Main2]            [main2.py] (chat with a bounded conversation log);
    - [Ingest]           [ingest.py] (chunk identifiers, upload in batches).

    Remote services are oracles: functions of the history of calls made so
    far, so that two calls with the same argument may be answered
    differently.  Module-level state of the Python process (the embedding
    cache, its backing file) and the history of outbound calls are threaded
    through every function as a [world]. *)

From Stdlib Require Import ZArith QArith String Ascii List Bool Lia.
From Stdlib Require Import DecimalString DecimalNat.
From stdpp Require Import base gmap strings list.

Set Warnings "-register-all".

(** ** Python values and strings *)

Module Py.

(** Characters are code points below 256.  [str.isspace] holds of the code
    points 9-13, 28-32, 133 and 160 in that range. *)
Definition isspace (c : ascii) : bool :=
  let n := nat_of_ascii c in
  (Nat.leb 9 n && Nat.leb n 13) || (Nat.leb 28 n && Nat.leb n 32)
  || Nat.eqb n 133 || Nat.eqb n 160.

(** [s.lstrip()], [s.rstrip()] and [s.strip()] *)
Fixpoint lstrip (s : string) : string :=
  match s with
  | EmptyString => EmptyString
  | String c s' => if isspace c then lstrip s' else s
  end.

Fixpoint rstrip (s : string) : string :=
  match s with
  | EmptyString => EmptyString
  | String c s' =>
      match rstrip s' with
      | EmptyString => if isspace c then EmptyString else String c EmptyString
      | r => String c r
      end
  end.

Definition strip (s : string) : string := rstrip (lstrip s).

(** Every character of [s] is whitespace (the empty string included). *)
Fixpoint whitespace_only (s : string) : bool :=
  match s with
  | EmptyString => true
  | String c s' => isspace c && whitespace_only s'
  end.

Definition is_empty (s : string) : bool :=
  match s with EmptyString => true | _ => false end.

(** [s.split()]: maximal runs of non-whitespace characters. [cur] is the
    run being read. *)
Fixpoint split_from (cur : string) (s : string) : list string :=
  match s with
  | EmptyString => if is_empty cur then [] else [cur]
  | String c s' =>
      if isspace c
      then (if is_empty cur then split_from EmptyString s'
            else cur :: split_from EmptyString s')
      else split_from (cur +:+ String c EmptyString) s'
  end.

Definition split (s : string) : list string := split_from EmptyString s.

(** [sep.join(l)] *)
Fixpoint join (sep : string) (l : list string) : string :=
  match l with
  | [] => EmptyString
  | x :: xs =>
      match xs with
      | [] => x
      | _ => x +:+ sep +:+ join sep xs
      end
  end.

(** A word: a non-empty string without whitespace. *)
Fixpoint no_space (s : string) : bool :=
  match s with
  | EmptyString => true
  | String c s' => negb (isspace c) && no_space s'
  end.

Definition is_word (s : string) : bool := negb (is_empty s) && no_space s.

(** [l[i:j]] for [0 <= i], [0 <= j] *)
Definition slice {A} (l : list A) (i j : nat) : list A := take (j - i) (drop i l).

(** [needle in hay] for two strings *)
Fixpoint contains (needle hay : string) : bool :=
  String.prefix needle hay ||
  match hay with
  | EmptyString => false
  | String _ hay' => contains needle hay'
  end.

(** [s.replace(old, new)] for a non-empty [old]: the occurrences of [old]
    are replaced from the left, without overlap.  [skip] counts the
    characters of the occurrence just replaced that are still to be
    dropped. *)
Fixpoint replace_from (skip : nat) (old new s : string) : string :=
  match s with
  | EmptyString => EmptyString
  | String c s' =>
      match skip with
      | S k => replace_from k old new s'
      | O =>
          if String.prefix old s
          then new +:+ replace_from (String.length old - 1) old new s'
          else String c (replace_from 0 old new s')
      end
  end.

Definition replace (old new s : string) : string := replace_from 0 old new s.

(** [c in s] for a character [c] *)
Fixpoint has_char (c : ascii) (s : string) : bool :=
  match s with
  | EmptyString => false
  | String x s' => Ascii.eqb x c || has_char c s'
  end.

(** The line feed and the double quote, which string literals cannot hold. *)
Definition nl : string := String (ascii_of_nat 10) EmptyString.
Definition dquote : string := String (ascii_of_nat 34) EmptyString.

(** [str(n)] for an integer *)
Definition str_of_nat (n : nat) : string := NilEmpty.string_of_uint (Nat.to_uint n).
Definition str_of_Z (z : Z) : string := NilZero.string_of_int (Z.to_int z).

(** The values that reach the backend from JSON bodies and payloads.
    Floats are carried as rationals: the backend stores and forwards them
    and never computes with them. *)
Inductive pyval : Type :=
| VNone
| VBool (b : bool)
| VInt (n : Z)
| VFloat (q : Q)
| VStr (s : string)
| VList (l : list pyval)
| VDict (d : list (string * pyval)).

(** [bool(v)] *)
Definition truthy (v : pyval) : bool :=
  match v with
  | VNone => false
  | VBool b => b
  | VInt n => negb (Z.eqb n 0)
  | VFloat q => negb (Z.eqb (Qnum q) 0)
  | VStr s => negb (is_empty s)
  | VList l => match l with [] => false | _ => true end
  | VDict d => match d with [] => false | _ => true end
  end.

(** [d.get(k)] on the entries of a dict, [None] when the key is absent *)
Fixpoint lookup_key (k : string) (d : list (string * pyval)) : option pyval :=
  match d with
  | [] => None
  | (k', v) :: d' => if String.eqb k' k then Some v else lookup_key k d'
  end.

Definition dict_get (d : list (string * pyval)) (k : string) (default : pyval) : pyval :=
  match lookup_key k d with
  | Some v => v
  | None => default
  end.

Definition is_dict (v : pyval) : bool := match v with VDict _ => true | _ => false end.

(** Exceptions the modelled code can raise *)
Inductive exn : Type :=
| TypeError | AttributeError | KeyError | IndexError | JSONDecodeError
| ValidationError | OSError.

Inductive result (A : Type) : Type :=
| Ret (a : A)
| Raise (e : exn).
Arguments Ret {A} a.
Arguments Raise {A} e.

Definition bind {A B} (r : result A) (k : A -> result B) : result B :=
  match r with
  | Ret a => k a
  | Raise e => Raise e
  end.

(** [k in v] for a string [k]: key membership on a dict, element
    membership on a list, substring test on a string, [TypeError] on the
    rest. *)
Definition str_in (k : string) (v : pyval) : result bool :=
  match v with
  | VDict d => Ret (match lookup_key k d with Some _ => true | None => false end)
  | VList l => Ret (existsb (fun x => match x with VStr s => String.eqb s k | _ => false end) l)
  | VStr s => Ret (contains k s)
  | _ => Raise TypeError
  end.

(** [v[k]] for a string [k] *)
Definition subscript (v : pyval) (k : string) : result pyval :=
  match v with
  | VDict d => match lookup_key k d with Some x => Ret x | None => Raise KeyError end
  | _ => Raise TypeError
  end.

(** [v.get(k)]: only dicts have the method *)
Definition method_get (v : pyval) (k : string) (default : pyval) : result pyval :=
  match v with
  | VDict d => Ret (dict_get d k default)
  | _ => Raise AttributeError
  end.

(** [sep.join(parts)] where the parts are arbitrary values: [TypeError]
    unless every part is a string *)
Fixpoint strings_of (parts : list pyval) : result (list string) :=
  match parts with
  | [] => Ret []
  | VStr s :: rest => bind (strings_of rest) (fun l => Ret (s :: l))
  | _ :: _ => Raise TypeError
  end.

Definition join_values (sep : string) (parts : list pyval) : result string :=
  bind (strings_of parts) (fun l => Ret (join sep l)).

End Py.

Notation "'let!' x ':=' c1 'in' c2" := (Py.bind c1 (fun x => c2))
  (at level 10, x name, c1 at level 100, c2 at level 200).

(** ** Process state and outbound calls *)

Module Runtime.
Import Py.

(** Calls that leave the process, in the order they are made. *)
Inductive event : Type :=
| EmbedCall (texts : list string)
| SearchCall (query_vector : pyval) (limit : Z)
| ChatCall (messages : list string)
| FileWrite
| Sleep (seconds : Z).

(** The module-level [embedding_cache] dict, the mapping stored in
    [embedding_cache.json], and the calls made so far (oldest first). *)
Record world : Type := {
  embedding_cache : gmap string pyval;
  cache_file : gmap string pyval;
  history : list event
}.

Definition log (e : event) (w : world) : world :=
  {| embedding_cache := embedding_cache w;
     cache_file := cache_file w;
     history := history w ++ [e] |}.

(** [embedding_cache[k] = v] *)
Definition cache_store (k : string) (v : pyval) (w : world) : world :=
  {| embedding_cache := <[k:=v]> (embedding_cache w);
     cache_file := cache_file w;
     history := history w |}.

(** A completed [json.dump(embedding_cache, f)] *)
Definition file_overwrite (w : world) : world :=
  {| embedding_cache := embedding_cache w;
     cache_file := embedding_cache w;
     history := history w |}.

(** What [requests.post] gives back: an exception, or a response with its
    status and its body parsed by [resp.json()] ([None] when the body is
    not JSON, in which case [resp.json()] raises). *)
Inductive http_reply : Type :=
| ConnectionError
| Response (status_code : Z) (json : option pyval).

(** A record returned by the Qdrant client's [search]. *)
Record scored_point : Type := {
  payload : option (list (string * pyval));
  score : pyval
}.

(** The dict built for each search result. *)
Record chunk : Type := {
  text : pyval;
  chapter : pyval;
  chunk_index : pyval;
  chunk_score : pyval
}.

(** [r.payload or {}] *)
Definition payload_or_empty (r : scored_point) : list (string * pyval) :=
  match payload r with
  | Some p => if truthy (VDict p) then p else []
  | None => []
  end.

(** The guard [req.selected_text and req.selected_text.strip()] of both
    handlers, with the text that is inserted when it holds. *)
Definition selection (selected_text : option string) : option string :=
  match selected_text with
  | Some s => if is_empty s || is_empty (strip s) then None else Some (strip s)
  | None => None
  end.

Definition json_of_option (o : option string) : pyval :=
  match o with
  | Some s => VStr s
  | None => VNone
  end.

(** Every entry of the cache in [w] is still there, unchanged, in [w']. *)
Definition cache_kept (w w' : world) : Prop :=
  forall t v, embedding_cache w !! t = Some v -> embedding_cache w' !! t = Some v.

(** The calls made between two states of the process. *)
Definition calls_since (w w' : world) : list event :=
  drop (length (history w)) (history w').

Definition is_chat (e : event) : bool :=
  match e with ChatCall _ => true | _ => false end.
Definition is_embed (e : event) : bool :=
  match e with EmbedCall _ => true | _ => false end.
Definition is_search (e : event) : bool :=
  match e with SearchCall _ _ => true | _ => false end.
Definition is_adapter_call (e : event) : bool :=
  is_embed e || is_search e || is_chat e.

End Runtime.

(** ** scripts/create-embeddings.py *)

Module CreateEmbeddings.
Import Py.

Definition CHUNK_SIZE : nat := 220.
Definition CHUNK_OVERLAP : nat := 40.

(** The [while i < len(words)] loop of [chunk_text]; [None] when [fuel]
    iterations were not enough to leave it. *)
Fixpoint chunk_loop (fuel : nat) (words : list string) (i : nat)
    (chunks : list string) : option (list string) :=
  match fuel with
  | O => None
  | S fuel' =>
      if Nat.ltb i (length words)
      then chunk_loop fuel' words (i + (CHUNK_SIZE - CHUNK_OVERLAP))
             (chunks ++ [join " " (slice words i (i + CHUNK_SIZE))])
      else Some chunks
  end.

Definition chunk_text_fuel (fuel : nat) (text : string) : option (list string) :=
  chunk_loop fuel (split text) 0 [].

(** One more iteration than there are words always suffices
    (see [chunk_text_terminates]). *)
Definition chunk_text (text : string) : option (list string) :=
  chunk_text_fuel (S (length (split text))) text.

(** The words at the positions that chunk [k] and chunk [k + 1] both
    cover: [words[180 * (k + 1) : 180 * k + 220]]. *)
Definition shared_words (words : list string) (k : nat) : list string :=
  slice words ((CHUNK_SIZE - CHUNK_OVERLAP) * (k + 1))
              ((CHUNK_SIZE - CHUNK_OVERLAP) * k + CHUNK_SIZE).

(** A document of [n] one-letter words. *)
Definition document (n : nat) : string := join " " (repeat "w" n).

(** *** [get_embedding] and [main] *)

(** What [co.embed] does: it returns a response with a list of embeddings,
    raises [TooManyRequestsError], or raises something else. *)
Inductive embed_reply : Type :=
| Embedded (embeddings : list pyval)
| TooManyRequestsError
| EmbedFailure (e : exn).

(** A [PointStruct] with its payload. *)
Record PointStruct : Type := {
  id : string;
  vector : pyval;
  text : string;
  chapter : string;
  file : string;
  chunk_index : nat
}.

(** The calls the script makes, in order. *)
Inductive event : Type :=
| Embed (chunk : string)
| Sleep (seconds : Z)
| GetCollections
| CreateCollection
| Upsert (points : list PointStruct).

Definition is_upsert (e : event) : bool :=
  match e with Upsert _ => true | _ => false end.

(** The clients and the file system.  [uuid4 n] is the identifier drawn for
    the point that follows [n] others; [arrow] is the separator that
    [main] puts between the parts of a chapter name, which holds a
    character outside the range of [ascii]. *)
Record services : Type := {
  co_embed : list event -> string -> embed_reply;
  read : string -> result string;
  uuid4 : nat -> string;
  collection_exists : list event -> result bool;
  create_collection : list event -> result unit;
  upsert : list event -> list PointStruct -> result unit;
  arrow : string
}.

Definition backslash : string := String (ascii_of_nat 92) EmptyString.

Section WithServices.
Variable sv : services.

(** The [while True] loop of [get_embedding]: [None] when [fuel] rounds
    went by without leaving it.  Only [TooManyRequestsError] is caught;
    [response.embeddings[0]] raises [IndexError] on an empty list. *)
Fixpoint get_embedding (fuel : nat) (chunk : string) (h : list event)
    : option (result pyval) * list event :=
  match fuel with
  | O => (None, h)
  | S fuel' =>
      let h1 := h ++ [Embed chunk] in
      match co_embed sv h chunk with
      | Embedded (v :: _) => (Some (Ret v), h1)
      | Embedded [] => (Some (Raise IndexError), h1)
      | TooManyRequestsError => get_embedding fuel' chunk (h1 ++ [Sleep 65])
      | EmbedFailure e => (Some (Raise e), h1)
      end
  end.

(** [rel.replace(".mdx", "").replace(".md", "").replace("/", arrow)] *)
Definition chapter_name (rel : string) : string :=
  replace "/" (arrow sv) (replace ".md" "" (replace ".mdx" "" rel)).

(** The loop over [enumerate(chunks)], from index [idx] on. *)
Fixpoint embed_chunks (fuel : nat) (rel : string) (chunks : list string)
    (idx : nat) (points : list PointStruct) (h : list event)
    : option (result (list PointStruct)) * list event :=
  match chunks with
  | [] => (Some (Ret points), h)
  | chunk :: rest =>
      if Nat.ltb (String.length (strip chunk)) 30
      then embed_chunks fuel rel rest (S idx) points h
      else
        match get_embedding fuel chunk h with
        | (Some (Ret embedding), h1) =>
            let point := {| id := uuid4 sv (length points);
                            vector := embedding;
                            text := chunk;
                            chapter := chapter_name rel;
                            file := rel;
                            chunk_index := idx |} in
            embed_chunks fuel rel rest (S idx) (points ++ [point]) h1
        | (Some (Raise e), h1) => (Some (Raise e), h1)
        | (None, h1) => (None, h1)
        end
  end.

(** The loop over [all_md_files]; a file is given by its path relative to
    the documents folder. *)
Fixpoint embed_files (fuel : nat) (all_md_files : list string)
    (points : list PointStruct) (h : list event)
    : option (result (list PointStruct)) * list event :=
  match all_md_files with
  | [] => (Some (Ret points), h)
  | file_path :: rest =>
      match read sv file_path with
      | Raise e => (Some (Raise e), h)
      | Ret content =>
          let rel := replace backslash "/" file_path in
          match chunk_text content with
          | None => (None, h)
          | Some chunks =>
              match embed_chunks fuel rel chunks 0 points h with
              | (Some (Ret points'), h1) => embed_files fuel rest points' h1
              | stopped => stopped
              end
          end
      end
  end.

Definition main (fuel : nat) (all_md_files : list string) (h : list event)
    : option (result unit) * list event :=
  match embed_files fuel all_md_files [] h with
  | (Some (Ret points), h1) =>
      let h2 := h1 ++ [GetCollections] in
      match collection_exists sv h1 with
      | Raise e => (Some (Raise e), h2)
      | Ret present =>
          let created :=
            if present then (Ret tt, h2)
            else (create_collection sv h2, h2 ++ [CreateCollection]) in
          match created with
          | (Raise e, h3) => (Some (Raise e), h3)
          | (Ret _, h3) => (Some (upsert sv h3 points), h3 ++ [Upsert points])
          end
      end
  | (Some (Raise e), h1) => (Some (Raise e), h1)
  | (None, h1) => (None, h1)
  end.

(** The history after [k] refused calls for [chunk]. *)
Definition refused (chunk : string) (k : nat) : list event :=
  concat (repeat [Embed chunk; Sleep 65] k).

(** A stretch of history without an upsert. *)
Definition no_upsert (l : list event) : bool :=
  forallb (fun e => negb (is_upsert e)) l.

(** [p] was made from chunk number [chunk_index p] of the file at [path]:
    it carries that chunk, the names derived from the path, and an
    embedding that the provider returned for the chunk. *)
Definition point_of (path : string) (p : PointStruct) : Prop :=
  exists content chunks,
    read sv path = Ret content
    /\ chunk_text content = Some chunks
    /\ chunks !! chunk_index p = Some (text p)
    /\ 30 <= String.length (strip (text p))
    /\ file p = replace backslash "/" path
    /\ chapter p = chapter_name (file p)
    /\ exists tr vs, co_embed sv tr (text p) = Embedded (vector p :: vs).

End WithServices.

End CreateEmbeddings.

(** ** main.py *)

Module Main.
Import Py Runtime.

Record QueryRequest : Type := {
  question : string;
  selected_text : option string
}.

Record Source : Type := {
  src_chapter : option string;
  src_section : option string;
  src_url : option string
}.

Record QueryResponse : Type := {
  answer : string;
  sources : list Source;
  meta : list (string * pyval)
}.

(** What FastAPI sends back: the response model with status 200, the
    [HTTPException] raised by the handler, or status 500 for an exception
    nothing catches. *)
Inductive http_response : Type :=
| Ok (body : QueryResponse)
| HTTPException (status : Z) (detail : string)
| InternalServerError (e : exn).

Definition status_of (r : http_response) : Z :=
  match r with
  | Ok _ => 200%Z
  | HTTPException st _ => st
  | InternalServerError _ => 500%Z
  end.

(** The services and library functions the module calls.  Remote services
    see the history of calls made before the current one.  Library
    functions whose text is outside the repository are taken as given:
    [json.dumps], [str()] of a value that is neither a string, [None], an
    integer nor a boolean, and the coercion pydantic applies to a value
    given for a [str] field. *)
Record services : Type := {
  post_embed : list event -> list string -> http_reply;
  post_chat : list event -> string -> string -> http_reply;
  qdrant_search : list event -> pyval -> Z -> option (list scored_point);
  file_writable : list event -> bool;
  json_dumps : pyval -> string;
  repr_other : pyval -> string;
  coerce_str : pyval -> option string
}.

Section WithServices.
Variable sv : services.

(** [f"{v}"] *)
Definition format (v : pyval) : string :=
  match v with
  | VStr s => s
  | VNone => "None"
  | VBool true => "True"
  | VBool false => "False"
  | VInt n => str_of_Z n
  | _ => repr_other sv v
  end.

(** [save_cache()]: a failed write is reported on the console and
    otherwise ignored. *)
Definition save_cache (w : world) : world :=
  let w' := log FileWrite w in
  if file_writable sv (history w) then file_overwrite w' else w'.

(** The embeddings read off the entries of a ["data"] list. *)
Definition embeddings_of_data (data : list pyval) : list pyval :=
  map (fun d =>
         match d with
         | VDict e => match lookup_key "embedding" e with
                      | Some x => x
                      | None => VNone
                      end
         | VList _ => d
         | _ => VNone
         end) data.

(** The shape analysis of [gemini_embed_texts] on a parsed body. *)
Definition parse_embeddings (j : pyval) : result (option (list pyval)) :=
  match (match j with
         | VDict d => match lookup_key "data" d with
                      | Some (VList data) => Some data
                      | _ => None
                      end
         | _ => None
         end) with
  | Some data => Ret (Some (embeddings_of_data data))
  | None =>
      let! has_embeddings := str_in "embeddings" j in
      let! embeddings :=
        (if has_embeddings : bool
         then let! x := subscript j "embeddings" in Ret (Some x)
         else Ret None) in
      match embeddings with
      | Some (VList l) => Ret (Some l)
      | _ =>
          let! has_embedding := str_in "embedding" j in
          if has_embedding : bool
          then let! x := subscript j "embedding" in Ret (Some [x])
          else Ret None
      end
  end.

Definition gemini_embed_texts (texts : list string) (w : world)
    : result (option (list pyval)) * world :=
  let w' := log (EmbedCall texts) w in
  match post_embed sv (history w) texts with
  | ConnectionError => (Ret None, w')
  | Response status body =>
      if negb (Z.eqb status 200) then (Ret None, w')
      else match body with
           | None => (Raise JSONDecodeError, w')
           | Some j => (parse_embeddings j, w')
           end
  end.

(** The text parts gathered from an ["output"]["content"] list. *)
Definition output_parts (content : list pyval) : list pyval :=
  flat_map (fun item =>
              match item with
              | VDict it =>
                  match lookup_key "text" it with
                  | Some t => [t]
                  | None =>
                      match lookup_key "content" it with
                      | Some (VDict c) =>
                          match lookup_key "text" c with
                          | Some t => [t]
                          | None => []
                          end
                      | _ => []
                      end
                  end
              | VStr _ => [item]
              | _ => []
              end) content.

(** The text parts gathered from a message's ["content"] list. *)
Definition choice_texts (cont : list pyval) : list pyval :=
  flat_map (fun c =>
              match c with
              | VDict cd => match lookup_key "text" cd with
                            | Some t => [t]
                            | None => []
                            end
              | VStr _ => [c]
              | _ => []
              end) cont.

(** [" ".join(parts).strip()] when [parts] is not empty *)
Definition joined_text (parts : list pyval) : result (option string) :=
  match parts with
  | [] => Ret None
  | _ => let! s := join_values " " parts in Ret (Some (strip s))
  end.

(** [{"output": {"content": [...]}}] *)
Definition shape_output (d : list (string * pyval)) : result (option string) :=
  match lookup_key "output" d with
  | Some (VDict out) =>
      match dict_get out "content" VNone with
      | VList content => joined_text (output_parts content)
      | _ => Ret None
      end
  | _ => Ret None
  end.

Definition str_field (k : string) (v : pyval) : option string :=
  match v with
  | VDict d => match lookup_key k d with
               | Some (VStr s) => Some (strip s)
               | _ => None
               end
  | _ => None
  end.

(** [{"choices": [{"message": {"content": ...}}, ...]}] *)
Definition shape_choices (d : list (string * pyval)) : result (option string) :=
  match lookup_key "choices" d with
  | Some (VList (first :: _)) =>
      let! message := method_get first "message" VNone in
      let! msg :=
        (if truthy message then Ret message
         else let! delta := method_get first "delta" VNone in
              Ret (if truthy delta then delta else first)) in
      let! from_msg :=
        match msg with
        | VDict md =>
            let! from_content :=
              match lookup_key "content" md with
              | Some (VList cont) => joined_text (choice_texts cont)
              | Some (VStr s) => Ret (Some (strip s))
              | _ => Ret None
              end in
            match from_content with
            | Some s => Ret (Some s)
            | None => Ret (str_field "content" first)
            end
        | _ => Ret None
        end in
      match from_msg with
      | Some s => Ret (Some s)
      | None => Ret (str_field "text" first)
      end
  | _ => Ret None
  end.

(** The response shapes [gemini_chat] recognises, tried in order; [None]
    when none of them yields a text. *)
Definition extract_text (j : pyval) : result (option string) :=
  match j with
  | VDict d =>
      let! from_output := shape_output d in
      match from_output with
      | Some s => Ret (Some s)
      | None =>
          let! from_choices := shape_choices d in
          match from_choices with
          | Some s => Ret (Some s)
          | None => Ret (str_field "text" j)
          end
      end
  | _ => Ret None
  end.

(** [json.dumps] does not fail on a value that [resp.json()] produced, so
    the [except] branch of the final [try] is not modelled. *)
Definition gemini_chat (system_prompt user_prompt : string) (max_tokens : Z)
    (w : world) : result (option string) * world :=
  let w' := log (ChatCall [system_prompt; user_prompt]) w in
  match post_chat sv (history w) system_prompt user_prompt with
  | ConnectionError => (Ret None, w')
  | Response status body =>
      if negb (Z.eqb status 200) then (Ret None, w')
      else match body with
           | None => (Raise JSONDecodeError, w')
           | Some j =>
               (let! found := extract_text j in
                match found with
                | Some s => Ret (Some s)
                | None => Ret (Some (substring 0 1500 (json_dumps sv j)))
                end, w')
           end
  end.

Definition chunk_of_point (r : scored_point) : chunk :=
  let payload := payload_or_empty r in
  {| text := dict_get payload "text" (VStr "");
     chapter := dict_get payload "chapter" VNone;
     chunk_index := dict_get payload "chunk_index" VNone;
     chunk_score := score r |}.

Definition search_qdrant_by_embedding (embedding : pyval) (top_k : Z) (w : world)
    : list chunk * world :=
  let w' := log (SearchCall embedding top_k) w in
  match qdrant_search sv (history w) embedding top_k with
  | None => ([], w')
  | Some results => (map chunk_of_point results, w')
  end.

Definition system_prompt : string :=
  "You are an expert assistant specialized in Physical AI & Humanoid Robotics. "
  +:+ "Answer the user's question using ONLY the information contained in the provided passages. "
  +:+ "Be precise, technical, and concise. If the answer is not present in the passages, reply: "
  +:+ dquote +:+ "I don't know based on the textbook." +:+ dquote.

(** [contexts.insert(0, req.selected_text.strip())] under its guard *)
Definition boosted (selected : option string) (contexts : list pyval) : list pyval :=
  match selection selected with
  | Some s => VStr s :: contexts
  | None => contexts
  end.

(** ["\n\n".join([f"Passage {i+1}:\n{c}" for i, c in enumerate(contexts)])] *)
Definition context_str (contexts : list pyval) : string :=
  join (nl +:+ nl)
       (imap (fun i c => "Passage " +:+ str_of_nat (i + 1) +:+ ":" +:+ nl +:+ format c)
             contexts).

Definition user_prompt (contexts : list pyval) (question : string) : string :=
  "Context:" +:+ nl +:+ context_str contexts +:+ nl +:+ nl
  +:+ "Question: " +:+ question +:+ nl +:+ "Answer:".

(** Step 1 of [query_route]: the cached embedding of the question, or a
    fresh one that is cached and saved; [None] when the handler gives up
    and answers with the degraded-service message. *)
Definition query_embedding (question : string) (w : world)
    : result (option pyval) * world :=
  match embedding_cache w !! question with
  | Some emb => (Ret (Some emb), w)
  | None =>
      match gemini_embed_texts [question] w with
      | (Raise e, w1) => (Raise e, w1)
      | (Ret None, w1) => (Ret None, w1)
      | (Ret (Some []), w1) => (Ret None, w1)
      | (Ret (Some (VNone :: _)), w1) => (Ret None, w1)
      | (Ret (Some (emb :: _)), w1) =>
          (Ret (Some emb), save_cache (cache_store question emb w1))
      end
  end.

(** [Source(chapter=r.get("chapter"), section=f"Chunk {...}", url=None)];
    [chapter] is declared [Optional[str]] *)
Definition make_source (r : chunk) : result Source :=
  let! ch :=
    match chapter r with
    | VNone => Ret None
    | VStr s => Ret (Some s)
    | v => match coerce_str sv v with
           | Some s => Ret (Some s)
           | None => Raise ValidationError
           end
    end in
  Ret {| src_chapter := ch;
         src_section := Some ("Chunk " +:+ format (chunk_index r));
         src_url := None |}.

Fixpoint make_sources (results : list chunk) : result (list Source) :=
  match results with
  | [] => Ret []
  | r :: rest =>
      let! s := make_source r in
      let! ss := make_sources rest in
      Ret (s :: ss)
  end.

Definition embedding_failed : QueryResponse :=
  {| answer := "Embedding failed or service unavailable. Please try again later.";
     sources := [];
     meta := [("rate_limited", VBool true)] |}.

Definition no_passages : QueryResponse :=
  {| answer := "No relevant passages found in the textbook.";
     sources := [];
     meta := [("source_count", VInt 0)] |}.

Definition chat_failed : QueryResponse :=
  {| answer := "Chat generation failed. Please try again later.";
     sources := [];
     meta := [("chat_failed", VBool true)] |}.

(** The outcomes of [gemini_embed_texts] on which [query_route] gives up:
    [not embeddings or embeddings[0] is None]. *)
Definition embed_failed (r : result (option (list pyval))) : bool :=
  match r with
  | Ret None => true
  | Ret (Some []) => true
  | Ret (Some (VNone :: _)) => true
  | _ => false
  end.

(** The embedding [query_route] goes on with, when there is one. *)
Definition embedding_obtained (r : result (option (list pyval))) : option pyval :=
  match r with
  | Ret (Some (emb :: _)) => if embed_failed r then None else Some emb
  | _ => None
  end.

Definition query_route (req : QueryRequest) (w : world) : http_response * world :=
  let question := strip (question req) in
  if is_empty question
  then (HTTPException 400 "Question cannot be empty", w)
  else
    match query_embedding question w with
    | (Raise e, w1) => (InternalServerError e, w1)
    | (Ret None, w1) => (Ok embedding_failed, w1)
    | (Ret (Some emb), w1) =>
        match search_qdrant_by_embedding emb 5 w1 with
        | ([], w2) => (Ok no_passages, w2)
        | (results, w2) =>
            let contexts := boosted (selected_text req) (map text results) in
            match gemini_chat system_prompt (user_prompt contexts question) 500 w2 with
            | (Raise e, w3) => (InternalServerError e, w3)
            | (Ret None, w3) => (Ok chat_failed, w3)
            | (Ret (Some answer), w3) =>
                if is_empty answer then (Ok chat_failed, w3)
                else
                  match make_sources results with
                  | Raise e => (InternalServerError e, w3)
                  | Ret sources =>
                      (Ok {| answer := strip answer;
                             sources := take 5 sources;
                             meta := [("source_count",
                                       VInt (Z.of_nat (length results)))] |}, w3)
                  end
            end
        end
    end.

(** The process serving a sequence of requests. *)
Definition serve (reqs : list QueryRequest) (w : world) : world :=
  fold_left (fun w req => snd (query_route req w)) reqs w.

End WithServices.

(** The JSON object FastAPI sends for a response model. *)
Definition source_json (s : Source) : pyval :=
  VDict [("chapter", json_of_option (src_chapter s));
         ("section", json_of_option (src_section s));
         ("url", json_of_option (src_url s))].

Definition response_json (r : QueryResponse) : list (string * pyval) :=
  [("answer", VStr (answer r));
   ("sources", VList (map source_json (sources r)));
   ("meta", VDict (meta r))].

End Main.

(** ** app.py *)

Module App.
Import Py Runtime.

Record QueryRequest : Type := {
  question : string;
  selected_text : option string
}.

Record Source : Type := {
  src_chapter : string;
  src_section : option string;
  src_url : option string
}.

(** This variant's response model has no [meta] field. *)
Record QueryResponse : Type := {
  answer : string;
  sources : list Source
}.

Inductive http_response : Type :=
| Ok (body : QueryResponse)
| HTTPException (status : Z) (detail : string)
| InternalServerError (e : exn).

Definition status_of (r : http_response) : Z :=
  match r with
  | Ok _ => 200%Z
  | HTTPException st _ => st
  | InternalServerError _ => 500%Z
  end.

(** Outcomes of [co.embed] and [co.chat]: the rate-limit exception, any
    other exception, or a response. *)
Inductive embed_reply : Type :=
| EmbedTooManyRequests
| EmbedError
| EmbedResponse (embeddings : list pyval).

Inductive chat_reply : Type :=
| ChatTooManyRequests
| ChatError
| ChatResponse (text : string).

Record services : Type := {
  co_embed : list event -> string -> embed_reply;
  co_chat : list event -> string -> chat_reply;
  qdrant_search : list event -> pyval -> Z -> option (list scored_point);
  file_writable : list event -> bool;
  repr_other : pyval -> string;
  coerce_str : pyval -> option string
}.

Section WithServices.
Variable sv : services.

Definition format (v : pyval) : string :=
  match v with
  | VStr s => s
  | VNone => "None"
  | VBool true => "True"
  | VBool false => "False"
  | VInt n => str_of_Z n
  | _ => repr_other sv v
  end.

(** [save_embedding_cache()]: nothing is caught here. *)
Definition save_embedding_cache (w : world) : result unit * world :=
  let w' := log FileWrite w in
  if file_writable sv (history w) then (Ret tt, file_overwrite w')
  else (Raise OSError, w').

Definition get_embedding (text : string) (w : world) : pyval * world :=
  match embedding_cache w !! text with
  | Some v => (v, w)
  | None =>
      let w1 := log (EmbedCall [text]) w in
      match co_embed sv (history w) text with
      | EmbedTooManyRequests => (VList [], w1)
      | EmbedError => (VList [], w1)
      | EmbedResponse [] => (VList [], w1)
      | EmbedResponse (embedding :: _) =>
          match save_embedding_cache (cache_store text embedding w1) with
          | (Ret _, w2) => (embedding, w2)
          | (Raise _, w2) => (VList [], w2)
          end
      end
  end.

Definition chunk_of_point (r : scored_point) : chunk :=
  let payload := payload_or_empty r in
  {| text := dict_get payload "text" (VStr "");
     chapter := dict_get payload "chapter" (VStr "Unknown");
     chunk_index := dict_get payload "chunk_index" (VInt 0);
     chunk_score := score r |}.

Definition search_qdrant (query : string) (top_k : Z) (w : world)
    : list chunk * world :=
  let (embedding, w1) := get_embedding query w in
  if negb (truthy embedding) then ([], w1)
  else
    let w2 := log (SearchCall embedding top_k) w1 in
    match qdrant_search sv (history w1) embedding top_k with
    | None => ([], w2)
    | Some results => (map chunk_of_point results, w2)
    end.

Definition context_str (contexts : list pyval) : string :=
  join (nl +:+ nl)
       (imap (fun i ctx => "Passage " +:+ str_of_nat (i + 1) +:+ ":" +:+ nl +:+ format ctx)
             contexts).

Definition prompt (contexts : list pyval) (question : string) : string :=
  nl
  +:+ "You are an expert AI assistant specialized in Physical AI and Humanoid Robotics. " +:+ nl
  +:+ "Use only the information from the provided passages below to answer the user's question." +:+ nl
  +:+ "Be precise, technical, and concise. If the answer is not in the context, say "
  +:+ dquote +:+ "I don't know based on the textbook." +:+ dquote +:+ nl
  +:+ "Context from the textbook: " +:+ context_str contexts +:+ nl
  +:+ "Question: " +:+ question +:+ nl
  +:+ "Answer:" +:+ nl.

Definition no_context_answer : string :=
  "I'm sorry, I couldn't find relevant information or the API rate limit was reached.".

Definition generate_answer (contexts : list pyval) (question : string) (w : world)
    : string * world :=
  match contexts with
  | [] => (no_context_answer, w)
  | _ =>
      let w' := log (ChatCall [prompt contexts question]) w in
      match co_chat sv (history w) (prompt contexts question) with
      | ChatResponse text => (strip text, w')
      | ChatTooManyRequests =>
          ("API rate limit reached. Please try again in a few seconds.", w')
      | ChatError =>
          ("Sorry, there was an issue generating the answer. Please try again.", w')
      end
  end.

Definition boosted (selected : option string) (contexts : list pyval) : list pyval :=
  match selection selected with
  | Some s => VStr s :: contexts
  | None => contexts
  end.

(** [Source(chapter=r["chapter"], section=f"Chunk {...}", url="")];
    [chapter] is declared [str] *)
Definition make_source (r : chunk) : result Source :=
  let! ch :=
    match chapter r with
    | VStr s => Ret s
    | VNone => Raise ValidationError
    | v => match coerce_str sv v with
           | Some s => Ret s
           | None => Raise ValidationError
           end
    end in
  Ret {| src_chapter := ch;
         src_section := Some ("Chunk " +:+ format (chunk_index r));
         src_url := Some "" |}.

Fixpoint make_sources (results : list chunk) : result (list Source) :=
  match results with
  | [] => Ret []
  | r :: rest =>
      let! s := make_source r in
      let! ss := make_sources rest in
      Ret (s :: ss)
  end.

Definition query_chatbot (req : QueryRequest) (w : world) : http_response * world :=
  if is_empty (question req) || is_empty (strip (question req))
  then (HTTPException 400 "Question cannot be empty", w)
  else
    let question := strip (question req) in
    let (search_results, w1) := search_qdrant question 5 w in
    let contexts := boosted (selected_text req) (map text search_results) in
    let (answer, w2) := generate_answer contexts question w1 in
    match make_sources search_results with
    | Raise e => (InternalServerError e, w2)
    | Ret sources => (Ok {| answer := answer; sources := take 5 sources |}, w2)
    end.

(** The process serving a sequence of requests. *)
Definition serve (reqs : list QueryRequest) (w : world) : world :=
  fold_left (fun w req => snd (query_chatbot req w)) reqs w.

End WithServices.

(** The JSON object FastAPI sends for a response model. *)
Definition source_json (s : Source) : pyval :=
  VDict [("chapter", VStr (src_chapter s));
         ("section", json_of_option (src_section s));
         ("url", json_of_option (src_url s))].

Definition response_json (r : QueryResponse) : list (string * pyval) :=
  [("answer", VStr (answer r));
   ("sources", VList (map source_json (sources r)))].

End App.

(** ** embeddings.py *)

Module Embeddings.
Import Py Runtime.

Record services : Type := {
  post_embed : list event -> string -> http_reply;
  file_writable : list event -> bool
}.

Section WithServices.
Variable sv : services.

(** [save_cache()]: nothing is caught here. *)
Definition save_cache (w : world) : result unit * world :=
  let w' := log FileWrite w in
  if file_writable sv (history w) then (Ret tt, file_overwrite w')
  else (Raise OSError, w').

(** The [while True] loop of [get_gemini_embedding]: [None] when [fuel]
    iterations went by without reaching [return vector]. Every exception
    raised inside the [try] is caught by [except Exception], which sleeps
    10 seconds and goes round again. *)
Fixpoint retry_loop (fuel : nat) (text : string) (w : world) : option pyval * world :=
  match fuel with
  | O => (None, w)
  | S fuel' =>
      let w1 := log (EmbedCall [text]) w in
      match post_embed sv (history w) text with
      | ConnectionError => retry_loop fuel' text (log (Sleep 10) w1)
      | Response status body =>
          if Z.eqb status 200 then
            match body with
            | None => retry_loop fuel' text (log (Sleep 10) w1)
            | Some data =>
                match method_get data "embedding" VNone with
                | Raise _ => retry_loop fuel' text (log (Sleep 10) w1)
                | Ret vector =>
                    if truthy vector then
                      match save_cache (cache_store text vector w1) with
                      | (Ret _, w2) => (Some vector, w2)
                      | (Raise _, w2) => retry_loop fuel' text (log (Sleep 10) w2)
                      end
                    else retry_loop fuel' text (log (Sleep 10) w1)
                end
            end
          else if Z.eqb status 429 then retry_loop fuel' text (log (Sleep 60) w1)
          else retry_loop fuel' text (log (Sleep 10) w1)
      end
  end.

(** The embedding a reply carries when the loop accepts it: status 200,
    a JSON object, and a value under ["embedding"] that is not falsy. *)
Definition reply_vector (r : http_reply) : option pyval :=
  match r with
  | Response status (Some (VDict d)) =>
      if Z.eqb status 200 && truthy (dict_get d "embedding" VNone)
      then Some (dict_get d "embedding" VNone)
      else None
  | _ => None
  end.

(** The pause after a reply that is not accepted. *)
Definition delay (r : http_reply) : Z :=
  match r with
  | Response status _ =>
      if Z.eqb status 200 then 10%Z
      else if Z.eqb status 429 then 60%Z else 10%Z
  | ConnectionError => 10%Z
  end.

Definition get_gemini_embedding (fuel : nat) (text : string) (w : world)
    : option pyval * world :=
  match embedding_cache w !! text with
  | Some v => (Some v, w)
  | None => retry_loop fuel text w
  end.

End WithServices.
End Embeddings.

(** ** main2.py *)

Module Main2.
Import Py.

Record Message : Type := {
  role : string;
  content : string;
  timestamp : string
}.

Record ChatRequest : Type := {
  query : string;
  software : option string;
  hardware : option string
}.

(** An entry [{"source": ..., "filename": ...}] of the source list. *)
Record source_entry : Type := {
  source : string;
  filename : pyval
}.

Record ChatResponse : Type := {
  answer : string;
  sources : list source_entry;
  history_sent : list Message
}.

Inductive http_response : Type :=
| Ok (body : ChatResponse)
| HTTPException (status : Z) (detail : string).

(** Calls to the embedding model, the Pinecone index and the chat chain. *)
Inductive call : Type :=
| EmbedQuery (text : string)
| IndexQuery (vector : pyval) (top_k : Z)
| Invoke (system_prompt context input : string).

Record index_match : Type := {
  metadata : option (list (string * pyval));
  match_score : pyval
}.

(** What a call to a client library gives: a value, or an exception, of
    which the handler only uses [str(e)]. *)
Inductive outcome (A : Type) : Type :=
| Returned (a : A)
| Failed (message : string).
Arguments Returned {A} a.
Arguments Failed {A} message.

(** The process: the module-level [conversation_history], whether
    [startup_event] has set the three clients, and the calls made. *)
Record world : Type := {
  conversation_history : list Message;
  models_ready : bool;
  calls : list call
}.

Definition log (c : call) (w : world) : world :=
  {| conversation_history := conversation_history w;
     models_ready := models_ready w;
     calls := calls w ++ [c] |}.

Definition set_history (h : list Message) (w : world) : world :=
  {| conversation_history := h;
     models_ready := models_ready w;
     calls := calls w |}.

Definition maxlen : nat := 7.

(** [deque.append] on a deque with [maxlen=7]: when the deque is full the
    element at the left end is discarded. *)
Definition deque_append (x : Message) (d : list Message) : list Message :=
  if Nat.ltb (length d) maxlen then d ++ [x] else drop 1 d ++ [x].

(** The clients and the library functions outside the repository: the
    time, [==] on two values, [str(e)] of the exceptions the code itself
    causes, and the coercion applied to a value given for the [str] field
    [page_content] of a document.  [invoke] stands for building the prompt
    template and invoking the chain. *)
Record services : Type := {
  embed_query : list call -> string -> outcome pyval;
  index_query : list call -> pyval -> Z -> outcome (list index_match);
  invoke : list call -> string -> string -> string -> outcome string;
  now_isoformat : list call -> string;
  value_eqb : pyval -> pyval -> bool;
  exn_message : exn -> string;
  http_exception_str : Z -> string -> string;
  coerce_str : pyval -> option string
}.

Section WithServices.
Variable sv : services.

(** [f"{x}"] for an [Optional[str]] *)
Definition format_optional (o : option string) : string :=
  match o with
  | Some s => s
  | None => "None"
  end.

Definition truthy_optional (o : option string) : bool :=
  match o with
  | Some s => negb (is_empty s)
  | None => false
  end.

(** [f"/docs/{source_path.replace('.md', '').replace('.mdx', '')}"] *)
Definition doc_url (source_path : string) : string :=
  "/docs/" +:+ replace ".mdx" "" (replace ".md" "" source_path).

(** [entry in sources_list] *)
Definition entry_in (e : source_entry) (l : list source_entry) : bool :=
  existsb (fun x => String.eqb (source x) (source e)
                    && value_eqb sv (filename x) (filename e)) l.

(** [Document(page_content=content, ...)] *)
Definition page_content (v : pyval) : option string :=
  match v with
  | VStr s => Some s
  | _ => coerce_str sv v
  end.

(** The loop over [results.matches]: the documents (URL and content) and
    the source list. *)
Fixpoint gather (matches : list index_match)
    (docs : list (string * string)) (sources_list : list source_entry)
    : result (list (string * string) * list source_entry) :=
  match matches with
  | [] => Ret (docs, sources_list)
  | mt :: rest =>
      match metadata mt with
      | None => Raise AttributeError
      | Some md =>
          match dict_get md "source" (VStr "N/A") with
          | VStr source_path =>
              match page_content (dict_get md "text" (VStr "")) with
              | Some content =>
                  let entry := {| source := doc_url source_path;
                                  filename := dict_get md "filename" (VStr "N/A") |} in
                  gather rest (docs ++ [(doc_url source_path, content)])
                    (if entry_in entry sources_list then sources_list
                     else sources_list ++ [entry])
              | None => Raise ValidationError
              end
          | _ => Raise AttributeError
          end
      end
  end.

Definition conversation_context (h : list Message) : string :=
  join nl (map (fun msg => role msg +:+ ": " +:+ content msg) h).

Definition personalization_context (software hardware : option string) : string :=
  if truthy_optional software || truthy_optional hardware
  then "User background: software=" +:+ format_optional software
       +:+ ", hardware=" +:+ format_optional hardware +:+ nl
  else "".

Definition system_prompt (docs : list (string * string))
    (software hardware : option string) : string :=
  match docs with
  | [] => "You are an expert AI assistant. Answer thoughtfully based on general AI and robotics knowledge."
          +:+ personalization_context software hardware
  | _ => "You are an expert technical documentation assistant. Answer based exclusively on the provided docs."
         +:+ personalization_context software hardware
  end.

Definition context_str (docs : list (string * string)) : string :=
  join (nl +:+ nl)
       (map (fun d => "[Source: " +:+ fst d +:+ "]" +:+ nl +:+ snd d) docs).

Definition full_context (h : list Message) (docs : list (string * string)) : string :=
  conversation_context h +:+ nl +:+ context_str docs.

(** [get_rag_chain]: the prompt parts the chain will be invoked with and
    the source list, or the [str()] of the exception raised. *)
Definition get_rag_chain (req : ChatRequest) (w : world)
    : outcome (string * string * list source_entry) * world :=
  if negb (models_ready w)
  then (Failed (http_exception_str sv 500 "AI models or Pinecone not initialized."), w)
  else
    let w1 := log (EmbedQuery (query req)) w in
    match embed_query sv (calls w) (query req) with
    | Failed msg => (Failed msg, w1)
    | Returned query_vector =>
        let w2 := log (IndexQuery query_vector 5) w1 in
        match index_query sv (calls w1) query_vector 5 with
        | Failed msg => (Failed msg, w2)
        | Returned matches =>
            match gather matches [] [] with
            | Raise e => (Failed (exn_message sv e), w2)
            | Ret (docs, sources_list) =>
                (Returned (system_prompt docs (software req) (hardware req),
                           full_context (conversation_history w) docs,
                           sources_list), w2)
            end
        end
    end.

Definition chat_endpoint (req : ChatRequest) (w : world) : http_response * world :=
  match get_rag_chain req w with
  | (Failed msg, w1) => (HTTPException 500 msg, w1)
  | (Returned (sys, ctx, sources_list), w1) =>
      let w2 := log (Invoke sys ctx (query req)) w1 in
      match invoke sv (calls w1) sys ctx (query req) with
      | Failed msg => (HTTPException 500 msg, w2)
      | Returned response =>
          let ts := now_isoformat sv (calls w2) in
          let h := deque_append
                     {| role := "assistant"; content := response; timestamp := ts |}
                     (deque_append
                        {| role := "user"; content := query req; timestamp := ts |}
                        (conversation_history w2)) in
          (Ok {| answer := response; sources := sources_list; history_sent := h |},
           set_history h w2)
      end
  end.

(** [GET /history] and [DELETE /history] *)
Definition get_history (w : world) : list Message := conversation_history w.

Definition clear_history (w : world) : world := set_history [] w.

Inductive request : Type :=
| PostChat (req : ChatRequest)
| GetHistory
| DeleteHistory.

Definition handle (r : request) (w : world) : world :=
  match r with
  | PostChat req => snd (chat_endpoint req w)
  | GetHistory => w
  | DeleteHistory => clear_history w
  end.

(** The process serving a sequence of requests. *)
Definition serve (rs : list request) (w : world) : world :=
  fold_left (fun w r => handle r w) rs w.

(** The process after [startup_event]. *)
Definition started : world :=
  {| conversation_history := []; models_ready := true; calls := [] |}.

(** Every call to a client returns, and every match can be read. *)
Definition always_answers : Prop :=
  (forall tr q, exists v, embed_query sv tr q = Returned v)
  /\ (forall tr v k, exists ms docs srcs,
         index_query sv tr v k = Returned ms /\ gather ms [] [] = Ret (docs, srcs))
  /\ (forall tr sys ctx q, exists r, invoke sv tr sys ctx q = Returned r).

(** The roles of the last seven of [n] exchanges. *)
Definition roles_after (n : nat) : list string :=
  drop (2 * n - maxlen) (concat (repeat ["user"; "assistant"] n)).

(** Two source entries that [in] takes for the same. *)
Definition same_entry (x y : source_entry) : bool :=
  String.eqb (source x) (source y) && value_eqb sv (filename x) (filename y).

End WithServices.
End Main2.

(** ** ingest.py *)

Module Ingest.
Import Py.

(** A document as [load_docs] returns it, and a chunk as [chunk_text]
    builds it. *)
Record document : Type := {
  content : string;
  doc_source : string;
  doc_filename : string
}.

Record chunk : Type := {
  id : string;
  text : string;
  source : string;
  filename : string
}.

(** One element of [to_upsert]: [(id, vector, metadata)]. *)
Record vector_item : Type := {
  item_id : string;
  values : pyval;
  metadata : list (string * pyval)
}.

(** The calls of the upload loop. *)
Inductive event : Type :=
| EmbedDocuments (texts : list string)
| Upsert (vectors : list vector_item).

(** The text splitter and the embedding model.  [embed_documents] returns
    the vectors or raises ([None]).  An exception of [index.upsert] is
    caught and only printed, so its outcome has no part in the model. *)
Record services : Type := {
  split_text : string -> list string;
  embed_documents : list event -> list string -> option (list pyval)
}.

Definition backslash : string := String (ascii_of_nat 92) EmptyString.

Definition batch_size : nat := 50.

(** [range(start, stop, step)] for a positive [step]: at most [stop]
    numbers are produced. *)
Fixpoint range_from (fuel i stop step : nat) : list nat :=
  match fuel with
  | O => []
  | S fuel' => if Nat.ltb i stop then i :: range_from fuel' (i + step) stop step else []
  end.

Definition range (start stop step : nat) : list nat :=
  range_from stop start stop step.

Section WithServices.
Variable sv : services.

(** The chunk appended for the [i]-th split [t] of [doc]. *)
Definition chunk_of (doc : document) (i : nat) (t : string) : chunk :=
  {| id := replace backslash "/" (doc_source doc +:+ "#" +:+ str_of_nat i);
     text := t;
     source := doc_source doc;
     filename := doc_filename doc |}.

(** The loop over [enumerate(splits)] of [chunk_text], from index [i] on. *)
Fixpoint chunk_splits (doc : document) (splits : list string) (i : nat)
    (chunks : list chunk) : list chunk :=
  match splits with
  | [] => chunks
  | t :: rest => chunk_splits doc rest (S i) (chunks ++ [chunk_of doc i t])
  end.

(** The loop over the documents. *)
Fixpoint chunk_docs (documents : list document) (chunks : list chunk) : list chunk :=
  match documents with
  | [] => chunks
  | doc :: rest =>
      chunk_docs rest (chunk_splits doc (split_text sv (content doc)) 0 chunks)
  end.

Definition chunk_text (documents : list document) : list chunk :=
  chunk_docs documents [].

(** [total_batches] *)
Definition total_batches (chunks : list chunk) : nat :=
  (length chunks + batch_size - 1) / batch_size.

(** The loop over [enumerate(vectors)]: [batch[j]] raises [IndexError]
    when there are more vectors than chunks in the batch. *)
Fixpoint pair_vectors (batch : list chunk) (vectors : list pyval)
    (to_upsert : list vector_item) {struct vectors} : result (list vector_item) :=
  match vectors with
  | [] => Ret to_upsert
  | v :: vectors' =>
      match batch with
      | [] => Raise IndexError
      | item :: batch' =>
          pair_vectors batch' vectors'
            (to_upsert ++ [ {| item_id := id item;
                               values := v;
                               metadata := [("text", VStr (text item));
                                            ("source", VStr (source item));
                                            ("filename", VStr (filename item))] |} ])
      end
  end.

(** The loop [for i in range(0, len(chunks), batch_size)] of
    [ingest_data], over the indices still to come.  A batch whose
    embedding raises is skipped ([continue]); the [IndexError] of
    [batch[j]] is outside both [try] blocks and ends the run. *)
Fixpoint upload (indices : list nat) (chunks : list chunk) (h : list event)
    : result unit * list event :=
  match indices with
  | [] => (Ret tt, h)
  | i :: rest =>
      let batch := slice chunks i (i + batch_size) in
      let texts := map text batch in
      let h1 := h ++ [EmbedDocuments texts] in
      match embed_documents sv h texts with
      | None => upload rest chunks h1
      | Some vectors =>
          match pair_vectors batch vectors [] with
          | Raise e => (Raise e, h1)
          | Ret to_upsert => upload rest chunks (h1 ++ [Upsert to_upsert])
          end
      end
  end.

(** The embed-and-upsert part of [ingest_data]. *)
Definition ingest_chunks (chunks : list chunk) (h : list event)
    : result unit * list event :=
  upload (range 0 (length chunks) batch_size) chunks h.

End WithServices.

(** The texts that the calls in a history sent to the embedding model. *)
Definition embedded_texts (h : list event) : list string :=
  flat_map (fun e => match e with EmbedDocuments texts => texts | Upsert _ => [] end) h.

(** The items that the calls in a history upserted. *)
Definition upserted (h : list event) : list vector_item :=
  flat_map (fun e => match e with EmbedDocuments _ => [] | Upsert items => items end) h.

(** The number of calls to the embedding model in a history. *)
Definition embed_calls (h : list event) : nat :=
  length (flat_map (fun e => match e with EmbedDocuments _ => [tt] | Upsert _ => [] end) h).

End Ingest.

(** ** Concrete services and inputs, for evaluating the model *)

Module Examples.
Import Py Runtime.

Definition empty_world : world :=
  {| embedding_cache := ∅; cache_file := ∅; history := [] |}.

(** Services that answer every call the same way and a disk that can be
    written. *)
Definition main_services (embed : http_reply)
    (search : option (list scored_point)) (chat : http_reply) : Main.services :=
  {| Main.post_embed := fun _ _ => embed;
     Main.post_chat := fun _ _ _ => chat;
     Main.qdrant_search := fun _ _ _ => search;
     Main.file_writable := fun _ => true;
     Main.json_dumps := fun _ => "{}";
     Main.repr_other := fun _ => "?";
     Main.coerce_str := fun _ => None |}.

Definition app_services (embed : App.embed_reply)
    (search : option (list scored_point)) (chat : App.chat_reply) : App.services :=
  {| App.co_embed := fun _ _ => embed;
     App.co_chat := fun _ _ => chat;
     App.qdrant_search := fun _ _ _ => search;
     App.file_writable := fun _ => true;
     App.repr_other := fun _ => "?";
     App.coerce_str := fun _ => None |}.

(** The same, with a cache file that cannot be written. *)
Definition app_services_read_only (embed : App.embed_reply)
    (search : option (list scored_point)) (chat : App.chat_reply) : App.services :=
  {| App.co_embed := fun _ _ => embed;
     App.co_chat := fun _ _ => chat;
     App.qdrant_search := fun _ _ _ => search;
     App.file_writable := fun _ => false;
     App.repr_other := fun _ => "?";
     App.coerce_str := fun _ => None |}.

Definition main2_services (vector : Main2.outcome pyval)
    (matches : Main2.outcome (list Main2.index_match))
    (reply : Main2.outcome string) : Main2.services :=
  {| Main2.embed_query := fun _ _ => vector;
     Main2.index_query := fun _ _ _ => matches;
     Main2.invoke := fun _ _ _ _ => reply;
     Main2.now_isoformat := fun _ => "2025-01-01T00:00:00";
     Main2.value_eqb := fun x y =>
       match x, y with
       | VStr s, VStr s' => String.eqb s s'
       | _, _ => false
       end;
     Main2.exn_message := fun _ => "error";
     Main2.http_exception_str := fun _ detail => detail;
     Main2.coerce_str := fun _ => None |}.

Definition index_match_of (source filename : string) : Main2.index_match :=
  {| Main2.metadata := Some [("text", VStr "a passage"); ("source", VStr source);
                             ("filename", VStr filename)];
     Main2.match_score := VFloat (9 # 10) |}.

Definition chat_request (q : string) : Main2.ChatRequest :=
  {| Main2.query := q; Main2.software := None; Main2.hardware := None |}.

Definition embeddings_services (embed : http_reply) : Embeddings.services :=
  {| Embeddings.post_embed := fun _ _ => embed;
     Embeddings.file_writable := fun _ => true |}.

Definition vector : pyval := VList [VFloat (1 # 2); VFloat (1 # 4)].

Definition embed_ok : http_reply :=
  Response 200 (Some (VDict [("embedding", vector)])).

Definition rate_limited : http_reply := Response 429 None.

Definition chat_ok : http_reply :=
  Response 200 (Some (VDict [("text", VStr "Physical AI is embodied.")])).

Definition point (chapter : string) (index : Z) : scored_point :=
  {| payload := Some [("text", VStr "a passage"); ("chapter", VStr chapter);
                      ("chunk_index", VInt index)];
     score := VFloat (9 # 10) |}.

Definition bare_point : scored_point :=
  {| payload := None; score := VFloat (9 # 10) |}.

(** A point whose payload has the chapter [null]. *)
Definition null_chapter_point : scored_point :=
  {| payload := Some [("text", VStr "a passage"); ("chapter", VNone);
                      ("chunk_index", VInt 0)];
     score := VFloat (9 # 10) |}.

Definition six_points : list scored_point :=
  map (point "Intro") [0; 1; 2; 3; 4; 5]%Z.

Definition intro_source (index : Z) : Main.Source :=
  {| Main.src_chapter := Some "Intro";
     Main.src_section := Some ("Chunk " +:+ str_of_Z index);
     Main.src_url := None |}.

Definition app_intro_source (index : Z) : App.Source :=
  {| App.src_chapter := "Intro";
     App.src_section := Some ("Chunk " +:+ str_of_Z index);
     App.src_url := Some "" |}.

(** A provider for [create-embeddings.py] that refuses the first [k]
    calls and then returns [vector], a folder whose files all hold
    [content], and a collection that is there. *)
Definition script_services (k : nat) (content : result string)
    : CreateEmbeddings.services :=
  {| CreateEmbeddings.co_embed := fun tr _ =>
       if Nat.ltb (length tr) (2 * k)
       then CreateEmbeddings.TooManyRequestsError
       else CreateEmbeddings.Embedded [VList [VFloat (1 # 2); VFloat (1 # 4)]];
     CreateEmbeddings.read := fun _ => content;
     CreateEmbeddings.uuid4 := fun n => "point-" +:+ str_of_nat n;
     CreateEmbeddings.collection_exists := fun _ => Ret true;
     CreateEmbeddings.create_collection := fun _ => Ret tt;
     CreateEmbeddings.upsert := fun _ _ => Ret tt;
     CreateEmbeddings.arrow := " > " |}.

Definition sentence : string :=
  "Physical AI studies intelligence that is embodied in robots.".

(** An embedding model for [ingest.py] that returns one vector per text,
    except, when [fail_first] is set, for the first call, which raises. *)
Definition ingest_services (fail_first : bool) : Ingest.services :=
  {| Ingest.split_text := split;
     Ingest.embed_documents := fun tr texts =>
       match tr with
       | [] => if fail_first then None
               else Some (map (fun _ => VList [VFloat (1 # 2); VFloat (1 # 4)]) texts)
       | _ :: _ => Some (map (fun _ => VList [VFloat (1 # 2); VFloat (1 # 4)]) texts)
       end |}.

(** Two documents, one with a Windows path. *)
Definition ingest_documents : list Ingest.document :=
  [ {| Ingest.content := "Physical AI is embodied.";
       Ingest.doc_source := "intro.md";
       Ingest.doc_filename := "intro.md" |};
    {| Ingest.content := "Nodes exchange messages.";
       Ingest.doc_source := "ros" +:+ Ingest.backslash +:+ "nodes.md";
       Ingest.doc_filename := "nodes.md" |} ].

(** [n] chunks of one document. *)
Definition ingest_chunks_of (n : nat) : list Ingest.chunk :=
  map (fun i => {| Ingest.id := "intro.md#" +:+ str_of_nat i;
                   Ingest.text := "chunk " +:+ str_of_nat i;
                   Ingest.source := "intro.md";
                   Ingest.filename := "intro.md" |}) (seq 0 n).

End Examples.

(** * Properties *)

Import Py Runtime.

(** ** Strings *)

Lemma append_cons x (a b : string) : String x a +:+ b = String x (a +:+ b).
Proof. reflexivity. Qed.

Lemma append_nil (b : string) : "" +:+ b = b.
Proof. reflexivity. Qed.

Lemma append_assoc (a b c : string) : (a +:+ b) +:+ c = a +:+ (b +:+ c).
Proof.
  induction a as [|x a IH]; [reflexivity |].
  rewrite !append_cons. f_equal. exact IH.
Qed.

Lemma append_empty_r (a : string) : a +:+ "" = a.
Proof.
  induction a as [|x a IH]; [reflexivity |].
  rewrite append_cons. f_equal. exact IH.
Qed.

Lemma lstrip_whitespace_only s : whitespace_only s = true -> lstrip s = "".
Proof.
  induction s as [|c s IH]; simpl; [reflexivity |].
  intros [Hc Hs]%andb_true_iff. rewrite Hc. auto.
Qed.

Lemma strip_whitespace_only s : whitespace_only s = true -> strip s = "".
Proof. intros H. unfold strip. by rewrite lstrip_whitespace_only. Qed.

Lemma rstrip_empty s : rstrip s = "" -> whitespace_only s = true.
Proof.
  induction s as [|c s IH]; simpl; [reflexivity |].
  destruct (rstrip s) eqn:E; [| discriminate].
  destruct (isspace c); [| discriminate]. intros _. by rewrite IH.
Qed.

Lemma lstrip_empty s : whitespace_only (lstrip s) = true -> whitespace_only s = true.
Proof.
  induction s as [|c s IH]; simpl; [reflexivity |].
  destruct (isspace c) eqn:E; simpl; [auto |].
  rewrite E. discriminate.
Qed.

Lemma strip_empty_iff s : strip s = "" <-> whitespace_only s = true.
Proof.
  split; [| apply strip_whitespace_only].
  intros H. apply lstrip_empty, rstrip_empty, H.
Qed.

Lemma is_empty_true s : is_empty s = true <-> s = "".
Proof. destruct s; simpl; split; congruence. Qed.

Example strip_example : strip (" " +:+ nl +:+ "What is  Physical AI? ") = "What is  Physical AI?".
Proof. reflexivity. Qed.

Example split_example : split ("  one two" +:+ nl +:+ "three ") = ["one"; "two"; "three"].
Proof. reflexivity. Qed.

Example join_example : join ", " ["a"; "b"; "c"] = "a, b, c".
Proof. reflexivity. Qed.

Lemma no_space_snoc s c :
  no_space s = true -> isspace c = false -> no_space (s +:+ String c "") = true.
Proof.
  induction s as [|x s IH]; intros Hs Hc.
  - rewrite append_nil. simpl. by rewrite Hc.
  - simpl in Hs. apply andb_true_iff in Hs as [Hx Hs]. rewrite append_cons.
    simpl. rewrite Hx. auto.
Qed.

Lemma is_empty_snoc s c : is_empty (s +:+ String c "") = false.
Proof. destruct s; reflexivity. Qed.

(** Reading a run of non-whitespace characters moves it into [cur]. *)
Lemma split_from_word u : forall cur s,
  no_space u = true -> split_from cur (u +:+ s) = split_from (cur +:+ u) s.
Proof.
  induction u as [|c u IH]; intros cur s Hu.
  - by rewrite append_nil, append_empty_r.
  - simpl in Hu. apply andb_true_iff in Hu as [Hc Hu].
    apply negb_true_iff in Hc.
    rewrite append_cons. simpl. rewrite Hc, IH by done.
    f_equal. rewrite append_assoc. reflexivity.
Qed.

Lemma split_from_words s : forall cur,
  (cur = "" \/ is_word cur = true) -> Forall (fun w => is_word w = true) (split_from cur s).
Proof.
  induction s as [|c s IH]; intros cur Hcur; simpl.
  - destruct Hcur as [-> | Hw]; simpl; [constructor |].
    destruct (is_empty cur) eqn:E; [constructor |]. by repeat constructor.
  - destruct (isspace c) eqn:Hc.
    + destruct (is_empty cur) eqn:E; [apply IH; by left |].
      destruct Hcur as [-> | Hw]; [discriminate |].
      constructor; [done | apply IH; by left].
    + apply IH. right. unfold is_word. rewrite is_empty_snoc. simpl.
      apply no_space_snoc; [| done].
      destruct Hcur as [-> | Hw]; [reflexivity |].
      by apply andb_true_iff in Hw as [_ ?].
Qed.

Lemma split_words s : Forall (fun w => is_word w = true) (split s).
Proof. apply split_from_words. by left. Qed.

(** Joining words with single spaces and splitting again gives the words back. *)
Lemma split_join ws :
  Forall (fun w => is_word w = true) ws -> split (join " " ws) = ws.
Proof.
  induction 1 as [|w ws Hw Hws IH]; [reflexivity |].
  unfold split in *. apply andb_true_iff in Hw as [Hne Hns].
  simpl. destruct ws as [|w' ws'].
  - rewrite <- (append_empty_r w) at 1.
    rewrite split_from_word by done. rewrite append_nil. simpl.
    apply negb_true_iff in Hne. by rewrite Hne.
  - rewrite split_from_word by done. rewrite append_nil.
    change (" " +:+ join " " (w' :: ws')) with (String " "%char (join " " (w' :: ws'))).
    simpl split_from. apply negb_true_iff in Hne. rewrite Hne.
    f_equal. exact IH.
Qed.

(** ** Slices *)

Lemma slice_length {A} (l : list A) i j :
  length (slice l i j) = Nat.min (j - i) (length l - i).
Proof. unfold slice. by rewrite length_take, length_drop. Qed.

Lemma slice_lookup {A} (l : list A) i j n :
  n < j - i -> slice l i j !! n = l !! (i + n).
Proof. intros H. unfold slice. by rewrite lookup_take_lt, lookup_drop by done. Qed.

Lemma slice_app {A} (l : list A) a b c :
  a <= b -> b <= c -> slice l a c = slice l a b ++ slice l b c.
Proof.
  intros Hab Hbc. unfold slice.
  replace (c - a) with ((b - a) + (c - b)) by lia.
  rewrite <- take_take_drop, drop_drop.
  repeat f_equal; lia.
Qed.

Lemma Forall_slice {A} (P : A -> Prop) (l : list A) i j :
  Forall P l -> Forall P (slice l i j).
Proof. intros H. unfold slice. by apply Forall_take, Forall_drop. Qed.

(** ** scripts/create-embeddings.py: word chunking *)

Section Chunking.
Import CreateEmbeddings.

Local Abbreviation stride := (CHUNK_SIZE - CHUNK_OVERLAP).

Lemma stride_value : stride = 180.
Proof. reflexivity. Qed.

Lemma chunk_size_value : CHUNK_SIZE = 220.
Proof. reflexivity. Qed.

(** The loop leaves after at most one iteration per remaining word. *)
Lemma chunk_loop_terminates words : forall fuel i acc,
  length words - i < fuel -> exists res, chunk_loop fuel words i acc = Some res.
Proof.
  induction fuel as [|fuel IH]; intros i acc Hfuel; [lia |].
  cbn [chunk_loop]. destruct (Nat.ltb_spec i (length words)) as [Hlt | Hge].
  - apply IH. rewrite stride_value. lia.
  - eauto.
Qed.

(** More fuel does not change the result. *)
Lemma chunk_loop_fuel_mono words : forall fuel fuel' i acc res,
  chunk_loop fuel words i acc = Some res -> fuel <= fuel' ->
  chunk_loop fuel' words i acc = Some res.
Proof.
  induction fuel as [|fuel IH]; intros fuel' i acc res Hrun Hle; [discriminate |].
  destruct fuel' as [|fuel']; [lia |].
  cbn [chunk_loop] in *. destruct (Nat.ltb i (length words)); [| done].
  apply IH; [done | lia].
Qed.

(** Loop invariant: when the loop is entered the [k0]-th time, [acc] holds
    the first [k0] chunks; the result holds one chunk per multiple of the
    stride below the number of words. *)
Lemma chunk_loop_lookup words : forall fuel k0 acc res,
  length acc = k0 ->
  chunk_loop fuel words (stride * k0) acc = Some res ->
  forall k,
    res !! k =
      if Nat.ltb k k0 then acc !! k
      else if Nat.ltb (stride * k) (length words)
           then Some (join " " (slice words (stride * k) (stride * k + CHUNK_SIZE)))
           else None.
Proof.
  induction fuel as [|fuel IH]; intros k0 acc res Hlen Hrun k; [discriminate |].
  cbn [chunk_loop] in Hrun.
  destruct (Nat.ltb_spec (stride * k0) (length words)) as [Hlt | Hge].
  - rewrite <- Nat.mul_succ_r in Hrun.
    match type of Hrun with chunk_loop _ _ _ ?acc' = _ =>
      assert (length acc' = S k0) as Hlen' by (rewrite length_app; simpl; lia)
    end.
    rewrite (IH _ _ _ Hlen' Hrun k).
    destruct (Nat.ltb_spec k (S k0)) as [Hk | Hk];
      destruct (Nat.ltb_spec k k0) as [Hk' | Hk']; try lia.
    + apply lookup_app_l. lia.
    + assert (k = k0) as -> by lia.
      rewrite lookup_app_r by lia.
      replace (k0 - length acc) with 0 by lia.
      destruct (Nat.ltb_spec (stride * k0) (length words)); [reflexivity | lia].
    + reflexivity.
  - injection Hrun as <-.
    destruct (Nat.ltb_spec k k0) as [Hk | Hk]; [done |].
    rewrite lookup_ge_None_2 by lia.
    assert (stride * k0 <= stride * k) by (apply Nat.mul_le_mono_l; lia).
    destruct (Nat.ltb_spec (stride * k) (length words)); [lia | done].
Qed.

Lemma chunk_text_fuel_lookup fuel text chunks k :
  chunk_text_fuel fuel text = Some chunks ->
  chunks !! k =
    if Nat.ltb (180 * k) (length (split text))
    then Some (join " " (slice (split text) (180 * k) (180 * k + 220)))
    else None.
Proof.
  unfold chunk_text_fuel. intros Hrun.
  change 0 with (stride * 0) in Hrun.
  rewrite (chunk_loop_lookup (split text) fuel 0 [] chunks eq_refl Hrun k).
  destruct (Nat.ltb_spec k 0); [lia | reflexivity].
Qed.

Lemma chunk_text_terminates text :
  exists chunks, chunk_text text = Some chunks /\
    forall fuel, length (split text) < fuel -> chunk_text_fuel fuel text = Some chunks.
Proof.
  destruct (chunk_loop_terminates (split text) (S (length (split text))) 0 [])
    as [chunks Hrun]; [lia |].
  exists chunks. split; [exact Hrun |].
  intros fuel Hfuel. unfold chunk_text_fuel.
  apply (chunk_loop_fuel_mono _ _ _ _ _ _ Hrun). lia.
Qed.

(** The words of the [k]-th chunk are the slice it was joined from. *)
Lemma chunk_words text chunks fuel k c :
  chunk_text_fuel fuel text = Some chunks -> chunks !! k = Some c ->
  180 * k < length (split text) /\
  split c = slice (split text) (180 * k) (180 * k + 220).
Proof.
  intros Hrun Hc. rewrite (chunk_text_fuel_lookup _ _ _ _ Hrun) in Hc.
  destruct (Nat.ltb_spec (180 * k) (length (split text))); [| discriminate].
  injection Hc as <-. split; [done |].
  apply split_join, Forall_slice, split_words.
Qed.

End Chunking.

Section ChunkingClaims.
Import CreateEmbeddings.

(** C8, the overlap as stated: a document of 200 words gives two chunks,
    of 200 and of 20 words, which have 20 word positions in common, so it
    is not true that consecutive chunks always overlap by 40 words. *)
Lemma chunk_overlap_not_always_40 :
  ~ (forall text chunks k c',
       chunk_text text = Some chunks -> chunks !! (k + 1) = Some c' ->
       length (shared_words (split text) k) = 40).
Proof.
  intros H.
  assert (chunk_text (document 200) = Some [document 200; document 20]) as E
    by (vm_compute; reflexivity).
  specialize (H _ _ 0 (document 20) E eq_refl).
  assert (length (shared_words (split (document 200)) 0) = 20) as E'
    by (vm_compute; reflexivity).
  lia.
Qed.

(** C8, as amended: [chunk_text] terminates on every text; the [k]-th
    chunk holds the words at positions [180 * k] up to [180 * k + 220]
    (fewer at the end of the document), so it has between 1 and 220 words
    and successive chunks start 180 words apart; a chunk and its successor
    have in common the last words of the first, which are the first words
    of the second: 40 of them, or all the words of the successor when it
    has fewer than 40; every word of the document is in a chunk. *)
Theorem chunk_text_overlapping_chunks (text : string) :
  exists chunks,
    chunk_text text = Some chunks
    /\ (forall fuel, length (split text) < fuel ->
          chunk_text_fuel fuel text = Some chunks)
    /\ (forall k c, chunks !! k = Some c ->
          split c = slice (split text) (180 * k) (180 * k + 220)
          /\ 1 <= length (split c) <= 220)
    /\ (forall k c c', chunks !! k = Some c -> chunks !! (k + 1) = Some c' ->
          split c = slice (split text) (180 * k) (180 * (k + 1))
                    ++ shared_words (split text) k
          /\ length (slice (split text) (180 * k) (180 * (k + 1))) = 180
          /\ split c' = shared_words (split text) k
                        ++ slice (split text) (180 * k + 220) (180 * (k + 1) + 220)
          /\ length (shared_words (split text) k) = Nat.min 40 (length (split c')))
    /\ (forall j w, split text !! j = Some w ->
          exists k c, chunks !! k = Some c /\ split c !! (j - 180 * k) = Some w).
Proof.
  destruct (chunk_text_terminates text) as (chunks & Hrun & Hfuel).
  exists chunks. split; [exact Hrun |]. split; [exact Hfuel |].
  change (chunk_text text) with
    (chunk_text_fuel (S (length (split text))) text) in Hrun.
  refine (conj _ (conj _ _)).
  - intros k c Hc.
    destruct (chunk_words _ _ _ _ _ Hrun Hc) as [Hk ->].
    split; [done |]. rewrite slice_length. lia.
  - intros k c c' Hc Hc'.
    destruct (chunk_words _ _ _ _ _ Hrun Hc) as [Hk ->].
    destruct (chunk_words _ _ _ _ _ Hrun Hc') as [Hk' ->].
    unfold shared_words. rewrite stride_value, chunk_size_value.
    repeat split.
    + apply slice_app; lia.
    + rewrite slice_length. lia.
    + apply slice_app; lia.
    + rewrite !slice_length. lia.
  - intros j w Hj.
    pose proof (lookup_lt_Some _ _ _ Hj) as Hlt.
    pose proof (Nat.div_mod_eq j 180) as Hdiv.
    pose proof (Nat.mod_upper_bound j 180 ltac:(lia)) as Hmod.
    exists (j / 180), (join " " (slice (split text) (180 * (j / 180)) (180 * (j / 180) + 220))).
    assert (chunks !! (j / 180) =
            Some (join " " (slice (split text) (180 * (j / 180)) (180 * (j / 180) + 220)))) as Hc.
    { rewrite (chunk_text_fuel_lookup _ _ _ _ Hrun).
      destruct (Nat.ltb_spec (180 * (j / 180)) (length (split text))); [done | lia]. }
    split; [exact Hc |].
    destruct (chunk_words _ _ _ _ _ Hrun Hc) as [_ ->].
    rewrite slice_lookup by lia. rewrite <- Hj. f_equal. lia.
Qed.

End ChunkingClaims.

(** ** The request handlers *)

(** C1: a question that is empty or consists of whitespace only is rejected
    by both [/query] handlers with status 400 and detail "Question cannot
    be empty"; the process state, and with it the history of outbound
    calls, is left as it was: no embedding, search or chat call is made. *)
Theorem blank_question_rejected (m : Main.services) (a : App.services)
    (q : string) (sel : option string) (w : world) :
  whitespace_only q = true ->
  let main_req := {| Main.question := q; Main.selected_text := sel |} in
  let app_req := {| App.question := q; App.selected_text := sel |} in
  Main.query_route m main_req w
    = (Main.HTTPException 400 "Question cannot be empty", w)
  /\ App.query_chatbot a app_req w
     = (App.HTTPException 400 "Question cannot be empty", w)
  /\ existsb is_adapter_call (calls_since w (snd (Main.query_route m main_req w))) = false
  /\ existsb is_adapter_call (calls_since w (snd (App.query_chatbot a app_req w))) = false.
Proof.
  intros Hq main_req app_req. apply strip_whitespace_only in Hq.
  assert (Main.query_route m main_req w
          = (Main.HTTPException 400 "Question cannot be empty", w)) as Hmain.
  { unfold Main.query_route. simpl. by rewrite Hq. }
  assert (App.query_chatbot a app_req w
          = (App.HTTPException 400 "Question cannot be empty", w)) as Happ.
  { unfold App.query_chatbot. simpl. rewrite Hq. simpl. by rewrite orb_true_r. }
  rewrite Hmain, Happ. cbn [snd].
  unfold calls_since. by rewrite drop_all.
Qed.

Lemma blank_question_rejected_witness :
  whitespace_only "   " = true
  /\ Main.query_route (Examples.main_services Examples.embed_ok None Examples.chat_ok)
       {| Main.question := "   "; Main.selected_text := Some "x" |} Examples.empty_world
     = (Main.HTTPException 400 "Question cannot be empty", Examples.empty_world)
  /\ App.query_chatbot (Examples.app_services App.EmbedError None App.ChatError)
       {| App.question := "   "; App.selected_text := Some "x" |} Examples.empty_world
     = (App.HTTPException 400 "Question cannot be empty", Examples.empty_world).
Proof.
  split; [reflexivity |].
  destruct (blank_question_rejected
              (Examples.main_services Examples.embed_ok None Examples.chat_ok)
              (Examples.app_services App.EmbedError None App.ChatError)
              "   " (Some "x") Examples.empty_world eq_refl)
    as (Hmain & Happ & _).
  split; [exact Hmain | exact Happ].
Defined.

(** ** Outbound calls of the adapters *)

Lemma calls_since_app w w' evs :
  history w' = history w ++ evs -> calls_since w w' = evs.
Proof. intros H. unfold calls_since. rewrite H. apply drop_app_length. Qed.

Lemma calls_since_refl w : calls_since w w = [].
Proof. apply calls_since_app. by rewrite app_nil_r. Qed.

Lemma whitespace_only_false q : whitespace_only q = false -> is_empty (strip q) = false.
Proof.
  intros H. destruct (is_empty (strip q)) eqn:E; [| done].
  apply is_empty_true, strip_empty_iff in E. congruence.
Qed.

Lemma whitespace_only_false_nonempty q : whitespace_only q = false -> is_empty q = false.
Proof. destruct q; [discriminate | done]. Qed.

Section MainAdapters.
Variable m : Main.services.

Lemma gemini_embed_texts_world texts w :
  snd (Main.gemini_embed_texts m texts w) = log (EmbedCall texts) w.
Proof.
  unfold Main.gemini_embed_texts.
  destruct (Main.post_embed m (history w) texts) as [|status [j|]];
    [done | | ]; by destruct (negb (status =? 200)%Z).
Qed.

Lemma save_cache_world w :
  embedding_cache (Main.save_cache m w) = embedding_cache w
  /\ history (Main.save_cache m w) = history w ++ [FileWrite]
  /\ (cache_file (Main.save_cache m w) = embedding_cache w
      \/ cache_file (Main.save_cache m w) = cache_file w).
Proof.
  unfold Main.save_cache. destruct (Main.file_writable m (history w)); simpl; auto.
Qed.

(** What step 1 of [query_route] does on a cache miss, by the outcome of
    the embedding helper. *)
Lemma query_embedding_miss q w :
  embedding_cache w !! q = None ->
  let r := fst (Main.gemini_embed_texts m [q] w) in
  let w1 := log (EmbedCall [q]) w in
  match r with
  | Raise e => Main.query_embedding m q w = (Raise e, w1)
  | Ret (Some (emb :: _)) =>
      if Main.embed_failed r then Main.query_embedding m q w = (Ret None, w1)
      else Main.query_embedding m q w
           = (Ret (Some emb), Main.save_cache m (cache_store q emb w1))
  | Ret _ => Main.query_embedding m q w = (Ret None, w1)
  end.
Proof.
  intros Hmiss. unfold Main.query_embedding. rewrite Hmiss.
  pose proof (gemini_embed_texts_world [q] w) as Hw.
  destruct (Main.gemini_embed_texts m [q] w) as [r w1]. simpl in *. subst w1.
  destruct r as [[[|emb rest]|]|e]; try done.
  by destruct emb.
Qed.

Lemma query_embedding_hit q w v :
  embedding_cache w !! q = Some v -> Main.query_embedding m q w = (Ret (Some v), w).
Proof. intros H. unfold Main.query_embedding. by rewrite H. Qed.

(** Step 1 makes at most an embedding call and a file write. *)
Lemma query_embedding_calls q w :
  exists evs,
    history (snd (Main.query_embedding m q w)) = history w ++ evs
    /\ (evs = [] \/ evs = [EmbedCall [q]] \/ evs = [EmbedCall [q]; FileWrite]).
Proof.
  destruct (embedding_cache w !! q) as [v|] eqn:Hc.
  - rewrite (query_embedding_hit _ _ _ Hc). exists []. by rewrite app_nil_r; auto.
  - pose proof (query_embedding_miss q w Hc) as H. simpl in H.
    destruct (fst (Main.gemini_embed_texts m [q] w)) as [[[|emb rest]|]|e];
      try (rewrite H; exists [EmbedCall [q]]; by auto).
    destruct (Main.embed_failed _); rewrite H.
    + exists [EmbedCall [q]]. by auto.
    + exists [EmbedCall [q]; FileWrite]. split; [| by auto]. cbn [snd].
      destruct (save_cache_world (cache_store q emb (log (EmbedCall [q]) w)))
        as (_ & -> & _).
      simpl. by rewrite <- app_assoc.
Qed.

Lemma search_qdrant_by_embedding_world emb k w :
  snd (Main.search_qdrant_by_embedding m emb k w) = log (SearchCall emb k) w.
Proof.
  unfold Main.search_qdrant_by_embedding.
  by destruct (Main.qdrant_search m (history w) emb k).
Qed.

Lemma gemini_chat_world sys usr n w :
  snd (Main.gemini_chat m sys usr n w) = log (ChatCall [sys; usr]) w.
Proof.
  unfold Main.gemini_chat.
  destruct (Main.post_chat m (history w) sys usr) as [|status [j|]];
    [done | | ]; by destruct (negb (status =? 200)%Z).
Qed.

End MainAdapters.

Section AppAdapters.
Variable a : App.services.

Lemma get_embedding_hit t w v :
  embedding_cache w !! t = Some v -> App.get_embedding a t w = (v, w).
Proof. intros H. unfold App.get_embedding. by rewrite H. Qed.

(** [get_embedding] on a cache miss, by the outcome of [co.embed]. *)
Lemma get_embedding_miss t w :
  embedding_cache w !! t = None ->
  let w1 := log (EmbedCall [t]) w in
  match App.co_embed a (history w) t with
  | App.EmbedResponse (v :: _) =>
      let w2 := log FileWrite (cache_store t v w1) in
      App.get_embedding a t w =
        if App.file_writable a (history w1) then (v, file_overwrite w2)
        else (VList [], w2)
  | _ => App.get_embedding a t w = (VList [], w1)
  end.
Proof.
  intros Hmiss. unfold App.get_embedding. rewrite Hmiss. simpl.
  destruct (App.co_embed a (history w) t) as [| |[|v rest]]; try done.
  unfold App.save_embedding_cache. simpl.
  by destruct (App.file_writable a (history w ++ [EmbedCall [t]])).
Qed.

Lemma get_embedding_calls t w :
  exists evs,
    history (snd (App.get_embedding a t w)) = history w ++ evs
    /\ (evs = [] \/ evs = [EmbedCall [t]] \/ evs = [EmbedCall [t]; FileWrite]).
Proof.
  destruct (embedding_cache w !! t) as [v|] eqn:Hc.
  - rewrite (get_embedding_hit _ _ _ Hc). exists []. by rewrite app_nil_r; auto.
  - pose proof (get_embedding_miss t w Hc) as H. simpl in H.
    destruct (App.co_embed a (history w) t) as [| |[|v rest]];
      try (rewrite H; exists [EmbedCall [t]]; by auto).
    rewrite H. exists [EmbedCall [t]; FileWrite]. split; [| by auto].
    destruct (App.file_writable a _); simpl; by rewrite <- app_assoc.
Qed.

(** [search_qdrant] makes no chat call. *)
Lemma search_qdrant_calls q k w :
  exists evs,
    history (snd (App.search_qdrant a q k w)) = history w ++ evs
    /\ existsb is_chat evs = false.
Proof.
  unfold App.search_qdrant.
  destruct (get_embedding_calls q w) as (evs & Hh & Hevs).
  destruct (App.get_embedding a q w) as [embedding w1]. simpl in Hh.
  destruct (negb (truthy embedding)).
  - exists evs. split; [done |]. by destruct Hevs as [-> | [-> | ->]].
  - exists (evs ++ [SearchCall embedding k]). split.
    + destruct (App.qdrant_search a (history w1) embedding k); simpl;
        by rewrite Hh, <- app_assoc.
    + by destruct Hevs as [-> | [-> | ->]].
Qed.

Lemma generate_answer_some c cs question w :
  App.generate_answer a (c :: cs) question w
  = (fst (App.generate_answer a (c :: cs) question w),
     log (ChatCall [App.prompt a (c :: cs) question]) w).
Proof.
  unfold App.generate_answer.
  by destruct (App.co_chat a (history w) (App.prompt a (c :: cs) question)).
Qed.

End AppAdapters.

Lemma selection_nonblank s0 :
  whitespace_only s0 = false -> selection (Some s0) = Some (strip s0).
Proof.
  intros H. unfold selection.
  by rewrite (whitespace_only_false _ H), (whitespace_only_false_nonempty _ H).
Qed.

Lemma selection_blank sel :
  sel = None \/ (exists s0, sel = Some s0 /\ whitespace_only s0 = true) ->
  selection sel = None.
Proof.
  intros [-> | (s0 & -> & H)]; [done |]. unfold selection.
  apply strip_whitespace_only in H. rewrite H. simpl. by rewrite orb_true_r.
Qed.

(** ** No passages found *)

(** C2, as stated, fails on [app.py]: the search returns no chunk, a
    selected text is given, and the chat model is called all the same; the
    answer is the model's text. *)
Lemma empty_search_still_calls_chat :
  let a := Examples.app_services (App.EmbedResponse [Examples.vector]) (Some [])
             (App.ChatResponse "from the model") in
  let req := {| App.question := "q"; App.selected_text := Some "x" |} in
  fst (App.search_qdrant a "q" 5 Examples.empty_world) = []
  /\ fst (App.query_chatbot a req Examples.empty_world)
     = App.Ok {| App.answer := "from the model"; App.sources := [] |}
  /\ existsb is_chat (history (snd (App.query_chatbot a req Examples.empty_world))) = true.
Proof. vm_compute. auto. Qed.

(** C2, as amended: when the vector search returns no chunk, [main.py]
    answers "No relevant passages found in the textbook." with no source
    and calls no chat model; [app.py] calls no chat model and answers with
    its fixed message and no source when no selected text is given (or a
    blank one), and when a selected text is given it calls the chat model
    with that text as the only passage and returns no source. *)
Theorem empty_search_answer (m : Main.services) (a : App.services)
    (q : string) (sel : option string) (w : world) :
  whitespace_only q = false ->
  (forall emb w1,
      Main.query_embedding m (strip q) w = (Ret (Some emb), w1) ->
      fst (Main.search_qdrant_by_embedding m emb 5 w1) = [] ->
      Main.query_route m {| Main.question := q; Main.selected_text := sel |} w
        = (Main.Ok Main.no_passages, log (SearchCall emb 5) w1)
      /\ existsb is_chat (calls_since w (log (SearchCall emb 5) w1)) = false)
  /\ (fst (App.search_qdrant a (strip q) 5 w) = [] ->
      let w1 := snd (App.search_qdrant a (strip q) 5 w) in
      let req := {| App.question := q; App.selected_text := sel |} in
      existsb is_chat (calls_since w w1) = false
      /\ (sel = None \/ (exists s0, sel = Some s0 /\ whitespace_only s0 = true) ->
          App.query_chatbot a req w
          = (App.Ok {| App.answer := App.no_context_answer; App.sources := [] |}, w1))
      /\ (forall s0, sel = Some s0 -> whitespace_only s0 = false ->
          App.query_chatbot a req w
          = (App.Ok {| App.answer :=
                         fst (App.generate_answer a [VStr (strip s0)] (strip q) w1);
                       App.sources := [] |},
             log (ChatCall [App.prompt a [VStr (strip s0)] (strip q)]) w1))).
Proof.
  intros Hq. pose proof (whitespace_only_false _ Hq) as Hq'.
  pose proof (whitespace_only_false_nonempty _ Hq) as Hq''. split.
  - intros emb w1 He Hs. split.
    + unfold Main.query_route. cbn [Main.question Main.selected_text].
      rewrite Hq', He.
      pose proof (search_qdrant_by_embedding_world m emb 5 w1) as Hw.
      destruct (Main.search_qdrant_by_embedding m emb 5 w1) as [results w2].
      simpl in Hs, Hw. by subst.
    + destruct (query_embedding_calls m (strip q) w) as (evs & Hh & Hevs).
      rewrite He in Hh. simpl in Hh.
      rewrite (calls_since_app w _ (evs ++ [SearchCall emb 5])).
      * by destruct Hevs as [-> | [-> | ->]].
      * simpl. by rewrite Hh, <- app_assoc.
  - intros Hs w1 req. subst w1 req.
    destruct (search_qdrant_calls a (strip q) 5 w) as (evs & Hh & Hevs).
    unfold App.query_chatbot. cbn [App.question App.selected_text].
    rewrite Hq', Hq''. cbn [orb].
    destruct (App.search_qdrant a (strip q) 5 w) as [results w1].
    simpl in Hs, Hh. subst results. cbn [snd map]. repeat split.
    + by rewrite (calls_since_app _ _ _ Hh).
    + intros Hsel. unfold App.boosted. by rewrite (selection_blank _ Hsel).
    + intros s0 -> Hs0. unfold App.boosted. rewrite (selection_nonblank _ Hs0).
      by rewrite generate_answer_some.
Qed.

Lemma empty_search_answer_witness :
  let m := Examples.main_services Examples.embed_ok (Some []) Examples.chat_ok in
  let a := Examples.app_services (App.EmbedResponse [Examples.vector]) (Some [])
             (App.ChatResponse "from the model") in
  let w1 := snd (Main.query_embedding m "q" Examples.empty_world) in
  whitespace_only "q" = false
  /\ Main.query_route m {| Main.question := "q"; Main.selected_text := Some "x" |}
       Examples.empty_world
     = (Main.Ok Main.no_passages, log (SearchCall Examples.vector 5) w1)
  /\ App.query_chatbot a {| App.question := "q"; App.selected_text := None |}
       Examples.empty_world
     = (App.Ok {| App.answer := App.no_context_answer; App.sources := [] |},
        snd (App.search_qdrant a "q" 5 Examples.empty_world)).
Proof.
  intros m a w1. split; [reflexivity |]. split.
  - destruct (empty_search_answer m a "q" (Some "x") Examples.empty_world eq_refl)
      as [Hmain _].
    apply (Hmain Examples.vector w1); vm_compute; reflexivity.
  - destruct (empty_search_answer m a "q" None Examples.empty_world eq_refl)
      as [_ Happ].
    destruct (Happ ltac:(vm_compute; reflexivity)) as (_ & Hnone & _).
    apply Hnone. by left.
Defined.

(** ** The selected text as first passage *)

Lemma join_head sep x xs : exists rest, join sep (x :: xs) = x +:+ rest.
Proof.
  destruct xs as [|y ys]; simpl.
  - exists "". by rewrite append_empty_r.
  - by eexists.
Qed.

(** The context block opens with the first passage. *)
Lemma context_str_head (m : Main.services) (a : App.services) s cs :
  (exists rest, Main.context_str m (VStr s :: cs) = "Passage 1:" +:+ nl +:+ s +:+ rest)
  /\ (exists rest, App.context_str a (VStr s :: cs) = "Passage 1:" +:+ nl +:+ s +:+ rest).
Proof.
  split.
  - unfold Main.context_str. cbn [imap].
    match goal with |- context [join ?sep (?x :: ?xs)] =>
      destruct (join_head sep x xs) as [rest ->] end.
    exists rest. cbn [Main.format]. change (str_of_nat (0 + 1)) with "1".
    by rewrite !append_assoc.
  - unfold App.context_str. cbn [imap].
    match goal with |- context [join ?sep (?x :: ?xs)] =>
      destruct (join_head sep x xs) as [rest ->] end.
    exists rest. cbn [App.format]. change (str_of_nat (0 + 1)) with "1".
    by rewrite !append_assoc.
Qed.

(** C3, as stated, fails on [main.py]: with a selected text and a search
    that returns no chunk the handler answers at once; no passage, and so
    no selected text, reaches the chat model. *)
Lemma selected_text_dropped_without_chunks :
  let m := Examples.main_services Examples.embed_ok (Some []) Examples.chat_ok in
  let req := {| Main.question := "q"; Main.selected_text := Some "x" |} in
  selection (Main.selected_text req) = Some "x"
  /\ fst (Main.query_route m req Examples.empty_world) = Main.Ok Main.no_passages
  /\ existsb is_chat (history (snd (Main.query_route m req Examples.empty_world))) = false.
Proof. vm_compute. auto. Qed.

(** C3, as amended: when a selected text is given that is not blank,
    [app.py] calls the chat model, whatever the number of chunks found
    (zero included), with a prompt whose passages are the trimmed selected
    text followed by the chunk texts in search order; [main.py] does the
    same whenever the search returns at least one chunk.  In both the
    context block of the prompt opens with "Passage 1:" and the trimmed
    selected text. *)
Theorem selected_text_first_passage (m : Main.services) (a : App.services)
    (q s0 : string) (w : world) :
  whitespace_only q = false ->
  whitespace_only s0 = false ->
  (let results := fst (App.search_qdrant a (strip q) 5 w) in
   let w1 := snd (App.search_qdrant a (strip q) 5 w) in
   snd (App.query_chatbot a {| App.question := q; App.selected_text := Some s0 |} w)
   = log (ChatCall [App.prompt a (VStr (strip s0) :: map text results) (strip q)]) w1)
  /\ (forall emb w1,
        Main.query_embedding m (strip q) w = (Ret (Some emb), w1) ->
        let results := fst (Main.search_qdrant_by_embedding m emb 5 w1) in
        results <> [] ->
        snd (Main.query_route m {| Main.question := q; Main.selected_text := Some s0 |} w)
        = log (ChatCall [Main.system_prompt;
                         Main.user_prompt m (VStr (strip s0) :: map text results) (strip q)])
              (log (SearchCall emb 5) w1))
  /\ (forall cs,
        (exists rest, Main.context_str m (VStr (strip s0) :: cs)
                      = "Passage 1:" +:+ nl +:+ strip s0 +:+ rest)
        /\ (exists rest, App.context_str a (VStr (strip s0) :: cs)
                         = "Passage 1:" +:+ nl +:+ strip s0 +:+ rest)).
Proof.
  intros Hq Hs0. pose proof (whitespace_only_false _ Hq) as Hq'.
  pose proof (whitespace_only_false_nonempty _ Hq) as Hq''.
  split; [| split].
  - intros results w1. subst results w1.
    unfold App.query_chatbot. cbn [App.question App.selected_text].
    rewrite Hq', Hq''. cbn [orb].
    destruct (App.search_qdrant a (strip q) 5 w) as [results w1]. cbn [fst snd].
    unfold App.boosted. rewrite (selection_nonblank _ Hs0).
    rewrite generate_answer_some.
    by destruct (App.make_sources a results).
  - intros emb w1 He results Hne. subst results.
    unfold Main.query_route. cbn [Main.question Main.selected_text].
    rewrite Hq', He.
    pose proof (search_qdrant_by_embedding_world m emb 5 w1) as Hw.
    destruct (Main.search_qdrant_by_embedding m emb 5 w1) as [results w2].
    cbn [fst snd] in *. subst w2.
    destruct results as [|r results]; [done |].
    unfold Main.boosted. rewrite (selection_nonblank _ Hs0).
    match goal with |- context [Main.gemini_chat m ?sys ?usr ?n ?w2] =>
      pose proof (gemini_chat_world m sys usr n w2) as Hc;
      destruct (Main.gemini_chat m sys usr n w2) as [ans w3]
    end.
    cbn [snd] in Hc. subst w3.
    destruct ans as [[ans|]|e]; try done.
    destruct (is_empty ans); [done |].
    by destruct (Main.make_sources m (r :: results)).
  - intros cs. apply context_str_head.
Qed.

Lemma selected_text_first_passage_witness :
  let m := Examples.main_services Examples.embed_ok
             (Some [Examples.point "Intro" 0]) Examples.chat_ok in
  let a := Examples.app_services (App.EmbedResponse [Examples.vector]) (Some [])
             (App.ChatResponse "from the model") in
  (whitespace_only "q" = false /\ whitespace_only " x " = false)
  /\ snd (App.query_chatbot a {| App.question := "q"; App.selected_text := Some " x " |}
            Examples.empty_world)
     = log (ChatCall [App.prompt a [VStr "x"] "q"])
           (snd (App.search_qdrant a "q" 5 Examples.empty_world))
  /\ snd (Main.query_route m {| Main.question := "q"; Main.selected_text := Some " x " |}
            Examples.empty_world)
     = log (ChatCall [Main.system_prompt;
                      Main.user_prompt m [VStr "x"; VStr "a passage"] "q"])
           (log (SearchCall Examples.vector 5)
                (snd (Main.query_embedding m "q" Examples.empty_world))).
Proof.
  intros m a. split; [split; reflexivity |].
  destruct (selected_text_first_passage m a "q" " x " Examples.empty_world
              eq_refl eq_refl) as (Happ & Hmain & _).
  split.
  - exact Happ.
  - apply (Hmain Examples.vector (snd (Main.query_embedding m "q" Examples.empty_world))).
    + vm_compute; reflexivity.
    + discriminate.
Defined.

(** ** Embedding failures *)

(** [app.py] when the search yields nothing. *)
Lemma query_chatbot_no_chunks (a : App.services) q sel w w1 :
  whitespace_only q = false ->
  App.search_qdrant a (strip q) 5 w = ([], w1) ->
  let req := {| App.question := q; App.selected_text := sel |} in
  (sel = None \/ (exists s0, sel = Some s0 /\ whitespace_only s0 = true) ->
   App.query_chatbot a req w
   = (App.Ok {| App.answer := App.no_context_answer; App.sources := [] |}, w1))
  /\ (forall s0, sel = Some s0 -> whitespace_only s0 = false ->
      App.query_chatbot a req w
      = (App.Ok {| App.answer :=
                     fst (App.generate_answer a [VStr (strip s0)] (strip q) w1);
                   App.sources := [] |},
         log (ChatCall [App.prompt a [VStr (strip s0)] (strip q)]) w1)).
Proof.
  intros Hq Hs req. subst req.
  unfold App.query_chatbot. cbn [App.question App.selected_text].
  rewrite (whitespace_only_false _ Hq), (whitespace_only_false_nonempty _ Hq), Hs.
  cbn [orb map]. split.
  - intros Hsel. unfold App.boosted. by rewrite (selection_blank _ Hsel).
  - intros s0 -> Hs0. unfold App.boosted. rewrite (selection_nonblank _ Hs0).
    by rewrite generate_answer_some.
Qed.

(** A transport error or a status other than 200 makes
    [gemini_embed_texts] return [None]. *)
Lemma gemini_embed_texts_unavailable (m : Main.services) texts w :
  Main.post_embed m (history w) texts = ConnectionError
  \/ (exists status body, Main.post_embed m (history w) texts = Response status body
                          /\ status <> 200%Z) ->
  fst (Main.gemini_embed_texts m texts w) = Ret None.
Proof.
  unfold Main.gemini_embed_texts. intros [-> | (status & body & -> & Hst)]; [done |].
  apply Z.eqb_neq in Hst. by rewrite Hst.
Qed.

(** C5, as stated, fails on [app.py]: the embedding call is rate limited
    and a selected text is given; the answer is the chat model's text and
    not a fixed message, and the response body has no [meta] entry. *)
Lemma rate_limited_embedding_without_flag :
  let a := Examples.app_services App.EmbedTooManyRequests
             (Some [Examples.point "Intro" 0]) (App.ChatResponse "from the model") in
  let req := {| App.question := "q"; App.selected_text := Some "x" |} in
  let body := {| App.answer := "from the model"; App.sources := [] |} in
  fst (App.query_chatbot a req Examples.empty_world) = App.Ok body
  /\ App.answer body <> App.no_context_answer
  /\ lookup_key "meta" (App.response_json body) = None.
Proof. vm_compute. repeat split; discriminate. Qed.

(** C5, as amended: let the question's embedding be absent from the cache.
    In [main.py], when the embedding helper reports a failure (which it
    does on a transport error and on any status other than 200, rate
    limiting included) the response has status 200, the answer "Embedding
    failed or service unavailable. Please try again later.", no source and
    the metadata [rate_limited: true].  In [app.py], when [co.embed] raises
    (rate limiting included) or returns no embedding, the response has
    status 200, no source and no metadata (the response model has no such
    field); its answer is the fixed no-context message when no selected
    text is given (or a blank one), and with a selected text the chat model
    is called with that text as the only passage. *)
Theorem embedding_failure_response (m : Main.services) (a : App.services)
    (q : string) (sel : option string) (w : world) :
  whitespace_only q = false ->
  embedding_cache w !! strip q = None ->
  (Main.embed_failed (fst (Main.gemini_embed_texts m [strip q] w)) = true ->
     let r := Main.query_route m {| Main.question := q; Main.selected_text := sel |} w in
     r = (Main.Ok Main.embedding_failed, log (EmbedCall [strip q]) w)
     /\ Main.status_of (fst r) = 200%Z
     /\ Main.answer Main.embedding_failed
        = "Embedding failed or service unavailable. Please try again later."
     /\ Main.sources Main.embedding_failed = []
     /\ lookup_key "meta" (Main.response_json Main.embedding_failed)
        = Some (VDict [("rate_limited", VBool true)]))
  /\ (Main.post_embed m (history w) [strip q] = ConnectionError
      \/ (exists status body,
             Main.post_embed m (history w) [strip q] = Response status body
             /\ status <> 200%Z) ->
      Main.embed_failed (fst (Main.gemini_embed_texts m [strip q] w)) = true)
  /\ (App.co_embed a (history w) (strip q) = App.EmbedTooManyRequests
      \/ App.co_embed a (history w) (strip q) = App.EmbedError
      \/ App.co_embed a (history w) (strip q) = App.EmbedResponse [] ->
      let req := {| App.question := q; App.selected_text := sel |} in
      let w1 := log (EmbedCall [strip q]) w in
      App.status_of (fst (App.query_chatbot a req w)) = 200%Z
      /\ (forall body, fst (App.query_chatbot a req w) = App.Ok body ->
            App.sources body = [] /\ lookup_key "meta" (App.response_json body) = None)
      /\ (sel = None \/ (exists s0, sel = Some s0 /\ whitespace_only s0 = true) ->
          App.query_chatbot a req w
          = (App.Ok {| App.answer := App.no_context_answer; App.sources := [] |}, w1))
      /\ (forall s0, sel = Some s0 -> whitespace_only s0 = false ->
          App.query_chatbot a req w
          = (App.Ok {| App.answer :=
                         fst (App.generate_answer a [VStr (strip s0)] (strip q) w1);
                       App.sources := [] |},
             log (ChatCall [App.prompt a [VStr (strip s0)] (strip q)]) w1))).
Proof.
  intros Hq Hmiss. split; [| split].
  - intros Hfail r. subst r.
    assert (Main.query_embedding m (strip q) w = (Ret None, log (EmbedCall [strip q]) w))
      as He.
    { pose proof (query_embedding_miss m (strip q) w Hmiss) as H. simpl in H.
      destruct (fst (Main.gemini_embed_texts m [strip q] w)) as [[[|emb rest]|]|e];
        try done.
      by rewrite Hfail in H. }
    unfold Main.query_route. cbn [Main.question].
    rewrite (whitespace_only_false _ Hq), He. by repeat split.
  - intros H. by rewrite (gemini_embed_texts_unavailable _ _ _ H).
  - intros Hreply req w1.
    assert (App.search_qdrant a (strip q) 5 w = ([], w1)) as Hs.
    { unfold App.search_qdrant.
      pose proof (get_embedding_miss a (strip q) w Hmiss) as H. simpl in H.
      destruct Hreply as [Hr | [Hr | Hr]]; rewrite Hr in H; by rewrite H. }
    destruct (query_chatbot_no_chunks a q sel w w1 Hq Hs) as [Hblank Hsel].
    assert (exists ans w2, App.query_chatbot a req w
                           = (App.Ok {| App.answer := ans; App.sources := [] |}, w2))
      as (ans & w2 & Hok).
    { destruct sel as [s0|].
      - destruct (whitespace_only s0) eqn:Hs0.
        + do 2 eexists. apply Hblank. right. by exists s0.
        + do 2 eexists. by apply Hsel.
      - do 2 eexists. apply Hblank. by left. }
    split; [by rewrite Hok |]. split; [| by split].
    intros body Hbody. rewrite Hok in Hbody. simpl in Hbody.
    injection Hbody as <-. by split.
Qed.

Lemma embedding_failure_response_witness :
  let m := Examples.main_services Examples.rate_limited
             (Some [Examples.point "Intro" 0]) Examples.chat_ok in
  let a := Examples.app_services App.EmbedTooManyRequests
             (Some [Examples.point "Intro" 0]) (App.ChatResponse "from the model") in
  (whitespace_only "q" = false
   /\ embedding_cache Examples.empty_world !! strip "q" = None)
  /\ Main.query_route m {| Main.question := "q"; Main.selected_text := None |}
       Examples.empty_world
     = (Main.Ok Main.embedding_failed, log (EmbedCall ["q"]) Examples.empty_world)
  /\ App.query_chatbot a {| App.question := "q"; App.selected_text := None |}
       Examples.empty_world
     = (App.Ok {| App.answer := App.no_context_answer; App.sources := [] |},
        log (EmbedCall ["q"]) Examples.empty_world).
Proof.
  intros m a. split; [split; reflexivity |].
  destruct (embedding_failure_response m a "q" None Examples.empty_world
              eq_refl eq_refl) as (Hmain & Hreply & Happ).
  split.
  - apply Hmain. apply Hreply. right. exists 429%Z, None. split; [reflexivity | discriminate].
  - destruct (Happ ltac:(left; reflexivity)) as (_ & _ & Hblank & _).
    apply Hblank. left. reflexivity.
Defined.

(** ** Search results with missing payload fields *)

(** C7, as stated, fails: for a record without payload the chapter is
    "Unknown" in [app.py] and [None] in [main.py], not the empty string,
    and the chunk index is [None] in [main.py], not zero. *)
Lemma missing_fields_not_empty_or_zero :
  lookup_key "chapter" (payload_or_empty Examples.bare_point) = None
  /\ lookup_key "chunk_index" (payload_or_empty Examples.bare_point) = None
  /\ chapter (App.chunk_of_point Examples.bare_point) = VStr "Unknown"
  /\ chapter (Main.chunk_of_point Examples.bare_point) = VNone
  /\ chunk_index (Main.chunk_of_point Examples.bare_point) = VNone
  /\ chapter (App.chunk_of_point Examples.bare_point) <> VStr ""
  /\ chapter (Main.chunk_of_point Examples.bare_point) <> VStr ""
  /\ chunk_index (Main.chunk_of_point Examples.bare_point) <> VInt 0.
Proof. repeat split; (reflexivity || discriminate). Qed.

(** C7, as amended: a search result whose payload lacks fields, or that has
    no payload, makes neither adapter fail: each returns one chunk record
    per result.  A missing text defaults to the empty string in both
    variants; a missing chapter defaults to "Unknown" in [app.py] and to
    [None] in [main.py]; a missing chunk index defaults to 0 in [app.py]
    and to [None] in [main.py]. *)
Theorem missing_payload_fields_default (m : Main.services) (a : App.services)
    (r : scored_point) :
  (payload r = None -> payload_or_empty r = [])
  /\ (lookup_key "text" (payload_or_empty r) = None ->
      text (Main.chunk_of_point r) = VStr "" /\ text (App.chunk_of_point r) = VStr "")
  /\ (lookup_key "chapter" (payload_or_empty r) = None ->
      chapter (Main.chunk_of_point r) = VNone
      /\ chapter (App.chunk_of_point r) = VStr "Unknown")
  /\ (lookup_key "chunk_index" (payload_or_empty r) = None ->
      chunk_index (Main.chunk_of_point r) = VNone
      /\ chunk_index (App.chunk_of_point r) = VInt 0)
  /\ (forall results emb k w,
        Main.qdrant_search m (history w) emb k = Some results ->
        fst (Main.search_qdrant_by_embedding m emb k w)
        = map Main.chunk_of_point results)
  /\ (forall results q k w,
        truthy (fst (App.get_embedding a q w)) = true ->
        App.qdrant_search a (history (snd (App.get_embedding a q w)))
          (fst (App.get_embedding a q w)) k = Some results ->
        fst (App.search_qdrant a q k w) = map App.chunk_of_point results).
Proof.
  repeat split.
  - intros H. unfold payload_or_empty. by rewrite H.
  - unfold Main.chunk_of_point, dict_get. simpl. by rewrite H.
  - unfold App.chunk_of_point, dict_get. simpl. by rewrite H.
  - unfold Main.chunk_of_point, dict_get. simpl. by rewrite H.
  - unfold App.chunk_of_point, dict_get. simpl. by rewrite H.
  - unfold Main.chunk_of_point, dict_get. simpl. by rewrite H.
  - unfold App.chunk_of_point, dict_get. simpl. by rewrite H.
  - intros results emb k w H. unfold Main.search_qdrant_by_embedding. by rewrite H.
  - intros results q k w Ht H. unfold App.search_qdrant.
    destruct (App.get_embedding a q w) as [e w1]. simpl in *.
    by rewrite Ht, H.
Qed.

(** ** The embedding cache *)

Lemma cache_kept_refl w : cache_kept w w.
Proof. by intros t v. Qed.

Lemma cache_kept_trans w1 w2 w3 :
  cache_kept w1 w2 -> cache_kept w2 w3 -> cache_kept w1 w3.
Proof. intros H12 H23 t v H. by apply H23, H12. Qed.

Lemma cache_kept_same w w' :
  embedding_cache w' = embedding_cache w -> cache_kept w w'.
Proof. intros H t v. by rewrite H. Qed.

(** Storing under a key that is absent keeps every entry. *)
Lemma cache_kept_store k x w :
  embedding_cache w !! k = None -> cache_kept w (cache_store k x w).
Proof.
  intros Hk t v Ht. simpl. rewrite lookup_insert_ne; [done |]. congruence.
Qed.

Section CacheMain.
Variable m : Main.services.

Lemma query_embedding_kept q w : cache_kept w (snd (Main.query_embedding m q w)).
Proof.
  destruct (embedding_cache w !! q) as [v|] eqn:Hc.
  - rewrite (query_embedding_hit _ _ _ _ Hc). apply cache_kept_refl.
  - pose proof (query_embedding_miss m q w Hc) as H. simpl in H.
    destruct (fst (Main.gemini_embed_texts m [q] w)) as [[[|emb rest]|]|e];
      try (rewrite H; by apply cache_kept_same).
    destruct (Main.embed_failed _); rewrite H; [by apply cache_kept_same |].
    cbn [snd].
    apply (cache_kept_trans _ (cache_store q emb (log (EmbedCall [q]) w))).
    + apply (cache_kept_trans _ (log (EmbedCall [q]) w)); [by apply cache_kept_same |].
      by apply cache_kept_store.
    + apply cache_kept_same. apply save_cache_world.
Qed.

(** After step 1 the handler only makes search and chat calls and leaves
    the cache alone. *)
Lemma query_route_after_embedding req w :
  is_empty (strip (Main.question req)) = false ->
  let w1 := snd (Main.query_embedding m (strip (Main.question req)) w) in
  let w' := snd (Main.query_route m req w) in
  embedding_cache w' = embedding_cache w1
  /\ cache_file w' = cache_file w1
  /\ exists evs, history w' = history w1 ++ evs /\ existsb is_embed evs = false.
Proof.
  intros Hq. unfold Main.query_route. rewrite Hq.
  destruct (Main.query_embedding m (strip (Main.question req)) w) as [[[emb|]|e] w1];
    cbn [snd]; try (repeat split; exists []; by rewrite app_nil_r).
  pose proof (search_qdrant_by_embedding_world m emb 5 w1) as Hw.
  destruct (Main.search_qdrant_by_embedding m emb 5 w1) as [results w2].
  cbn [snd] in Hw. subst w2.
  destruct results as [|r results];
    [cbn [snd]; repeat split; by exists [SearchCall emb 5] |].
  match goal with |- context [Main.gemini_chat m ?sys ?usr ?n ?w2] =>
    pose proof (gemini_chat_world m sys usr n w2) as Hc;
    destruct (Main.gemini_chat m sys usr n w2) as [ans w3]
  end.
  cbn [snd] in Hc. subst w3.
  assert (forall (x : Main.http_response), let w' := snd (x, log (ChatCall [Main.system_prompt;
       Main.user_prompt m (Main.boosted (Main.selected_text req) (map text (r :: results)))
         (strip (Main.question req))]) (log (SearchCall emb 5) w1)) in
     embedding_cache w' = embedding_cache w1 /\ cache_file w' = cache_file w1
     /\ exists evs, history w' = history w1 ++ evs /\ existsb is_embed evs = false) as Hend.
  { intros x. cbn [snd]. repeat split.
    eexists [SearchCall emb 5; ChatCall _]. split; [| done].
    simpl. by rewrite <- app_assoc. }
  destruct ans as [[ans|]|e]; try apply Hend.
  destruct (is_empty ans); [apply Hend |].
  destruct (Main.make_sources m (r :: results)); apply Hend.
Qed.

Lemma query_route_kept req w : cache_kept w (snd (Main.query_route m req w)).
Proof.
  destruct (is_empty (strip (Main.question req))) eqn:Hq.
  - unfold Main.query_route. rewrite Hq. apply cache_kept_refl.
  - destruct (query_route_after_embedding req w Hq) as (Hc & _).
    eapply cache_kept_trans; [apply query_embedding_kept |].
    by apply cache_kept_same.
Qed.

Lemma serve_kept reqs : forall w, cache_kept w (Main.serve m reqs w).
Proof.
  induction reqs as [|req reqs IH]; intros w; [apply cache_kept_refl |].
  simpl. eapply cache_kept_trans; [apply query_route_kept | apply IH].
Qed.

End CacheMain.

Section CacheApp.
Variable a : App.services.

Lemma get_embedding_kept t w : cache_kept w (snd (App.get_embedding a t w)).
Proof.
  destruct (embedding_cache w !! t) as [v|] eqn:Hc.
  - rewrite (get_embedding_hit _ _ _ _ Hc). apply cache_kept_refl.
  - pose proof (get_embedding_miss a t w Hc) as H. simpl in H.
    destruct (App.co_embed a (history w) t) as [| |[|v rest]];
      try (rewrite H; by apply cache_kept_same).
    rewrite H.
    apply (cache_kept_trans _ (cache_store t v (log (EmbedCall [t]) w))).
    + apply (cache_kept_trans _ (log (EmbedCall [t]) w)); [by apply cache_kept_same |].
      by apply cache_kept_store.
    + by destruct (App.file_writable a _); apply cache_kept_same.
Qed.

(** After [get_embedding] the handler only makes search and chat calls and
    leaves the cache alone. *)
Lemma query_chatbot_after_embedding req w :
  is_empty (App.question req) || is_empty (strip (App.question req)) = false ->
  let w1 := snd (App.get_embedding a (strip (App.question req)) w) in
  let w' := snd (App.query_chatbot a req w) in
  embedding_cache w' = embedding_cache w1
  /\ cache_file w' = cache_file w1
  /\ exists evs, history w' = history w1 ++ evs /\ existsb is_embed evs = false.
Proof.
  intros Hq. unfold App.query_chatbot. rewrite Hq. unfold App.search_qdrant.
  destruct (App.get_embedding a (strip (App.question req)) w) as [e w1]. cbn [snd].
  set (contexts := fun results => App.boosted (App.selected_text req) (map text results)).
  assert (forall results w2 evs,
            embedding_cache w2 = embedding_cache w1 -> cache_file w2 = cache_file w1 ->
            history w2 = history w1 ++ evs -> existsb is_embed evs = false ->
            let w' := snd (let (answer, w3) :=
                             App.generate_answer a (contexts results)
                               (strip (App.question req)) w2 in
                           match App.make_sources a results with
                           | Ret sources =>
                               (App.Ok {| App.answer := answer;
                                          App.sources := take 5 sources |}, w3)
                           | Raise e => (App.InternalServerError e, w3)
                           end) in
            embedding_cache w' = embedding_cache w1 /\ cache_file w' = cache_file w1
            /\ exists evs, history w' = history w1 ++ evs /\ existsb is_embed evs = false)
    as Hend.
  { intros results w2 evs Hc Hf Hh Hevs.
    destruct (contexts results) as [|c cs] eqn:Hctx.
    - simpl. destruct (App.make_sources a results); simpl; eauto.
    - rewrite generate_answer_some.
      destruct (App.make_sources a results); simpl;
        (repeat split; [done | done |]);
        exists (evs ++ [ChatCall [App.prompt a (c :: cs) (strip (App.question req))]]);
        (split; [by rewrite Hh, <- app_assoc |]);
        by rewrite existsb_app, Hevs. }
  destruct (negb (truthy e)).
  - apply (Hend [] w1 []); by rewrite ?app_nil_r.
  - destruct (App.qdrant_search a (history w1) e 5) as [results|].
    + by apply (Hend _ (log (SearchCall e 5) w1) [SearchCall e 5]).
    + by apply (Hend [] (log (SearchCall e 5) w1) [SearchCall e 5]).
Qed.

Lemma query_chatbot_kept req w : cache_kept w (snd (App.query_chatbot a req w)).
Proof.
  destruct (is_empty (App.question req) || is_empty (strip (App.question req))) eqn:Hq.
  - unfold App.query_chatbot. rewrite Hq. apply cache_kept_refl.
  - destruct (query_chatbot_after_embedding req w Hq) as (Hc & _).
    eapply cache_kept_trans; [apply get_embedding_kept |].
    by apply cache_kept_same.
Qed.

Lemma app_serve_kept reqs : forall w, cache_kept w (App.serve a reqs w).
Proof.
  induction reqs as [|req reqs IH]; intros w; [apply cache_kept_refl |].
  simpl. eapply cache_kept_trans; [apply query_chatbot_kept | apply IH].
Qed.

End CacheApp.

(** C4: for a non-empty text [t], once the provider has been called for [t]
    and its vector [v] stored, looking [t] up again gives the same [v] and
    leaves the process state as it is, so no second provider call is made;
    this holds for [get_embedding] of [app.py] and for the cache-first step
    of [query_route] in [main.py], and a whole request for [t] makes no
    embedding call.  Nothing invalidates the entry: after any sequence of
    requests [t] still maps to [v]. *)
Theorem cached_embedding_reused (m : Main.services) (a : App.services)
    (t : string) (v : pyval) :
  t <> "" ->
  (forall w rest,
      embedding_cache w !! t = None ->
      App.co_embed a (history w) t = App.EmbedResponse (v :: rest) ->
      let w1 := snd (App.get_embedding a t w) in
      embedding_cache w1 !! t = Some v /\ App.get_embedding a t w1 = (v, w1))
  /\ (forall w rest,
        embedding_cache w !! t = None ->
        fst (Main.gemini_embed_texts m [t] w) = Ret (Some (v :: rest)) ->
        v <> VNone ->
        let w1 := snd (Main.query_embedding m t w) in
        Main.query_embedding m t w = (Ret (Some v), w1)
        /\ embedding_cache w1 !! t = Some v
        /\ Main.query_embedding m t w1 = (Ret (Some v), w1))
  /\ (forall w,
        embedding_cache w !! t = Some v ->
        App.get_embedding a t w = (v, w)
        /\ Main.query_embedding m t w = (Ret (Some v), w)
        /\ (forall q sel, strip q = t ->
              existsb is_embed
                (calls_since w (snd (Main.query_route m
                   {| Main.question := q; Main.selected_text := sel |} w))) = false
              /\ existsb is_embed
                   (calls_since w (snd (App.query_chatbot a
                      {| App.question := q; App.selected_text := sel |} w))) = false)
        /\ (forall reqs, embedding_cache (Main.serve m reqs w) !! t = Some v)
        /\ (forall reqs, embedding_cache (App.serve a reqs w) !! t = Some v)
        /\ (forall t', embedding_cache (snd (App.get_embedding a t' w)) !! t = Some v)).
Proof.
  intros Ht. split; [| split].
  - intros w rest Hmiss Hreply w1.
    assert (embedding_cache w1 !! t = Some v) as Hc.
    { subst w1. pose proof (get_embedding_miss a t w Hmiss) as H. simpl in H.
      rewrite Hreply in H. rewrite H.
      destruct (App.file_writable a _); simpl; apply lookup_insert_eq. }
    split; [exact Hc | by apply get_embedding_hit].
  - intros w rest Hmiss Hreply Hv w1.
    pose proof (query_embedding_miss m t w Hmiss) as H. simpl in H.
    rewrite Hreply in H.
    assert (Main.embed_failed (Ret (Some (v :: rest))) = false) as Hok
      by (by destruct v).
    rewrite Hok in H.
    assert (embedding_cache w1 !! t = Some v) as Hc.
    { subst w1. rewrite H. cbn [snd].
      destruct (save_cache_world m (cache_store t v (log (EmbedCall [t]) w)))
        as (-> & _).
      simpl. apply lookup_insert_eq. }
    split; [by subst w1; rewrite H |].
    split; [exact Hc | by apply query_embedding_hit].
  - intros w Hc.
    split; [by apply get_embedding_hit |].
    split; [by apply query_embedding_hit |].
    split; [| split; [| split]].
    + intros q sel Hq.
      assert (is_empty (strip q) = false) as Hne
        by (rewrite Hq; destruct t; done).
      assert (is_empty q = false) as Hne'
        by (destruct q; [by rewrite <- Hq in Ht | done]).
      split.
      * destruct (query_route_after_embedding m
                    {| Main.question := q; Main.selected_text := sel |} w Hne)
          as (_ & _ & evs & Hh & Hevs).
        cbn [Main.question] in Hh. rewrite Hq in Hh.
        rewrite (query_embedding_hit m _ _ _ Hc) in Hh. cbn [snd] in Hh.
        by rewrite (calls_since_app _ _ _ Hh).
      * destruct (query_chatbot_after_embedding a
                    {| App.question := q; App.selected_text := sel |} w)
          as (_ & _ & evs & Hh & Hevs).
        { cbn [App.question]. by rewrite Hne, Hne'. }
        cbn [App.question] in Hh. rewrite Hq in Hh.
        rewrite (get_embedding_hit a _ _ _ Hc) in Hh. cbn [snd] in Hh.
        by rewrite (calls_since_app _ _ _ Hh).
    + intros reqs. by apply (serve_kept m reqs w).
    + intros reqs. by apply (app_serve_kept a reqs w).
    + intros t'. by apply (get_embedding_kept a t' w).
Qed.

Lemma cached_embedding_reused_witness :
  let m := Examples.main_services Examples.embed_ok
             (Some [Examples.point "Intro" 0]) Examples.chat_ok in
  let a := Examples.app_services (App.EmbedResponse [Examples.vector])
             (Some [Examples.point "Intro" 0]) (App.ChatResponse "from the model") in
  let w1 := snd (App.get_embedding a "q" Examples.empty_world) in
  let w2 := snd (Main.query_embedding m "q" Examples.empty_world) in
  "q" <> ""
  /\ (embedding_cache w1 !! "q" = Some Examples.vector
      /\ App.get_embedding a "q" w1 = (Examples.vector, w1))
  /\ Main.query_embedding m "q" w2 = (Ret (Some Examples.vector), w2).
Proof.
  intros m a w1 w2.
  assert ("q" <> "") as Hq by discriminate.
  split; [exact Hq |].
  destruct (cached_embedding_reused m a "q" Examples.vector Hq)
    as (Happ & Hmain & _).
  split.
  - apply (Happ Examples.empty_world []); reflexivity.
  - apply (Hmain Examples.empty_world []); [reflexivity | reflexivity | discriminate].
Defined.

(** ** embeddings.py: the retry loop *)

Section RetryLoop.
Variable sv : Embeddings.services.

(** A reply that is not accepted: pause, then go round again. *)
Lemma retry_loop_rejected fuel t w :
  Embeddings.reply_vector (Embeddings.post_embed sv (history w) t) = None ->
  Embeddings.retry_loop sv (S fuel) t w
  = Embeddings.retry_loop sv fuel t
      (log (Sleep (Embeddings.delay (Embeddings.post_embed sv (history w) t)))
           (log (EmbedCall [t]) w)).
Proof.
  cbn [Embeddings.retry_loop]. unfold Embeddings.reply_vector, Embeddings.delay.
  destruct (Embeddings.post_embed sv (history w) t) as [|status [data|]]; [done | |].
  - destruct (status =? 200)%Z; [| by destruct (status =? 429)%Z].
    destruct data; try done. cbn [method_get andb].
    by destruct (truthy (dict_get d "embedding" VNone)).
  - destruct (status =? 200)%Z; [done | by destruct (status =? 429)%Z].
Qed.

(** An accepted reply: store, save, return; a failed save is one more
    exception that the loop catches. *)
Lemma retry_loop_accepted fuel t w v :
  Embeddings.reply_vector (Embeddings.post_embed sv (history w) t) = Some v ->
  let w2 := log FileWrite (cache_store t v (log (EmbedCall [t]) w)) in
  truthy v = true
  /\ Embeddings.retry_loop sv (S fuel) t w
     = if Embeddings.file_writable sv (history w ++ [EmbedCall [t]])
       then (Some v, file_overwrite w2)
       else Embeddings.retry_loop sv fuel t (log (Sleep 10) w2).
Proof.
  cbn [Embeddings.retry_loop]. unfold Embeddings.reply_vector.
  destruct (Embeddings.post_embed sv (history w) t) as [|status [data|]]; try done.
  destruct data; try done.
  destruct (status =? 200)%Z; [| done]. cbn [method_get andb].
  destruct (truthy (dict_get d "embedding" VNone)) eqn:Ht; [| done].
  intros [= <-]. split; [done |].
  unfold Embeddings.save_cache. simpl.
  by destruct (Embeddings.file_writable sv (history w ++ [EmbedCall [t]])).
Qed.

(** The loop returns only a vector that a reply carried, and that vector
    is then in the cache. *)
Lemma retry_loop_returns fuel t : forall w v w',
  Embeddings.retry_loop sv fuel t w = (Some v, w') ->
  truthy v = true
  /\ embedding_cache w' !! t = Some v
  /\ exists tr, Embeddings.reply_vector (Embeddings.post_embed sv tr t) = Some v.
Proof.
  induction fuel as [|fuel IH]; intros w v w' Hrun; [discriminate |].
  destruct (Embeddings.reply_vector (Embeddings.post_embed sv (history w) t))
    as [v0|] eqn:Hreply.
  - destruct (retry_loop_accepted fuel t w v0 Hreply) as [Ht Hstep].
    rewrite Hstep in Hrun.
    destruct (Embeddings.file_writable sv _); [| by eapply IH].
    injection Hrun as <- <-. split; [done |]. split; [| by eauto].
    simpl. apply lookup_insert_eq.
  - rewrite (retry_loop_rejected fuel t w Hreply) in Hrun. by eapply IH.
Qed.

(** While no reply is accepted the loop goes on, and the cache and its
    file stay as they are. *)
Lemma retry_loop_all_rejected fuel t : forall w,
  (forall tr, Embeddings.reply_vector (Embeddings.post_embed sv tr t) = None) ->
  let r := Embeddings.retry_loop sv fuel t w in
  fst r = None
  /\ embedding_cache (snd r) = embedding_cache w
  /\ cache_file (snd r) = cache_file w.
Proof.
  induction fuel as [|fuel IH]; intros w Hall; [done |].
  rewrite (retry_loop_rejected fuel t w (Hall _)).
  destruct (IH (log (Sleep (Embeddings.delay (Embeddings.post_embed sv (history w) t)))
                    (log (EmbedCall [t]) w)) Hall) as (H1 & H2 & H3).
  by repeat split.
Qed.

Lemma reply_vector_rate_limited body :
  Embeddings.reply_vector (Response 429 body) = None.
Proof. by destruct body as [[]|]. Qed.

(** Under persistent rate limiting every round is a call followed by a
    pause of 60 seconds. *)
Lemma retry_loop_rate_limited fuel t : forall w,
  (forall tr, exists body, Embeddings.post_embed sv tr t = Response 429 body) ->
  history (snd (Embeddings.retry_loop sv fuel t w))
  = history w ++ concat (repeat [EmbedCall [t]; Sleep 60] fuel).
Proof.
  induction fuel as [|fuel IH]; intros w Hall; [by rewrite app_nil_r |].
  destruct (Hall (history w)) as [body Hreply].
  rewrite retry_loop_rejected by (rewrite Hreply; apply reply_vector_rate_limited).
  rewrite IH by done. rewrite Hreply. simpl. by rewrite <- !app_assoc.
Qed.

End RetryLoop.

(** C6: on rate limiting, [get_embedding] of [app.py] makes its one
    provider call and returns the empty list at once, without pause or
    retry; [get_gemini_embedding] of [embeddings.py] pauses 60 seconds and
    calls the provider again, without bound: under persistent rate limiting
    no number of rounds makes it return, each round being a call followed
    by a pause of 60 seconds, and whenever it does return, the value is a
    non-empty embedding that a reply carried, stored in the cache; it has
    no failure value. *)
Theorem rate_limit_policies (a : App.services) (sv : Embeddings.services)
    (t : string) (w : world) :
  embedding_cache w !! t = None ->
  (App.co_embed a (history w) t = App.EmbedTooManyRequests ->
   App.get_embedding a t w = (VList [], log (EmbedCall [t]) w))
  /\ (forall fuel body,
        Embeddings.post_embed sv (history w) t = Response 429 body ->
        Embeddings.get_gemini_embedding sv (S fuel) t w
        = Embeddings.retry_loop sv fuel t (log (Sleep 60) (log (EmbedCall [t]) w)))
  /\ ((forall tr, exists body, Embeddings.post_embed sv tr t = Response 429 body) ->
      forall fuel,
        let r := Embeddings.get_gemini_embedding sv fuel t w in
        fst r = None
        /\ history (snd r)
           = history w ++ concat (repeat [EmbedCall [t]; Sleep 60] fuel)
        /\ embedding_cache (snd r) = embedding_cache w)
  /\ (forall fuel v w',
        Embeddings.get_gemini_embedding sv fuel t w = (Some v, w') ->
        truthy v = true
        /\ embedding_cache w' !! t = Some v
        /\ exists tr, Embeddings.reply_vector (Embeddings.post_embed sv tr t) = Some v).
Proof.
  intros Hmiss. unfold Embeddings.get_gemini_embedding. rewrite Hmiss.
  split; [| split; [| split]].
  - intros Hreply. pose proof (get_embedding_miss a t w Hmiss) as H. simpl in H.
    by rewrite Hreply in H.
  - intros fuel body Hreply.
    rewrite retry_loop_rejected by (rewrite Hreply; apply reply_vector_rate_limited).
    by rewrite Hreply.
  - intros Hall fuel.
    assert (forall tr, Embeddings.reply_vector (Embeddings.post_embed sv tr t) = None)
      as Hnone.
    { intros tr. destruct (Hall tr) as [body ->]. apply reply_vector_rate_limited. }
    destruct (retry_loop_all_rejected sv fuel t w Hnone) as (H1 & H2 & _).
    split; [done |]. split; [by apply retry_loop_rate_limited | done].
  - intros fuel v w' Hrun. by apply (retry_loop_returns sv fuel t w).
Qed.

Lemma rate_limit_policies_witness :
  let a := Examples.app_services App.EmbedTooManyRequests None App.ChatError in
  let sv := Examples.embeddings_services Examples.rate_limited in
  embedding_cache Examples.empty_world !! "t" = None
  /\ App.get_embedding a "t" Examples.empty_world
     = (VList [], log (EmbedCall ["t"]) Examples.empty_world)
  /\ fst (Embeddings.get_gemini_embedding sv 5 "t" Examples.empty_world) = None.
Proof.
  intros a sv. split; [reflexivity |].
  destruct (rate_limit_policies a sv "t" Examples.empty_world eq_refl)
    as (Happ & _ & Hloop & _).
  split.
  - apply Happ. reflexivity.
  - apply Hloop. intros tr. exists None. reflexivity.
Defined.

(** ** Failed embedding calls and the cache *)

Lemma gemini_embed_texts_parsed (m : Main.services) texts w j :
  Main.post_embed m (history w) texts = Response 200 (Some j) ->
  fst (Main.gemini_embed_texts m texts w) = Main.parse_embeddings j.
Proof. intros H. unfold Main.gemini_embed_texts. by rewrite H. Qed.

Lemma gemini_embed_texts_not_json (m : Main.services) texts w status :
  Main.post_embed m (history w) texts = Response status None ->
  Main.embedding_obtained (fst (Main.gemini_embed_texts m texts w)) = None.
Proof.
  intros H. unfold Main.gemini_embed_texts. rewrite H.
  by destruct (negb (status =? 200)%Z).
Qed.

(** Step 1 of [query_route] on a cache miss, by whether an embedding was
    obtained. *)
Lemma query_embedding_outcome (m : Main.services) t w :
  embedding_cache w !! t = None ->
  match Main.embedding_obtained (fst (Main.gemini_embed_texts m [t] w)) with
  | Some v =>
      Main.query_embedding m t w
      = (Ret (Some v), Main.save_cache m (cache_store t v (log (EmbedCall [t]) w)))
  | None => snd (Main.query_embedding m t w) = log (EmbedCall [t]) w
  end.
Proof.
  intros Hmiss. pose proof (query_embedding_miss m t w Hmiss) as H. simpl in H.
  unfold Main.embedding_obtained.
  destruct (fst (Main.gemini_embed_texts m [t] w)) as [[[|emb rest]|]|e];
    try by rewrite H.
  destruct (Main.embed_failed _); by rewrite H.
Qed.

(** The retry loop changes the cache only by storing an accepted vector
    under the text, and the file only by saving that cache. *)
Lemma retry_loop_cache (sv : Embeddings.services) fuel t : forall w,
  let w' := snd (Embeddings.retry_loop sv fuel t w) in
  (embedding_cache w' = embedding_cache w /\ cache_file w' = cache_file w)
  \/ exists v tr,
       Embeddings.reply_vector (Embeddings.post_embed sv tr t) = Some v
       /\ embedding_cache w' = <[t:=v]> (embedding_cache w)
       /\ (cache_file w' = cache_file w \/ cache_file w' = embedding_cache w').
Proof.
  induction fuel as [|fuel IH]; intros w; [by left |].
  destruct (Embeddings.reply_vector (Embeddings.post_embed sv (history w) t))
    as [v0|] eqn:Hreply.
  - destruct (retry_loop_accepted sv fuel t w v0 Hreply) as [_ Hstep].
    cbv zeta. rewrite Hstep.
    destruct (Embeddings.file_writable sv _).
    + right. exists v0, (history w). simpl. auto.
    + right.
      destruct (IH (log (Sleep 10)
                      (log FileWrite (cache_store t v0 (log (EmbedCall [t]) w)))))
        as [[Hc Hf] | (v & tr & Hv & Hc & Hf)].
      * exists v0, (history w). simpl in *. rewrite Hc, Hf. auto.
      * exists v, tr. simpl in *. rewrite Hc, insert_insert_eq.
        split; [done |]. split; [done |].
        destruct Hf as [-> | ->]; [by left | right]. by rewrite Hc, insert_insert_eq.
  - cbv zeta. rewrite (retry_loop_rejected sv fuel t w Hreply).
    destruct (IH (log (Sleep (Embeddings.delay (Embeddings.post_embed sv (history w) t)))
                      (log (EmbedCall [t]) w)))
      as [[Hc Hf] | (v & tr & Hv & Hc & Hf)].
    + by left.
    + right. exists v, tr. by repeat split.
Qed.

(** C10: for a text that is not in the cache, a failed embedding call
    (transport error, status other than 200, rate limiting included, a body
    that is not JSON or has no recognised shape, an exception of the
    client) leaves both the in-memory cache and its file as they were, in
    the three programs; and the handlers do not touch them afterwards.  An
    entry is added only once an embedding has been obtained: it is stored
    under the text and the file is rewritten at once (it then equals the
    cache, or stays as it was when the write fails). *)
Theorem failed_embedding_leaves_cache (m : Main.services) (a : App.services)
    (sv : Embeddings.services) (t : string) (w : world) :
  embedding_cache w !! t = None ->
  (* main.py *)
  (forall v,
      Main.embedding_obtained (fst (Main.gemini_embed_texts m [t] w)) = Some v ->
      let w1 := snd (Main.query_embedding m t w) in
      embedding_cache w1 = <[t:=v]> (embedding_cache w)
      /\ history w1 = history w ++ [EmbedCall [t]; FileWrite]
      /\ (cache_file w1 = embedding_cache w1 \/ cache_file w1 = cache_file w))
  /\ (Main.embedding_obtained (fst (Main.gemini_embed_texts m [t] w)) = None ->
      forall q sel, strip q = t ->
        let w' := snd (Main.query_route m
                         {| Main.question := q; Main.selected_text := sel |} w) in
        embedding_cache w' = embedding_cache w /\ cache_file w' = cache_file w)
  /\ (Main.post_embed m (history w) [t] = ConnectionError
      \/ (exists status body, Main.post_embed m (history w) [t] = Response status body
                              /\ (status <> 200%Z \/ body = None))
      \/ (exists j, Main.post_embed m (history w) [t] = Response 200 (Some j)
                    /\ forall l, Main.parse_embeddings j <> Ret (Some l)) ->
      Main.embedding_obtained (fst (Main.gemini_embed_texts m [t] w)) = None)
  (* app.py *)
  /\ (forall v rest,
        App.co_embed a (history w) t = App.EmbedResponse (v :: rest) ->
        let w1 := snd (App.get_embedding a t w) in
        embedding_cache w1 = <[t:=v]> (embedding_cache w)
        /\ history w1 = history w ++ [EmbedCall [t]; FileWrite]
        /\ (cache_file w1 = embedding_cache w1 \/ cache_file w1 = cache_file w))
  /\ (App.co_embed a (history w) t = App.EmbedTooManyRequests
      \/ App.co_embed a (history w) t = App.EmbedError
      \/ App.co_embed a (history w) t = App.EmbedResponse [] ->
      forall q sel, strip q = t ->
        let w' := snd (App.query_chatbot a
                         {| App.question := q; App.selected_text := sel |} w) in
        embedding_cache w' = embedding_cache w /\ cache_file w' = cache_file w)
  (* embeddings.py *)
  /\ ((forall tr, Embeddings.reply_vector (Embeddings.post_embed sv tr t) = None) ->
      forall fuel,
        let w' := snd (Embeddings.get_gemini_embedding sv fuel t w) in
        embedding_cache w' = embedding_cache w /\ cache_file w' = cache_file w)
  /\ (forall fuel,
        let w' := snd (Embeddings.get_gemini_embedding sv fuel t w) in
        (embedding_cache w' = embedding_cache w /\ cache_file w' = cache_file w)
        \/ exists v tr,
             Embeddings.reply_vector (Embeddings.post_embed sv tr t) = Some v
             /\ embedding_cache w' = <[t:=v]> (embedding_cache w)
             /\ (cache_file w' = cache_file w \/ cache_file w' = embedding_cache w')).
Proof.
  intros Hmiss. repeat apply conj.
  - intros v Hv w1. subst w1.
    pose proof (query_embedding_outcome m t w Hmiss) as H. rewrite Hv in H.
    rewrite H. cbn [snd].
    destruct (save_cache_world m (cache_store t v (log (EmbedCall [t]) w)))
      as (Hc & Hh & Hf).
    rewrite Hc, Hh. simpl. split; [done |]. split; [by rewrite <- app_assoc |].
    destruct Hf as [-> | ->]; auto.
  - intros Hnone q sel Hq w'. subst w'.
    destruct (is_empty (strip q)) eqn:Hne.
    + unfold Main.query_route. cbn [Main.question]. by rewrite Hne.
    + destruct (query_route_after_embedding m
                  {| Main.question := q; Main.selected_text := sel |} w Hne)
        as (Hc & Hf & _).
      cbn [Main.question] in Hc, Hf. rewrite Hq in Hc, Hf.
      pose proof (query_embedding_outcome m t w Hmiss) as H. rewrite Hnone in H.
      rewrite H in Hc, Hf. by rewrite Hc, Hf.
  - intros [Hr | [(status & body & Hr & [Hst | ->]) | (j & Hr & Hj)]].
    + rewrite gemini_embed_texts_unavailable; [done | by left].
    + rewrite gemini_embed_texts_unavailable; [done | right; eauto].
    + by apply (gemini_embed_texts_not_json m _ _ status).
    + rewrite (gemini_embed_texts_parsed m _ _ _ Hr).
      destruct (Main.parse_embeddings j) as [[l|]|e]; try done.
      by destruct (Hj l).
  - intros v rest Hreply w1. subst w1.
    pose proof (get_embedding_miss a t w Hmiss) as H. simpl in H.
    rewrite Hreply in H. rewrite H.
    destruct (App.file_writable a _); simpl; rewrite <- app_assoc; auto.
  - intros Hreply q sel Hq w'. subst w'.
    destruct (is_empty q || is_empty (strip q)) eqn:Hne.
    + unfold App.query_chatbot. cbn [App.question]. by rewrite Hne.
    + destruct (query_chatbot_after_embedding a
                  {| App.question := q; App.selected_text := sel |} w Hne)
        as (Hc & Hf & _).
      cbn [App.question] in Hc, Hf. rewrite Hq in Hc, Hf.
      pose proof (get_embedding_miss a t w Hmiss) as H. simpl in H.
      destruct Hreply as [Hr | [Hr | Hr]]; rewrite Hr in H;
        rewrite H in Hc, Hf; by rewrite Hc, Hf.
  - intros Hall fuel w'. subst w'.
    unfold Embeddings.get_gemini_embedding. rewrite Hmiss.
    by destruct (retry_loop_all_rejected sv fuel t w Hall) as (_ & H2 & H3).
  - intros fuel w'. subst w'.
    unfold Embeddings.get_gemini_embedding. rewrite Hmiss.
    apply retry_loop_cache.
Qed.

Lemma failed_embedding_leaves_cache_witness :
  let m := Examples.main_services Examples.rate_limited None Examples.chat_ok in
  let a := Examples.app_services App.EmbedTooManyRequests None App.ChatError in
  let sv := Examples.embeddings_services Examples.rate_limited in
  let w := Examples.empty_world in
  embedding_cache w !! "t" = None
  /\ (embedding_cache (snd (Main.query_route m
        {| Main.question := "t"; Main.selected_text := None |} w)) = embedding_cache w
      /\ cache_file (snd (Main.query_route m
           {| Main.question := "t"; Main.selected_text := None |} w)) = cache_file w)
  /\ (embedding_cache (snd (App.query_chatbot a
        {| App.question := "t"; App.selected_text := None |} w)) = embedding_cache w
      /\ cache_file (snd (App.query_chatbot a
           {| App.question := "t"; App.selected_text := None |} w)) = cache_file w)
  /\ (embedding_cache (snd (Embeddings.get_gemini_embedding sv 3 "t" w))
      = embedding_cache w
      /\ cache_file (snd (Embeddings.get_gemini_embedding sv 3 "t" w)) = cache_file w).
Proof.
  intros m a sv w. split; [reflexivity |].
  destruct (failed_embedding_leaves_cache m a sv "t" w eq_refl)
    as (_ & Hmain & _ & _ & Happ & Hloop & _).
  split; [| split].
  - apply Hmain; reflexivity.
  - apply Happ; [left |]; reflexivity.
  - apply Hloop. intros tr. reflexivity.
Defined.

(** ** Chat replies of an unrecognised shape *)

Lemma substring_length n : forall s, String.length (substring 0 n s) <= n.
Proof.
  induction n as [|n IH]; intros [|c s]; simpl; try lia.
  specialize (IH s). lia.
Qed.

(** When no recognised shape yields a text and nothing raises, the helper
    returns the serialised body, cut at 1500 characters. *)
Lemma gemini_chat_fallback (m : Main.services) sys usr n w j :
  Main.post_chat m (history w) sys usr = Response 200 (Some j) ->
  Main.extract_text j = Ret None ->
  fst (Main.gemini_chat m sys usr n w)
  = Ret (Some (substring 0 1500 (Main.json_dumps m j)))
  /\ String.length (substring 0 1500 (Main.json_dumps m j)) <= 1500.
Proof.
  intros Hreply Hshape. unfold Main.gemini_chat. rewrite Hreply. simpl.
  rewrite Hshape. split; [done | apply substring_length].
Qed.

Lemma extract_text_not_dict j : is_dict j = false -> Main.extract_text j = Ret None.
Proof. by destruct j. Qed.

Lemma extract_text_no_key d :
  lookup_key "output" d = None -> lookup_key "choices" d = None ->
  lookup_key "text" d = None ->
  Main.extract_text (VDict d) = Ret None.
Proof.
  intros Ho Hc Ht. unfold Main.extract_text, Main.shape_output, Main.shape_choices.
  rewrite Ho, Hc. simpl. by rewrite Ht.
Qed.

(** A first choice that is not a JSON object makes [first.get] raise. *)
Lemma extract_text_choice_not_dict d first rest :
  Main.shape_output d = Ret None ->
  lookup_key "choices" d = Some (VList (first :: rest)) ->
  is_dict first = false ->
  Main.extract_text (VDict d) = Raise AttributeError.
Proof.
  intros Ho Hc Hf. unfold Main.extract_text. rewrite Ho. simpl.
  unfold Main.shape_choices. rewrite Hc. by destruct first.
Qed.

(** C9, where the code departs from it: the body [{"choices": [5]}] has
    none of the recognised shapes, and [gemini_chat] does not return its
    serialisation: [first.get("message")] raises [AttributeError] on the
    integer, nothing catches it, and the request ends with status 500. *)
Theorem gemini_chat_raises_on_scalar_choice :
  let body := VDict [("choices", VList [VInt 5])] in
  let m := Examples.main_services Examples.embed_ok
             (Some [Examples.point "Intro" 0]) (Response 200 (Some body)) in
  Main.extract_text body = Raise AttributeError
  /\ fst (Main.gemini_chat m "system" "user" 500 Examples.empty_world)
     = Raise AttributeError
  /\ fst (Main.query_route m {| Main.question := "q"; Main.selected_text := None |}
            Examples.empty_world)
     = Main.InternalServerError AttributeError.
Proof. vm_compute. auto. Qed.

(** ** An end-to-end run of [main.py] *)

(** The question is embedded, three chunks are found, the model answers;
    the sources come in search order, and asking the same question again
    makes a search and a chat call but no embedding call. *)
Example physical_ai_scenario :
  let m := Examples.main_services Examples.embed_ok
             (Some [Examples.point "Intro" 0; Examples.point "Intro" 1;
                    Examples.point "Ch2" 0])
             Examples.chat_ok in
  let req := {| Main.question := "What is Physical AI?"; Main.selected_text := None |} in
  let first := Main.query_route m req Examples.empty_world in
  let second := Main.query_route m req (snd first) in
  fst first
  = Main.Ok {| Main.answer := "Physical AI is embodied.";
               Main.sources :=
                 [ {| Main.src_chapter := Some "Intro";
                      Main.src_section := Some "Chunk 0"; Main.src_url := None |};
                   {| Main.src_chapter := Some "Intro";
                      Main.src_section := Some "Chunk 1"; Main.src_url := None |};
                   {| Main.src_chapter := Some "Ch2";
                      Main.src_section := Some "Chunk 0"; Main.src_url := None |} ];
               Main.meta := [("source_count", VInt 3)] |}
  /\ fst second = fst first
  /\ map is_embed (calls_since Examples.empty_world (snd first))
     = [true; false; false; false]
  /\ map is_embed (calls_since (snd first) (snd second)) = [false; false].
Proof. vm_compute. auto. Qed.

(** * Further properties of the modelled code *)

(** ** The source list of a response *)

Lemma main_make_sources_spec (m : Main.services) rs : forall ss,
  Main.make_sources m rs = Ret ss ->
  length ss = length rs
  /\ forall i s, ss !! i = Some s ->
       exists r, rs !! i = Some r /\ Main.make_source m r = Ret s.
Proof.
  induction rs as [|r rs IH]; intros ss H; simpl in H.
  - injection H as <-. split; [done |]. intros i s Hs. by destruct i.
  - destruct (Main.make_source m r) as [s0|e] eqn:Hr; [| done]. simpl in H.
    destruct (Main.make_sources m rs) as [ss0|e]; [| done]. simpl in H.
    injection H as <-. destruct (IH ss0 eq_refl) as [Hlen Hi].
    split; [simpl; by rewrite Hlen |].
    intros [|i] s Hs; simpl in Hs.
    + injection Hs as <-. by exists r.
    + by apply Hi.
Qed.

Lemma main_make_source_fields (m : Main.services) r s :
  Main.make_source m r = Ret s ->
  Main.src_section s = Some ("Chunk " +:+ Main.format m (chunk_index r))
  /\ Main.src_url s = None
  /\ (chapter r = VNone -> Main.src_chapter s = None)
  /\ (forall c, chapter r = VStr c -> Main.src_chapter s = Some c).
Proof.
  unfold Main.make_source. intros H.
  destruct (chapter r) eqn:Hc; simpl in H;
    try (destruct (Main.coerce_str m _); simpl in H; [| done]);
    injection H as <-; simpl; repeat split; try done.
  by intros c [= <-].
Qed.

Lemma query_route_blank (m : Main.services) q sel w :
  whitespace_only q = true ->
  Main.query_route m {| Main.question := q; Main.selected_text := sel |} w
  = (Main.HTTPException 400 "Question cannot be empty", w).
Proof.
  intros Hq. apply strip_whitespace_only in Hq.
  unfold Main.query_route. simpl. by rewrite Hq.
Qed.

Lemma query_chatbot_blank (a : App.services) q sel w :
  whitespace_only q = true ->
  App.query_chatbot a {| App.question := q; App.selected_text := sel |} w
  = (App.HTTPException 400 "Question cannot be empty", w).
Proof.
  intros Hq. apply strip_whitespace_only in Hq.
  unfold App.query_chatbot. simpl. rewrite Hq. simpl. by rewrite orb_true_r.
Qed.

(** The bodies [query_route] can answer with once it has an embedding. *)
Lemma query_route_bodies (m : Main.services) q sel w emb w1 body :
  whitespace_only q = false ->
  Main.query_embedding m (strip q) w = (Ret (Some emb), w1) ->
  fst (Main.query_route m {| Main.question := q; Main.selected_text := sel |} w)
  = Main.Ok body ->
  let results := fst (Main.search_qdrant_by_embedding m emb 5 w1) in
  let w2 := snd (Main.search_qdrant_by_embedding m emb 5 w1) in
  let chat := fst (Main.gemini_chat m Main.system_prompt
                     (Main.user_prompt m (Main.boosted sel (map text results)) (strip q))
                     500 w2) in
  (results = [] /\ body = Main.no_passages)
  \/ (results <> [] /\ body = Main.chat_failed
      /\ (chat = Ret None \/ chat = Ret (Some "")))
  \/ (results <> []
      /\ exists answer ss,
           chat = Ret (Some answer) /\ answer <> ""
           /\ Main.make_sources m results = Ret ss
           /\ body = {| Main.answer := strip answer;
                        Main.sources := take 5 ss;
                        Main.meta := [("source_count",
                                       VInt (Z.of_nat (length results)))] |}).
Proof.
  intros Hq He. unfold Main.query_route. cbn [Main.question Main.selected_text].
  rewrite (whitespace_only_false _ Hq), He.
  destruct (Main.search_qdrant_by_embedding m emb 5 w1) as [results w2].
  cbn [fst snd].
  destruct results as [|r results]; [intros [= <-]; by left |].
  destruct (Main.gemini_chat m _ _ 500 w2) as [[[answer|]|e] w3]; cbn [fst].
  - destruct answer as [|c answer]; simpl is_empty; cbv iota.
    + intros [= <-]. right; left. auto.
    + destruct (Main.make_sources m (r :: results)) as [ss|e] eqn:Hs; [| done].
      intros [= <-]. right; right. split; [done |].
      exists (String c answer), ss. by repeat split.
  - intros [= <-]. right; left. auto.
  - done.
Qed.

(** X1: a response of [main.py] never lists more than five sources, and
    the sources it lists describe the first search results in order: the
    i-th source has the chapter of the i-th chunk (none when the payload
    has none), the label "Chunk" followed by its index, and no URL.  The
    selected text contributes no source. *)
Theorem main_sources_follow_results (m : Main.services) (q : string)
    (sel : option string) (w : world) (body : Main.QueryResponse) :
  fst (Main.query_route m {| Main.question := q; Main.selected_text := sel |} w)
  = Main.Ok body ->
  length (Main.sources body) <= 5
  /\ forall emb w1,
       Main.query_embedding m (strip q) w = (Ret (Some emb), w1) ->
       let results := fst (Main.search_qdrant_by_embedding m emb 5 w1) in
       (Main.sources body = []
        \/ length (Main.sources body) = Nat.min 5 (length results))
       /\ forall i s, Main.sources body !! i = Some s ->
            exists r, results !! i = Some r
              /\ Main.src_section s
                 = Some ("Chunk " +:+ Main.format m (chunk_index r))
              /\ Main.src_url s = None
              /\ (chapter r = VNone -> Main.src_chapter s = None)
              /\ (forall c, chapter r = VStr c -> Main.src_chapter s = Some c).
Proof.
  intros Hok.
  assert (whitespace_only q = false) as Hq.
  { destruct (whitespace_only q) eqn:E; [| done].
    by rewrite (query_route_blank m q sel w E) in Hok. }
  assert (forall emb w1,
       Main.query_embedding m (strip q) w = (Ret (Some emb), w1) ->
       let results := fst (Main.search_qdrant_by_embedding m emb 5 w1) in
       length (Main.sources body) <= 5
       /\ (Main.sources body = []
           \/ length (Main.sources body) = Nat.min 5 (length results))
       /\ forall i s, Main.sources body !! i = Some s ->
            exists r, results !! i = Some r
              /\ Main.src_section s
                 = Some ("Chunk " +:+ Main.format m (chunk_index r))
              /\ Main.src_url s = None
              /\ (chapter r = VNone -> Main.src_chapter s = None)
              /\ (forall c, chapter r = VStr c -> Main.src_chapter s = Some c)) as Hmain.
  { intros emb w1 He results.
    destruct (query_route_bodies m q sel w emb w1 body Hq He Hok)
      as [[_ ->] | [(_ & -> & _) | (_ & answer & ss & _ & _ & Hss & ->)]];
      try (simpl; split; [lia |]; split; [by left |]; intros i s Hs; by destruct i).
    destruct (main_make_sources_spec m _ _ Hss) as [Hlen Hi]. cbn [Main.sources].
    split; [rewrite length_take; lia |].
    split; [right; rewrite length_take, Hlen; done |].
    intros i s Hs. apply lookup_take_Some in Hs as [Hs _].
    destruct (Hi i s Hs) as (r & Hr & Hmk). exists r. split; [done |].
    by apply main_make_source_fields. }
  split; [| intros emb w1 He; by destruct (Hmain emb w1 He) as (_ & ? & ?)].
  unfold Main.query_route in Hok. cbn [Main.question] in Hok.
  rewrite (whitespace_only_false _ Hq) in Hok.
  destruct (Main.query_embedding m (strip q) w) as [[[emb|]|e] w1] eqn:He.
  - by destruct (Hmain emb w1 eq_refl) as (? & _).
  - injection Hok as <-. simpl. lia.
  - done.
Qed.

Lemma main_sources_follow_results_witness :
  let m := Examples.main_services Examples.embed_ok (Some Examples.six_points)
             Examples.chat_ok in
  let body := {| Main.answer := "Physical AI is embodied.";
                 Main.sources := map Examples.intro_source [0; 1; 2; 3; 4]%Z;
                 Main.meta := [("source_count", VInt 6)] |} in
  fst (Main.query_route m {| Main.question := "q"; Main.selected_text := Some "x" |}
         Examples.empty_world) = Main.Ok body
  /\ length (Main.sources body) <= 5.
Proof.
  intros m body.
  assert (fst (Main.query_route m
                 {| Main.question := "q"; Main.selected_text := Some "x" |}
                 Examples.empty_world) = Main.Ok body) as Hok
    by (vm_compute; reflexivity).
  split; [exact Hok |].
  exact (proj1 (main_sources_follow_results m "q" (Some "x") Examples.empty_world
                  body Hok)).
Defined.

Lemma app_make_sources_spec (a : App.services) rs : forall ss,
  App.make_sources a rs = Ret ss ->
  length ss = length rs
  /\ forall i s, ss !! i = Some s ->
       exists r, rs !! i = Some r /\ App.make_source a r = Ret s.
Proof.
  induction rs as [|r rs IH]; intros ss H; simpl in H.
  - injection H as <-. split; [done |]. intros i s Hs. by destruct i.
  - destruct (App.make_source a r) as [s0|e] eqn:Hr; [| done]. simpl in H.
    destruct (App.make_sources a rs) as [ss0|e]; [| done]. simpl in H.
    injection H as <-. destruct (IH ss0 eq_refl) as [Hlen Hi].
    split; [simpl; by rewrite Hlen |].
    intros [|i] s Hs; simpl in Hs.
    + injection Hs as <-. by exists r.
    + by apply Hi.
Qed.

Lemma app_make_source_fields (a : App.services) r s :
  App.make_source a r = Ret s ->
  App.src_section s = Some ("Chunk " +:+ App.format a (chunk_index r))
  /\ App.src_url s = Some ""
  /\ chapter r <> VNone
  /\ (forall c, chapter r = VStr c -> App.src_chapter s = c).
Proof.
  unfold App.make_source. intros H.
  destruct (chapter r) eqn:Hc; simpl in H; try done;
    try (destruct (App.coerce_str a _); simpl in H; [| done]);
    injection H as <-; simpl; repeat split; try done.
  by intros c [= <-].
Qed.

(** X2: whenever [app.py] answers with status 200, it lists the first
    five search results as sources, in search order, whatever became of the
    chat call: the i-th source has the chapter of the i-th chunk, the label
    "Chunk" followed by its index and an empty URL, and the answer is what
    [generate_answer] returned for the selected text and the chunk texts.
    A chunk whose chapter is [None] never gets that far. *)
Theorem app_sources_follow_results (a : App.services) (q : string)
    (sel : option string) (w : world) (body : App.QueryResponse) :
  fst (App.query_chatbot a {| App.question := q; App.selected_text := sel |} w)
  = App.Ok body ->
  let results := fst (App.search_qdrant a (strip q) 5 w) in
  let w1 := snd (App.search_qdrant a (strip q) 5 w) in
  App.answer body
  = fst (App.generate_answer a (App.boosted sel (map text results)) (strip q) w1)
  /\ length (App.sources body) = Nat.min 5 (length results)
  /\ forall i s, App.sources body !! i = Some s ->
       exists r, results !! i = Some r
         /\ App.src_section s = Some ("Chunk " +:+ App.format a (chunk_index r))
         /\ App.src_url s = Some ""
         /\ chapter r <> VNone
         /\ (forall c, chapter r = VStr c -> App.src_chapter s = c).
Proof.
  intros Hok.
  assert (whitespace_only q = false) as Hq.
  { destruct (whitespace_only q) eqn:E; [| done].
    by rewrite (query_chatbot_blank a q sel w E) in Hok. }
  unfold App.query_chatbot in Hok. cbn [App.question App.selected_text] in Hok.
  rewrite (whitespace_only_false _ Hq), (whitespace_only_false_nonempty _ Hq) in Hok.
  cbn [orb] in Hok.
  destruct (App.search_qdrant a (strip q) 5 w) as [results w1]. cbn [fst snd].
  destruct (App.generate_answer a _ (strip q) w1) as [answer w2].
  destruct (App.make_sources a results) as [ss|e] eqn:Hss; [| done].
  injection Hok as <-. cbn [App.answer App.sources fst].
  destruct (app_make_sources_spec a _ _ Hss) as [Hlen Hi].
  split; [done |]. split; [by rewrite length_take, Hlen |].
  intros i s Hs. apply lookup_take_Some in Hs as [Hs _].
  destruct (Hi i s Hs) as (r & Hr & Hmk). exists r. split; [done |].
  by apply app_make_source_fields.
Qed.

Lemma app_sources_follow_results_witness :
  let a := Examples.app_services (App.EmbedResponse [Examples.vector])
             (Some Examples.six_points) App.ChatTooManyRequests in
  let body := {| App.answer := "API rate limit reached. Please try again in a few seconds.";
                 App.sources := map Examples.app_intro_source [0; 1; 2; 3; 4]%Z |} in
  fst (App.query_chatbot a {| App.question := "q"; App.selected_text := None |}
         Examples.empty_world) = App.Ok body
  /\ length (App.sources body)
     = Nat.min 5 (length (fst (App.search_qdrant a "q" 5 Examples.empty_world))).
Proof.
  intros a body.
  assert (fst (App.query_chatbot a
                 {| App.question := "q"; App.selected_text := None |}
                 Examples.empty_world) = App.Ok body) as Hok
    by (vm_compute; reflexivity).
  split; [exact Hok |].
  exact (proj1 (proj2 (app_sources_follow_results a "q" None Examples.empty_world
                         body Hok))).
Defined.

(** ** From the provider's reply to the search *)

Lemma parse_embeddings_data d data :
  lookup_key "data" d = Some (VList data) ->
  Main.parse_embeddings (VDict d) = Ret (Some (Main.embeddings_of_data data)).
Proof. intros H. unfold Main.parse_embeddings. by rewrite H. Qed.

Lemma parse_embeddings_no_data d :
  (forall l, lookup_key "data" d <> Some (VList l)) ->
  Main.parse_embeddings (VDict d)
  = match lookup_key "embeddings" d with
    | Some (VList l) => Ret (Some l)
    | _ => match lookup_key "embedding" d with
           | Some x => Ret (Some [x])
           | None => Ret None
           end
    end.
Proof.
  intros Hd. unfold Main.parse_embeddings.
  destruct (lookup_key "data" d) as [[]|] eqn:E; try (by destruct (Hd l));
    simpl; destruct (lookup_key "embeddings" d) as [[]|]; simpl;
    by destruct (lookup_key "embedding" d).
Qed.

(** After step 1 [query_route] makes the search call with the embedding,
    then at most one chat call. *)
Lemma query_route_calls_after_embedding (m : Main.services) q sel w emb w1 :
  whitespace_only q = false ->
  Main.query_embedding m (strip q) w = (Ret (Some emb), w1) ->
  let req := {| Main.question := q; Main.selected_text := sel |} in
  let results := fst (Main.search_qdrant_by_embedding m emb 5 w1) in
  let usr := Main.user_prompt m (Main.boosted sel (map text results)) (strip q) in
  history (snd (Main.query_route m req w))
  = history w1 ++ SearchCall emb 5
      :: match results with
         | [] => []
         | _ => [ChatCall [Main.system_prompt; usr]]
         end.
Proof.
  intros Hq He req results usr. subst req results usr.
  unfold Main.query_route. cbn [Main.question Main.selected_text].
  rewrite (whitespace_only_false _ Hq), He.
  pose proof (search_qdrant_by_embedding_world m emb 5 w1) as Hw.
  destruct (Main.search_qdrant_by_embedding m emb 5 w1) as [results w2].
  cbn [fst snd] in *. subst w2.
  destruct results as [|r results]; [done |].
  match goal with |- context [Main.gemini_chat m ?sys ?usr ?n ?w2] =>
    pose proof (gemini_chat_world m sys usr n w2) as Hc;
    destruct (Main.gemini_chat m sys usr n w2) as [ans w3]
  end.
  cbn [snd] in Hc. subst w3.
  assert (forall x : Main.http_response,
            history (snd (x, log (ChatCall [Main.system_prompt;
              Main.user_prompt m (Main.boosted sel (map text (r :: results))) (strip q)])
              (log (SearchCall emb 5) w1)))
            = history w1 ++ [SearchCall emb 5; ChatCall [Main.system_prompt;
              Main.user_prompt m (Main.boosted sel (map text (r :: results))) (strip q)]])
    as Hend by (intros x; simpl; by rewrite <- app_assoc).
  destruct ans as [[ans|]|e]; try apply Hend.
  destruct (is_empty ans); [apply Hend |].
  destruct (Main.make_sources m (r :: results)); apply Hend.
Qed.

(** X3: for a question that is not cached, when the embedding endpoint
    answers 200 with a JSON object of one of the shapes
    [{"data": [{"embedding": v}, ...]}], [{"data": [[...], ...]}],
    [{"embeddings": [v, ...]}] or [{"embedding": v}] (a ["data"] list takes
    precedence over ["embeddings"], which takes precedence over
    ["embedding"]) and [v] is not [None], then [query_route] stores [v]
    under the trimmed question, writes the cache file, and searches with
    [v] and limit 5, in that order. *)
Theorem provider_embedding_is_query_vector (m : Main.services) (q : string)
    (sel : option string) (w : world) (d : list (string * pyval)) (v : pyval) :
  whitespace_only q = false ->
  embedding_cache w !! strip q = None ->
  Main.post_embed m (history w) [strip q] = Response 200 (Some (VDict d)) ->
  v <> VNone ->
  (exists e rest, lookup_key "data" d = Some (VList (VDict e :: rest))
                  /\ lookup_key "embedding" e = Some v)
  \/ (exists l rest, lookup_key "data" d = Some (VList (VList l :: rest))
                     /\ v = VList l)
  \/ ((forall l, lookup_key "data" d <> Some (VList l))
      /\ exists rest, lookup_key "embeddings" d = Some (VList (v :: rest)))
  \/ ((forall l, lookup_key "data" d <> Some (VList l))
      /\ (forall l, lookup_key "embeddings" d <> Some (VList l))
      /\ lookup_key "embedding" d = Some v) ->
  let w' := snd (Main.query_route m
                   {| Main.question := q; Main.selected_text := sel |} w) in
  embedding_cache w' !! strip q = Some v
  /\ exists evs, history w'
       = history w ++ [EmbedCall [strip q]; FileWrite; SearchCall v 5] ++ evs.
Proof.
  intros Hq Hmiss Hreply Hv Hshape w'. subst w'.
  assert (exists rest, Main.parse_embeddings (VDict d) = Ret (Some (v :: rest)))
    as [rest Hparse].
  { destruct Hshape as [(e & rest & Hd & He) | [(l & rest & Hd & ->) |
      [(Hd & rest & He) | (Hd & He & Hv')]]].
    - rewrite (parse_embeddings_data _ _ Hd). simpl. rewrite He. by eexists.
    - rewrite (parse_embeddings_data _ _ Hd). simpl. by eexists.
    - rewrite (parse_embeddings_no_data _ Hd), He. by eexists.
    - rewrite (parse_embeddings_no_data _ Hd), Hv'.
      destruct (lookup_key "embeddings" d) as [[]|];
        try (by destruct (He l)); by eexists. }
  pose proof (query_embedding_miss m (strip q) w Hmiss) as H. simpl in H.
  rewrite (gemini_embed_texts_parsed m _ _ _ Hreply), Hparse in H.
  assert (Main.embed_failed (Ret (Some (v :: rest))) = false) as Hok
    by (by destruct v).
  rewrite Hok in H.
  destruct (save_cache_world m (cache_store (strip q) v (log (EmbedCall [strip q]) w)))
    as (Hc & Hh & _).
  split.
  - destruct (query_route_after_embedding m
                {| Main.question := q; Main.selected_text := sel |} w
                (whitespace_only_false _ Hq)) as (Hc' & _).
    cbn [Main.question] in Hc'. rewrite Hc', H. cbn [snd]. rewrite Hc. simpl.
    apply lookup_insert_eq.
  - rewrite (query_route_calls_after_embedding m q sel w _ _ Hq H).
    rewrite Hh. simpl. rewrite <- !app_assoc. simpl. by eexists.
Qed.

Lemma provider_embedding_is_query_vector_witness :
  let m := Examples.main_services Examples.embed_ok (Some []) Examples.chat_ok in
  let w' := snd (Main.query_route m
                   {| Main.question := " q "; Main.selected_text := None |}
                   Examples.empty_world) in
  (whitespace_only " q " = false
   /\ embedding_cache Examples.empty_world !! strip " q " = None)
  /\ embedding_cache w' !! "q" = Some Examples.vector
  /\ exists evs, history w'
       = [] ++ [EmbedCall ["q"]; FileWrite; SearchCall Examples.vector 5] ++ evs.
Proof.
  intros m w'. split; [split; reflexivity |].
  apply (provider_embedding_is_query_vector m " q " None Examples.empty_world
           [("embedding", Examples.vector)] Examples.vector);
    try reflexivity; [discriminate |].
  right; right; right. repeat split; intros l; discriminate.
Defined.

(** ** Chat replies *)

Lemma rstrip_cons_nonspace c s :
  isspace c = false -> rstrip (String c s) = String c (rstrip s).
Proof. intros Hc. simpl. rewrite Hc. by destruct (rstrip s). Qed.

Lemma rstrip_idempotent s : rstrip (rstrip s) = rstrip s.
Proof.
  induction s as [|c s IH]; [done |]. simpl.
  destruct (rstrip s) as [|c' r] eqn:E.
  - destruct (isspace c) eqn:Hc; [done |]. simpl. by rewrite Hc.
  - change (rstrip (String c (String c' r)))
      with (match rstrip (String c' r) with
            | "" => if isspace c then "" else String c ""
            | r0 => String c r0
            end).
    by rewrite IH.
Qed.

Lemma lstrip_head s :
  lstrip s = "" \/ exists c r, lstrip s = String c r /\ isspace c = false.
Proof.
  induction s as [|c s IH]; [by left |]. simpl.
  destruct (isspace c) eqn:Hc; [done |]. right. by exists c, s.
Qed.

(** Stripping a stripped string changes nothing. *)
Lemma strip_idempotent s : strip (strip s) = strip s.
Proof.
  unfold strip. destruct (lstrip_head s) as [-> | (c & r & -> & Hc)]; [done |].
  rewrite (rstrip_cons_nonspace _ _ Hc). simpl lstrip. rewrite Hc.
  rewrite (rstrip_cons_nonspace _ _ Hc). by rewrite rstrip_idempotent.
Qed.

Lemma strings_of_texts texts : strings_of (map VStr texts) = Ret texts.
Proof. induction texts as [|t texts IH]; simpl; [done | by rewrite IH]. Qed.

(** The parts gathered from a content list whose items all carry a text. *)
Lemma output_parts_texts content texts :
  Forall2 (fun item s => exists it, item = VDict it
                                    /\ lookup_key "text" it = Some (VStr s))
          content texts ->
  Main.output_parts content = map VStr texts.
Proof.
  induction 1 as [|item s content texts (it & -> & Hit) _ IH]; [done |].
  unfold Main.output_parts in *. simpl. rewrite Hit. simpl. by rewrite IH.
Qed.

(** The text [extract_text] reads off a recognised shape. *)
Lemma extract_text_recognised (d : list (string * pyval)) (answer : string) :
  (exists out content texts,
      lookup_key "output" d = Some (VDict out)
      /\ lookup_key "content" out = Some (VList content)
      /\ Forall2 (fun item s => exists it, item = VDict it
                                  /\ lookup_key "text" it = Some (VStr s))
                 content texts
      /\ texts <> [] /\ answer = join " " texts)
  \/ (lookup_key "output" d = None
      /\ exists first rest msg,
           lookup_key "choices" d = Some (VList (VDict first :: rest))
           /\ lookup_key "message" first = Some (VDict msg)
           /\ lookup_key "content" msg = Some (VStr answer))
  \/ (lookup_key "output" d = None /\ lookup_key "choices" d = None
      /\ lookup_key "text" d = Some (VStr answer)) ->
  Main.extract_text (VDict d) = Ret (Some (strip answer)).
Proof.
  intros Hshape.
  unfold Main.extract_text.
  destruct Hshape as [(out & content & texts & Ho & Hc & Hitems & Hne & ->)
                     | [(Ho & first & rest & msg & Hc & Hm & Hcont)
                       | (Ho & Hc & Ht)]].
  - unfold Main.shape_output, dict_get. rewrite Ho, Hc.
    rewrite (output_parts_texts _ _ Hitems).
    unfold Main.joined_text, join_values.
    destruct texts as [|t texts]; [done |].
    change (map VStr (t :: texts)) with (VStr t :: map VStr texts).
    cbn [strings_of]. by rewrite strings_of_texts.
  - unfold Main.shape_output. rewrite Ho. cbn [bind].
    unfold Main.shape_choices. rewrite Hc. cbn [method_get bind].
    unfold dict_get. rewrite Hm.
    assert (truthy (VDict msg) = true) as -> by (by destruct msg).
    cbn [bind]. by rewrite Hcont.
  - unfold Main.shape_output. rewrite Ho. simpl.
    unfold Main.shape_choices. rewrite Hc. simpl. by rewrite Ht.
Qed.

(** X4: when the chat endpoint answers 200 with a JSON object of a
    recognised shape, [gemini_chat] returns the text it carries, stripped:
    the texts of [{"output": {"content": [{"text": s1}, ...]}}] joined by
    single spaces; failing an ["output"] entry, the string [s] of
    [{"choices": [{"message": {"content": s}}]}]; failing both, the string
    [s] of [{"text": s}]. *)
Theorem chat_text_of_recognised_shapes (m : Main.services) (sys usr : string)
    (n : Z) (w : world) (d : list (string * pyval)) (answer : string) :
  Main.post_chat m (history w) sys usr = Response 200 (Some (VDict d)) ->
  (exists out content texts,
      lookup_key "output" d = Some (VDict out)
      /\ lookup_key "content" out = Some (VList content)
      /\ Forall2 (fun item s => exists it, item = VDict it
                                  /\ lookup_key "text" it = Some (VStr s))
                 content texts
      /\ texts <> [] /\ answer = join " " texts)
  \/ (lookup_key "output" d = None
      /\ exists first rest msg,
           lookup_key "choices" d = Some (VList (VDict first :: rest))
           /\ lookup_key "message" first = Some (VDict msg)
           /\ lookup_key "content" msg = Some (VStr answer))
  \/ (lookup_key "output" d = None /\ lookup_key "choices" d = None
      /\ lookup_key "text" d = Some (VStr answer)) ->
  fst (Main.gemini_chat m sys usr n w) = Ret (Some (strip answer)).
Proof.
  intros Hreply Hshape. unfold Main.gemini_chat. rewrite Hreply.
  change (200 =? 200)%Z with true. cbn [negb fst].
  by rewrite (extract_text_recognised d answer Hshape).
Qed.

Lemma chat_text_of_recognised_shapes_witness :
  let m := Examples.main_services Examples.embed_ok None
             (Response 200 (Some (VDict
                [("choices", VList [VDict [("message",
                    VDict [("role", VStr "assistant");
                           ("content", VStr " An answer. ")])]])]))) in
  fst (Main.gemini_chat m "system" "user" 500 Examples.empty_world)
  = Ret (Some "An answer.").
Proof.
  intros m.
  apply (chat_text_of_recognised_shapes m "system" "user" 500 Examples.empty_world
           [("choices", VList [VDict [("message",
                VDict [("role", VStr "assistant");
                       ("content", VStr " An answer. ")])]])] " An answer. ");
    [reflexivity |].
  right; left. split; [reflexivity |]. by repeat eexists.
Defined.

(** X5: in [main.py], when chunks were found but the chat call fails
    (transport error, status other than 200) or yields a blank text, the
    response has status 200, the answer "Chat generation failed. Please try
    again later.", the metadata [chat_failed: true] and no source at all,
    although the search returned chunks. *)
Theorem main_chat_failure_response (m : Main.services) (q : string)
    (sel : option string) (w w1 w2 : world) (emb : pyval)
    (r : chunk) (results : list chunk) :
  whitespace_only q = false ->
  Main.query_embedding m (strip q) w = (Ret (Some emb), w1) ->
  Main.search_qdrant_by_embedding m emb 5 w1 = (r :: results, w2) ->
  let usr := Main.user_prompt m (Main.boosted sel (map text (r :: results))) (strip q) in
  Main.post_chat m (history w2) Main.system_prompt usr = ConnectionError
  \/ (exists status body,
        Main.post_chat m (history w2) Main.system_prompt usr = Response status body
        /\ status <> 200%Z)
  \/ (exists d s,
        Main.post_chat m (history w2) Main.system_prompt usr
        = Response 200 (Some (VDict d))
        /\ lookup_key "output" d = None /\ lookup_key "choices" d = None
        /\ lookup_key "text" d = Some (VStr s) /\ whitespace_only s = true) ->
  Main.query_route m {| Main.question := q; Main.selected_text := sel |} w
  = (Main.Ok Main.chat_failed, log (ChatCall [Main.system_prompt; usr]) w2)
  /\ Main.sources Main.chat_failed = []
  /\ Main.answer Main.chat_failed = "Chat generation failed. Please try again later."
  /\ Main.meta Main.chat_failed = [("chat_failed", VBool true)].
Proof.
  intros Hq He Hs usr Hreply. split; [| done].
  unfold Main.query_route. cbn [Main.question Main.selected_text].
  rewrite (whitespace_only_false _ Hq), He, Hs. fold usr.
  pose proof (gemini_chat_world m Main.system_prompt usr 500 w2) as Hw.
  destruct Hreply as [Hr | [(status & body & Hr & Hst) | (d & s & Hr & Ho & Hc & Ht & Hb)]].
  - unfold Main.gemini_chat in *. by rewrite Hr in *.
  - unfold Main.gemini_chat in *. rewrite Hr in *.
    apply Z.eqb_neq in Hst. by rewrite Hst in *.
  - assert (fst (Main.gemini_chat m Main.system_prompt usr 500 w2)
            = Ret (Some (strip s))) as Hans.
    { unfold Main.gemini_chat. rewrite Hr.
      change (200 =? 200)%Z with true. cbn [negb fst].
      rewrite (extract_text_recognised d s); [done |]. right; right. by repeat split. }
    destruct (Main.gemini_chat m Main.system_prompt usr 500 w2) as [ans w3].
    simpl in Hans, Hw. subst ans w3.
    by rewrite (strip_whitespace_only _ Hb).
Qed.

Lemma main_chat_failure_response_witness :
  let m := Examples.main_services Examples.embed_ok
             (Some [Examples.point "Intro" 0]) Examples.rate_limited in
  let w1 := snd (Main.query_embedding m "q" Examples.empty_world) in
  let w2 := log (SearchCall Examples.vector 5) w1 in
  let r := Main.chunk_of_point (Examples.point "Intro" 0) in
  whitespace_only "q" = false
  /\ fst (Main.query_route m {| Main.question := "q"; Main.selected_text := None |}
            Examples.empty_world)
     = Main.Ok Main.chat_failed.
Proof.
  intros m w1 w2 r. split; [reflexivity |].
  assert (Main.query_embedding m (strip "q") Examples.empty_world
          = (Ret (Some Examples.vector), w1)) as He by (vm_compute; reflexivity).
  assert (Main.search_qdrant_by_embedding m Examples.vector 5 w1 = ([r], w2)) as Hs
    by (vm_compute; reflexivity).
  destruct (main_chat_failure_response m "q" None Examples.empty_world w1 w2
              Examples.vector r [] eq_refl He Hs) as [Hroute _].
  - right; left. exists 429%Z, None. split; [reflexivity | discriminate].
  - by rewrite Hroute.
Defined.

(** ** A cache file that cannot be written *)

(** X6: in [app.py], when the provider returns an embedding for a text
    that is not cached but the cache file cannot be written,
    [get_embedding] returns the empty list, as after a failed call, so the
    search adapter returns no chunk and calls no index; the vector is in
    the in-memory cache all the same (the file is untouched), and the next
    lookup of the text returns it without a provider call. *)
Theorem app_failed_save_hides_embedding (a : App.services) (t : string)
    (v : pyval) (rest : list pyval) (w : world) :
  embedding_cache w !! t = None ->
  App.co_embed a (history w) t = App.EmbedResponse (v :: rest) ->
  App.file_writable a (history w ++ [EmbedCall [t]]) = false ->
  let w1 := snd (App.get_embedding a t w) in
  fst (App.get_embedding a t w) = VList []
  /\ history w1 = history w ++ [EmbedCall [t]; FileWrite]
  /\ embedding_cache w1 !! t = Some v
  /\ cache_file w1 = cache_file w
  /\ (forall k, App.search_qdrant a t k w = ([], w1))
  /\ App.get_embedding a t w1 = (v, w1).
Proof.
  intros Hmiss Hreply Hdisk w1. subst w1.
  pose proof (get_embedding_miss a t w Hmiss) as H. simpl in H.
  rewrite Hreply, Hdisk in H.
  assert (embedding_cache (snd (App.get_embedding a t w)) !! t = Some v) as Hc
    by (rewrite H; simpl; apply lookup_insert_eq).
  repeat split.
  - by rewrite H.
  - rewrite H. simpl. by rewrite <- app_assoc.
  - exact Hc.
  - by rewrite H.
  - intros k. unfold App.search_qdrant. by rewrite H.
  - by apply get_embedding_hit.
Qed.

Lemma app_failed_save_hides_embedding_witness :
  let a := Examples.app_services_read_only (App.EmbedResponse [Examples.vector])
             (Some [Examples.point "Intro" 0]) (App.ChatResponse "from the model") in
  let w1 := snd (App.get_embedding a "q" Examples.empty_world) in
  embedding_cache Examples.empty_world !! "q" = None
  /\ fst (App.get_embedding a "q" Examples.empty_world) = VList []
  /\ App.search_qdrant a "q" 5 Examples.empty_world = ([], w1)
  /\ App.get_embedding a "q" w1 = (Examples.vector, w1).
Proof.
  intros a w1. split; [reflexivity |].
  destruct (app_failed_save_hides_embedding a "q" Examples.vector []
              Examples.empty_world eq_refl eq_refl eq_refl)
    as (H1 & _ & _ & _ & H2 & H3).
  split; [exact H1 |]. split; [apply H2 | exact H3].
Defined.

(** ** Outbound calls per request *)

(** X7: a request to [main.py] makes at most one embedding call (followed
    by at most one write of the cache file), then at most one search call,
    with limit 5, then at most one chat call, and nothing else; it never
    calls the chat model without having searched. *)
Theorem main_calls_per_request (m : Main.services) (q : string)
    (sel : option string) (w : world) :
  exists E S C,
    calls_since w (snd (Main.query_route m
                          {| Main.question := q; Main.selected_text := sel |} w))
    = E ++ S ++ C
    /\ (E = [] \/ E = [EmbedCall [strip q]] \/ E = [EmbedCall [strip q]; FileWrite])
    /\ (S = [] \/ exists emb, S = [SearchCall emb 5])
    /\ (C = [] \/ exists usr, C = [ChatCall [Main.system_prompt; usr]])
    /\ (S = [] -> C = []).
Proof.
  destruct (whitespace_only q) eqn:Hq.
  - rewrite (query_route_blank m q sel w Hq). exists [], [], [].
    rewrite calls_since_refl. by repeat split; auto.
  - destruct (query_embedding_calls m (strip q) w) as (E & Hh & HE).
    destruct (Main.query_embedding m (strip q) w) as [[[emb|]|e] w1] eqn:He;
      cbn [snd] in Hh.
    + pose proof (query_route_calls_after_embedding m q sel w emb w1 Hq He) as H.
      simpl in H. exists E, [SearchCall emb 5].
      destruct (fst (Main.search_qdrant_by_embedding m emb 5 w1)) as [|r results].
      * exists []. split; [apply calls_since_app; by rewrite H, Hh, <- app_assoc |].
        split; [exact HE |]. split; [right; by eexists |]. split; [by left | done].
      * eexists [ChatCall _].
        split; [apply calls_since_app; by rewrite H, Hh, <- app_assoc |].
        split; [exact HE |]. split; [right; by eexists |].
        split; [right; by eexists | done].
    + exists E, [], []. split; [| by repeat split; auto].
      apply calls_since_app. unfold Main.query_route. cbn [Main.question].
      rewrite (whitespace_only_false _ Hq), He. by rewrite app_nil_r.
    + exists E, [], []. split; [| by repeat split; auto].
      apply calls_since_app. unfold Main.query_route. cbn [Main.question].
      rewrite (whitespace_only_false _ Hq), He. by rewrite app_nil_r.
Qed.

(** ** Status codes of [app.py] *)

Lemma app_search_results (a : App.services) q k w :
  fst (App.search_qdrant a q k w) = []
  \/ exists tr vec pts,
       App.qdrant_search a tr vec k = Some pts
       /\ fst (App.search_qdrant a q k w) = map App.chunk_of_point pts.
Proof.
  unfold App.search_qdrant.
  destruct (App.get_embedding a q w) as [e w1].
  destruct (negb (truthy e)); [by left |].
  destruct (App.qdrant_search a (history w1) e k) as [pts|] eqn:Hs; [| by left].
  right. by exists (history w1), e, pts.
Qed.

Lemma app_make_sources_total (a : App.services) rs :
  Forall (fun r => exists c, chapter r = VStr c) rs ->
  exists ss, App.make_sources a rs = Ret ss.
Proof.
  induction 1 as [|r rs [c Hc] _ [ss IH]]; [by exists [] |].
  simpl. unfold App.make_source. rewrite Hc. simpl. rewrite IH. simpl. by eexists.
Qed.

Lemma app_make_sources_raises (a : App.services) rs r :
  r ∈ rs -> chapter r = VNone ->
  App.make_sources a rs = Raise ValidationError.
Proof.
  intros Hin Hr. induction rs as [|r0 rs IH]; [by apply elem_of_nil in Hin |].
  simpl. apply elem_of_cons in Hin as [<- | Hin].
  - unfold App.make_source. by rewrite Hr.
  - rewrite (IH Hin). unfold App.make_source.
    destruct (chapter r0); simpl; try done; by destruct (App.coerce_str a _).
Qed.

(** X8: [app.py] answers every question that is not blank with status
    200, whatever the embedding, search and chat services do, provided the
    chapter stored with each point the index returns is a string or is
    missing. *)
Theorem app_failures_answered_200 (a : App.services) (q : string)
    (sel : option string) (w : world) :
  whitespace_only q = false ->
  (forall tr vec k pts,
      App.qdrant_search a tr vec k = Some pts ->
      Forall (fun p => lookup_key "chapter" (payload_or_empty p) = None
                       \/ exists c, lookup_key "chapter" (payload_or_empty p)
                                    = Some (VStr c)) pts) ->
  exists body,
    fst (App.query_chatbot a {| App.question := q; App.selected_text := sel |} w)
    = App.Ok body
    /\ App.status_of (App.Ok body) = 200%Z.
Proof.
  intros Hq Hidx.
  assert (exists ss, App.make_sources a (fst (App.search_qdrant a (strip q) 5 w)) = Ret ss)
    as [ss Hss].
  { apply app_make_sources_total.
    destruct (app_search_results a (strip q) 5 w) as [-> | (tr & vec & pts & Hs & ->)];
      [constructor |].
    apply Forall_map. eapply Forall_impl; [by eapply Hidx |].
    intros p Hp. unfold App.chunk_of_point, dict_get. simpl.
    destruct Hp as [-> | [c ->]]; by eexists. }
  unfold App.query_chatbot. cbn [App.question App.selected_text].
  rewrite (whitespace_only_false _ Hq), (whitespace_only_false_nonempty _ Hq).
  cbn [orb].
  destruct (App.search_qdrant a (strip q) 5 w) as [results w1]. cbn [fst] in Hss.
  destruct (App.generate_answer a _ (strip q) w1) as [answer w2].
  rewrite Hss. by eexists.
Qed.

Lemma app_failures_answered_200_witness :
  let a := Examples.app_services (App.EmbedResponse [Examples.vector])
             (Some [Examples.point "Intro" 0; Examples.bare_point]) App.ChatError in
  whitespace_only "q" = false
  /\ exists body,
       fst (App.query_chatbot a {| App.question := "q"; App.selected_text := None |}
              Examples.empty_world) = App.Ok body
       /\ App.status_of (App.Ok body) = 200%Z.
Proof.
  intros a. split; [reflexivity |].
  apply (app_failures_answered_200 a "q" None Examples.empty_world eq_refl).
  intros tr vec k pts [= <-].
  constructor; [right; by exists "Intro" |].
  constructor; [by left | constructor].
Defined.

(** X9: in [app.py] a point whose payload has the chapter [null] (the key
    is there, so the default "Unknown" does not apply) makes the request
    end with status 500: building the source list raises a validation
    error, after the chat call has been made. *)
Theorem app_null_chapter_fails (a : App.services) (q : string)
    (sel : option string) (w : world) (r : chunk) :
  whitespace_only q = false ->
  r ∈ fst (App.search_qdrant a (strip q) 5 w) ->
  chapter r = VNone ->
  let results := fst (App.search_qdrant a (strip q) 5 w) in
  let w1 := snd (App.search_qdrant a (strip q) 5 w) in
  let contexts := App.boosted sel (map text results) in
  App.query_chatbot a {| App.question := q; App.selected_text := sel |} w
  = (App.InternalServerError ValidationError,
     log (ChatCall [App.prompt a contexts (strip q)]) w1).
Proof.
  intros Hq Hin Hr results w1 contexts. subst results w1 contexts.
  unfold App.query_chatbot. cbn [App.question App.selected_text].
  rewrite (whitespace_only_false _ Hq), (whitespace_only_false_nonempty _ Hq).
  cbn [orb].
  destruct (App.search_qdrant a (strip q) 5 w) as [results w1]. cbn [fst snd] in *.
  rewrite (app_make_sources_raises a results r Hin Hr).
  assert (exists c cs, App.boosted sel (map text results) = c :: cs) as (c & cs & ->).
  { unfold App.boosted. destruct (selection sel); [by eauto |].
    destruct results as [|r0 results]; [by apply elem_of_nil in Hin | by eexists _, _]. }
  by rewrite generate_answer_some.
Qed.

Lemma app_null_chapter_fails_witness :
  let a := Examples.app_services (App.EmbedResponse [Examples.vector])
             (Some [Examples.null_chapter_point]) (App.ChatResponse "from the model") in
  let r := App.chunk_of_point Examples.null_chapter_point in
  (whitespace_only "q" = false
   /\ r ∈ fst (App.search_qdrant a (strip "q") 5 Examples.empty_world)
   /\ chapter r = VNone)
  /\ fst (App.query_chatbot a {| App.question := "q"; App.selected_text := None |}
            Examples.empty_world)
     = App.InternalServerError ValidationError.
Proof.
  intros a r.
  assert (r ∈ fst (App.search_qdrant a (strip "q") 5 Examples.empty_world)) as Hin.
  { change (fst (App.search_qdrant a (strip "q") 5 Examples.empty_world)) with [r].
    apply list_elem_of_here. }
  split; [split; [reflexivity | split; [exact Hin | reflexivity]] |].
  by rewrite (app_null_chapter_fails a "q" None Examples.empty_world r
                eq_refl Hin eq_refl).
Defined.

(** ** Number of chunks *)

Lemma split_from_whitespace_only s :
  whitespace_only s = true -> split_from "" s = [].
Proof.
  induction s as [|c s IH]; [done |]. simpl.
  intros [Hc Hs]%andb_true_iff. rewrite Hc. simpl. auto.
Qed.

Section ChunkCount.
Import CreateEmbeddings.

(** X10: [chunk_text] returns one chunk per started stride of 180 words:
    a text of [n] words gives [ceil(n / 180)] chunks.  A text that is empty
    or all whitespace gives no chunk; a text of at most 180 words gives a
    single chunk, its words joined by single spaces. *)
Theorem chunk_text_count (text : string) (chunks : list string) :
  chunk_text text = Some chunks ->
  length chunks = (length (split text) + 179) / 180
  /\ (whitespace_only text = true -> chunks = [])
  /\ (0 < length (split text) <= 180 -> chunks = [join " " (split text)]).
Proof.
  intros Hrun.
  change (chunk_text text) with
    (chunk_text_fuel (S (length (split text))) text) in Hrun.
  pose proof (fun k => chunk_text_fuel_lookup _ _ _ k Hrun) as Hk.
  assert (180 * length chunks >= length (split text)) as Hup.
  { pose proof (Hk (length chunks)) as H. rewrite lookup_ge_None_2 in H by lia.
    destruct (Nat.ltb_spec (180 * length chunks) (length (split text))); [done | lia]. }
  assert (forall k, k < length chunks -> 180 * k < length (split text)) as Hlow.
  { intros k Hlt. pose proof (Hk k) as H.
    destruct (lookup_lt_is_Some_2 chunks k Hlt) as [c Hc]. rewrite Hc in H.
    destruct (Nat.ltb_spec (180 * k) (length (split text))); [done | discriminate]. }
  assert (length chunks = (length (split text) + 179) / 180) as Hlen.
  { destruct (length chunks) as [|L] eqn:EL.
    - assert (length (split text) = 0) as -> by lia. reflexivity.
    - specialize (Hlow L ltac:(lia)).
      apply (Nat.div_unique _ 180 _ (length (split text) + 179 - 180 * S L)); lia. }
  split; [exact Hlen |]. split.
  - intros Hw. unfold split in Hlen. rewrite (split_from_whitespace_only _ Hw) in Hlen.
    simpl in Hlen. by destruct chunks.
  - intros [Hpos Hle].
    assert (length chunks = 1) as H1.
    { rewrite Hlen. symmetry.
      apply (Nat.div_unique _ 180 _ (length (split text) - 1)); lia. }
    destruct chunks as [|c [|c' chunks]]; try done.
    pose proof (Hk 0) as H0. simpl in H0.
    destruct (Nat.ltb_spec 0 (length (split text))); [| lia].
    injection H0 as ->. do 2 f_equal.
    unfold slice. rewrite drop_0. apply take_ge. lia.
Qed.

Lemma chunk_text_count_witness :
  chunk_text (document 3) = Some ["w w w"]
  /\ length ["w w w"] = (length (split (document 3)) + 179) / 180.
Proof.
  assert (chunk_text (document 3) = Some ["w w w"]) as H by reflexivity.
  split; [exact H |].
  exact (proj1 (chunk_text_count (document 3) ["w w w"] H)).
Defined.

End ChunkCount.

(** ** main2.py: the conversation log *)

Section ConversationLog.
Variable sv : Main2.services.

Lemma deque_append_drop x d :
  length d <= 7 ->
  Main2.deque_append x d = drop (S (length d) - 7) (d ++ [x]).
Proof.
  intros Hlen. unfold Main2.deque_append, Main2.maxlen.
  destruct (Nat.ltb_spec (length d) 7).
  - by replace (S (length d) - 7) with 0 by lia.
  - replace (S (length d) - 7) with 1 by lia.
    rewrite drop_app_le; [done |]. lia.
Qed.

Lemma deque_append_twice x y d :
  length d <= 7 ->
  Main2.deque_append y (Main2.deque_append x d)
  = drop (length d + 2 - 7) (d ++ [x; y]).
Proof.
  intros Hlen. rewrite (deque_append_drop x d Hlen).
  assert (length (drop (S (length d) - 7) (d ++ [x])) <= 7) as Hlen'
    by (rewrite length_drop, length_app; simpl; lia).
  rewrite deque_append_drop by done.
  rewrite length_drop, length_app. simpl length.
  rewrite <- drop_app_le by (rewrite length_app; simpl; lia).
  rewrite drop_drop, <- app_assoc. simpl. f_equal. lia.
Qed.

(** The outcomes of [chat_endpoint]. *)
Lemma chat_endpoint_cases req w :
  (exists msg w1, Main2.chat_endpoint sv req w = (Main2.HTTPException 500 msg, w1)
                  /\ Main2.conversation_history w1 = Main2.conversation_history w
                  /\ Main2.models_ready w1 = Main2.models_ready w
                  /\ (Main2.models_ready w = false -> w1 = w))
  \/ (exists response srcs ts w2,
        let h := Main2.deque_append
                   {| Main2.role := "assistant"; Main2.content := response;
                      Main2.timestamp := ts |}
                   (Main2.deque_append
                      {| Main2.role := "user"; Main2.content := Main2.query req;
                         Main2.timestamp := ts |}
                      (Main2.conversation_history w)) in
        Main2.chat_endpoint sv req w
        = (Main2.Ok {| Main2.answer := response; Main2.sources := srcs;
                       Main2.history_sent := h |},
           Main2.set_history h w2)
        /\ Main2.models_ready w2 = true /\ Main2.models_ready w = true).
Proof.
  unfold Main2.chat_endpoint, Main2.get_rag_chain.
  destruct (Main2.models_ready w) eqn:Hr; simpl;
    [| left; do 2 eexists; by repeat split].
  destruct (Main2.embed_query sv (Main2.calls w) (Main2.query req)) as [v|msg];
    [| left; do 2 eexists; by repeat split].
  destruct (Main2.index_query sv _ v 5) as [ms|msg];
    [| left; do 2 eexists; by repeat split].
  destruct (Main2.gather sv ms [] []) as [[docs srcs]|e];
    [| left; do 2 eexists; by repeat split].
  destruct (Main2.invoke sv _ _ _ _) as [response|msg];
    [| left; do 2 eexists; by repeat split].
  right. do 4 eexists. by repeat split.
Qed.

(** What a successful request does to the log. *)
Lemma chat_appends_exchange_aux (req : Main2.ChatRequest) (w : Main2.world)
    (body : Main2.ChatResponse) :
  length (Main2.conversation_history w) <= 7 ->
  fst (Main2.chat_endpoint sv req w) = Main2.Ok body ->
  let h := Main2.conversation_history w in
  let h' := Main2.conversation_history (snd (Main2.chat_endpoint sv req w)) in
  exists ts,
    h' = drop (length h + 2 - 7)
           (h ++ [ {| Main2.role := "user"; Main2.content := Main2.query req;
                      Main2.timestamp := ts |};
                   {| Main2.role := "assistant"; Main2.content := Main2.answer body;
                      Main2.timestamp := ts |} ])
    /\ Main2.history_sent body = h'
    /\ length h' = Nat.min 7 (length h + 2).
Proof.
  intros Hlen Hok h h'. subst h h'.
  destruct (chat_endpoint_cases req w)
    as [(msg & w1 & Hc & _) | (response & srcs & ts & w2 & Hc & _)];
    rewrite Hc in Hok |- *; [done |].
  cbn [fst snd] in *. injection Hok as <-. cbn [Main2.answer Main2.history_sent].
  unfold Main2.set_history. cbn [Main2.conversation_history].
  exists ts. rewrite deque_append_twice by done.
  split; [done |]. split; [done |].
  rewrite length_drop, length_app. cbn [length]. lia.
Qed.

(** X11: a successful [/chat] request appends the question and the answer,
    with one timestamp, to the shared log and keeps its last seven entries;
    the response carries the log as it is afterwards. *)
Theorem chat_appends_exchange (req : Main2.ChatRequest) (w : Main2.world)
    (body : Main2.ChatResponse) :
  length (Main2.conversation_history w) <= 7 ->
  fst (Main2.chat_endpoint sv req w) = Main2.Ok body ->
  let h := Main2.conversation_history w in
  let h' := Main2.conversation_history (snd (Main2.chat_endpoint sv req w)) in
  exists ts,
    h' = drop (length h + 2 - 7)
           (h ++ [ {| Main2.role := "user"; Main2.content := Main2.query req;
                      Main2.timestamp := ts |};
                   {| Main2.role := "assistant"; Main2.content := Main2.answer body;
                      Main2.timestamp := ts |} ])
    /\ Main2.history_sent body = h'
    /\ length h' = Nat.min 7 (length h + 2).
Proof. apply chat_appends_exchange_aux. Qed.

(** X12: a [/chat] request that fails (clients not initialised, or an
    exception from the embedding model, the index, the reading of a match
    or the chain) is answered with status 500 and leaves the log as it
    was; when the clients are not initialised no call is made. *)
Theorem chat_failure_keeps_log (req : Main2.ChatRequest) (w : Main2.world)
    (status : Z) (detail : string) :
  fst (Main2.chat_endpoint sv req w) = Main2.HTTPException status detail ->
  status = 500%Z
  /\ Main2.conversation_history (snd (Main2.chat_endpoint sv req w))
     = Main2.conversation_history w
  /\ (Main2.models_ready w = false -> snd (Main2.chat_endpoint sv req w) = w).
Proof.
  intros Hfail.
  destruct (chat_endpoint_cases req w)
    as [(msg & w1 & Hc & Hh & _ & Hw) | (response & srcs & ts & w2 & Hc & _)];
    rewrite Hc in Hfail |- *; [| done].
  cbn [fst snd] in *. by injection Hfail as <- <-.
Qed.

End ConversationLog.

Lemma chat_appends_exchange_witness :
  let sv := Examples.main2_services (Main2.Returned Examples.vector)
              (Main2.Returned []) (Main2.Returned "An answer.") in
  let body := {| Main2.answer := "An answer."; Main2.sources := [];
                 Main2.history_sent :=
                   [ {| Main2.role := "user"; Main2.content := "q";
                        Main2.timestamp := "2025-01-01T00:00:00" |};
                     {| Main2.role := "assistant"; Main2.content := "An answer.";
                        Main2.timestamp := "2025-01-01T00:00:00" |} ] |} in
  (length (Main2.conversation_history Main2.started) <= 7
   /\ fst (Main2.chat_endpoint sv (Examples.chat_request "q") Main2.started)
      = Main2.Ok body)
  /\ length (Main2.conversation_history
               (snd (Main2.chat_endpoint sv (Examples.chat_request "q") Main2.started)))
     = 2.
Proof.
  intros sv body.
  assert (length (Main2.conversation_history Main2.started) <= 7) as Hlen
    by (simpl; lia).
  assert (fst (Main2.chat_endpoint sv (Examples.chat_request "q") Main2.started)
          = Main2.Ok body) as Hok by reflexivity.
  split; [by split |].
  destruct (chat_appends_exchange sv (Examples.chat_request "q") Main2.started body
              Hlen Hok) as (ts & _ & _ & Hl).
  exact Hl.
Defined.

Lemma chat_failure_keeps_log_witness :
  let sv := Examples.main2_services (Main2.Returned Examples.vector)
              (Main2.Returned []) (Main2.Failed "the model is overloaded") in
  fst (Main2.chat_endpoint sv (Examples.chat_request "q") Main2.started)
  = Main2.HTTPException 500 "the model is overloaded"
  /\ Main2.conversation_history
       (snd (Main2.chat_endpoint sv (Examples.chat_request "q") Main2.started))
     = Main2.conversation_history Main2.started.
Proof.
  intros sv.
  assert (fst (Main2.chat_endpoint sv (Examples.chat_request "q") Main2.started)
          = Main2.HTTPException 500 "the model is overloaded") as Hfail
    by reflexivity.
  split; [exact Hfail |].
  exact (proj1 (proj2 (chat_failure_keeps_log sv (Examples.chat_request "q")
                         Main2.started 500 "the model is overloaded" Hfail))).
Defined.

Section LogPattern.
Variable sv : Main2.services.

Lemma exchanges_length n :
  length (concat (repeat ["user"; "assistant"] n)) = 2 * n.
Proof. induction n as [|n IH]; simpl; [done | rewrite IH; lia]. Qed.

Lemma exchanges_snoc n :
  concat (repeat ["user"; "assistant"] (S n))
  = concat (repeat ["user"; "assistant"] n) ++ ["user"; "assistant"].
Proof.
  induction n as [|n IH]; [done |].
  change (concat (repeat ["user"; "assistant"] (S (S n))))
    with (["user"; "assistant"] ++ concat (repeat ["user"; "assistant"] (S n))).
  rewrite IH at 1. by rewrite app_assoc.
Qed.

(** One more exchange, on the roles. *)
Lemma roles_after_step n :
  Main2.roles_after (S n)
  = drop (length (Main2.roles_after n) + 2 - 7)
         (Main2.roles_after n ++ ["user"; "assistant"]).
Proof.
  unfold Main2.roles_after, Main2.maxlen.
  rewrite exchanges_snoc, length_drop, exchanges_length.
  rewrite <- drop_app_le by (rewrite exchanges_length; lia).
  rewrite drop_drop. f_equal. lia.
Qed.

Lemma roles_after_full n :
  4 <= n ->
  Main2.roles_after n
  = ["assistant"; "user"; "assistant"; "user"; "assistant"; "user"; "assistant"].
Proof.
  induction 1 as [|n Hn IH]; [reflexivity |].
  rewrite roles_after_step, IH. reflexivity.
Qed.

Lemma chat_endpoint_answers req w :
  Main2.always_answers sv -> Main2.models_ready w = true ->
  exists body, fst (Main2.chat_endpoint sv req w) = Main2.Ok body
               /\ Main2.models_ready (snd (Main2.chat_endpoint sv req w)) = true.
Proof.
  intros (He & Hi & Hv) Hr. unfold Main2.chat_endpoint, Main2.get_rag_chain.
  rewrite Hr. simpl.
  destruct (He (Main2.calls w) (Main2.query req)) as [v ->].
  destruct (Hi (Main2.calls w ++ [Main2.EmbedQuery (Main2.query req)]) v 5%Z)
    as (ms & docs & srcs & -> & ->).
  match goal with |- context [Main2.invoke sv ?tr ?sys ?ctx ?q] =>
    destruct (Hv tr sys ctx q) as [r ->] end.
  by eexists.
Qed.

Lemma serve_roles reqs : forall w n,
  Main2.always_answers sv -> Main2.models_ready w = true ->
  map Main2.role (Main2.conversation_history w) = Main2.roles_after n ->
  map Main2.role (Main2.conversation_history
                    (Main2.serve sv (map Main2.PostChat reqs) w))
  = Main2.roles_after (n + length reqs).
Proof.
  induction reqs as [|req reqs IH]; intros w n Hsv Hr Hn.
  - simpl. by rewrite Nat.add_0_r.
  - simpl. replace (n + S (length reqs)) with (S n + length reqs) by lia.
    destruct (chat_endpoint_answers req w Hsv Hr) as (body & Hok & Hr').
    apply IH; [done | done |].
    assert (length (Main2.conversation_history w) <= 7) as Hlen.
    { rewrite <- (length_map Main2.role), Hn.
      unfold Main2.roles_after, Main2.maxlen.
      rewrite length_drop, exchanges_length. lia. }
    destruct (chat_appends_exchange_aux sv req w body Hlen Hok) as (ts & -> & _).
    rewrite <- skipn_map, map_app. simpl map. rewrite Hn, roles_after_step.
    by rewrite <- (length_map Main2.role), Hn.
Qed.

End LogPattern.

(** X13: while every call to the clients returns, the shared log of
    [main2.py] holds, from the fourth [/chat] request on, exactly seven
    entries, and the oldest one is an answer: with a capacity of 7 and two
    entries per exchange, the question of the oldest exchange kept has
    been discarded. *)
Theorem log_starts_with_answer (sv : Main2.services)
    (reqs : list Main2.ChatRequest) :
  Main2.always_answers sv ->
  4 <= length reqs ->
  map Main2.role
      (Main2.conversation_history
         (Main2.serve sv (map Main2.PostChat reqs) Main2.started))
  = ["assistant"; "user"; "assistant"; "user"; "assistant"; "user"; "assistant"].
Proof.
  intros Hsv Hlen.
  rewrite (serve_roles sv reqs Main2.started 0 Hsv eq_refl eq_refl).
  by apply roles_after_full.
Qed.

Lemma log_starts_with_answer_witness :
  let sv := Examples.main2_services (Main2.Returned Examples.vector)
              (Main2.Returned []) (Main2.Returned "An answer.") in
  let reqs := map Examples.chat_request ["one"; "two"; "three"; "four"] in
  (Main2.always_answers sv /\ 4 <= length reqs)
  /\ map Main2.role
       (Main2.conversation_history
          (Main2.serve sv (map Main2.PostChat reqs) Main2.started))
     = ["assistant"; "user"; "assistant"; "user"; "assistant"; "user"; "assistant"].
Proof.
  intros sv reqs.
  assert (Main2.always_answers sv) as Hsv.
  { split; [| split].
    - intros tr q. by eexists.
    - intros tr v k. by exists [], [], [].
    - intros tr sys ctx q. by eexists. }
  assert (4 <= length reqs) as Hlen by (simpl; lia).
  split; [by split |].
  exact (log_starts_with_answer sv reqs Hsv Hlen).
Defined.

(** ** main2.py: the source list *)

Section SourceList.
Variable sv : Main2.services.

Lemma entry_in_false e l :
  Main2.entry_in sv e l = false ->
  forall x, x ∈ l -> Main2.same_entry sv x e = false.
Proof.
  unfold Main2.entry_in, Main2.same_entry. intros H x Hx.
  induction l as [|y l IH]; [by apply elem_of_nil in Hx |].
  simpl in H. apply orb_false_iff in H as [Hy Hl].
  apply elem_of_cons in Hx as [-> | Hx]; [done | by apply IH].
Qed.

(** The loop keeps the source list free of repetitions and every entry
    under [/docs/]. *)
Lemma gather_sources ms : forall docs srcs docs' srcs',
  Main2.gather sv ms docs srcs = Ret (docs', srcs') ->
  (forall i j x y, i < j -> srcs !! i = Some x -> srcs !! j = Some y ->
                   Main2.same_entry sv x y = false) ->
  (forall x, x ∈ srcs -> exists rest, Main2.source x = "/docs/" +:+ rest) ->
  (forall i j x y, i < j -> srcs' !! i = Some x -> srcs' !! j = Some y ->
                   Main2.same_entry sv x y = false)
  /\ (forall x, x ∈ srcs' -> exists rest, Main2.source x = "/docs/" +:+ rest)
  /\ length srcs' <= length srcs + length ms
  /\ length docs' = length docs + length ms.
Proof.
  induction ms as [|mt ms IH]; intros docs srcs docs' srcs' Hrun Hd Hp.
  - simpl in Hrun. injection Hrun as <- <-. repeat split; [done | done | lia | simpl; lia].
  - simpl in Hrun.
    destruct (Main2.metadata mt) as [md|]; [| done].
    destruct (dict_get md "source" (VStr "N/A")) as [| | | |source_path| |]; try done.
    destruct (Main2.page_content sv _) as [content|]; [| done].
    set (entry := {| Main2.source := Main2.doc_url source_path;
                     Main2.filename := dict_get md "filename" (VStr "N/A") |}) in *.
    destruct (Main2.entry_in sv entry srcs) eqn:Hin.
    + destruct (IH _ _ _ _ Hrun Hd Hp) as (H1 & H2 & H3 & H4).
      repeat split; [done | done | simpl; lia |].
      rewrite H4, length_app. simpl. lia.
    + destruct (IH _ _ _ _ Hrun) as (H1 & H2 & H3 & H4).
      * intros i j x y Hij Hx Hy.
        destruct (decide (j < length srcs)) as [Hj | Hj].
        -- rewrite lookup_app_l in Hx, Hy by lia. exact (Hd i j x y Hij Hx Hy).
        -- rewrite lookup_app_r in Hy by lia.
           destruct (j - length srcs) as [|k] eqn:Hk; [| by destruct k].
           injection Hy as <-.
           rewrite lookup_app_l in Hx by lia.
           apply (entry_in_false _ _ Hin). by eapply list_elem_of_lookup_2.
      * intros x [Hx | Hx]%elem_of_app; [by apply Hp |].
        apply list_elem_of_singleton in Hx as ->.
        by eexists.
      * repeat split; [done | done | |].
        -- rewrite length_app in H3. simpl in *. lia.
        -- rewrite H4, length_app. simpl. lia.
Qed.

(** X14: the source list of a [/chat] response has no repeated entry (no
    two entries that [in] takes for the same URL and file name), and every
    URL in it starts with "/docs/". *)
Theorem chat_sources_not_repeated (req : Main2.ChatRequest) (w : Main2.world)
    (body : Main2.ChatResponse) :
  fst (Main2.chat_endpoint sv req w) = Main2.Ok body ->
  (forall i j x y, i < j ->
      Main2.sources body !! i = Some x -> Main2.sources body !! j = Some y ->
      Main2.same_entry sv x y = false)
  /\ (forall x, x ∈ Main2.sources body ->
        exists rest, Main2.source x = "/docs/" +:+ rest).
Proof.
  unfold Main2.chat_endpoint, Main2.get_rag_chain.
  destruct (negb (Main2.models_ready w)); [done |].
  destruct (Main2.embed_query sv _ _) as [v|msg]; [| done].
  destruct (Main2.index_query sv _ v 5) as [ms|msg]; [| done].
  destruct (Main2.gather sv ms [] []) as [[docs srcs]|e] eqn:Hg; [| done].
  destruct (Main2.invoke sv _ _ _ _) as [response|msg]; [| done].
  intros [= <-]. cbn [Main2.sources].
  destruct (gather_sources ms [] [] docs srcs Hg) as (H1 & H2 & _).
  - intros i j x y _ Hx. by rewrite lookup_nil in Hx.
  - intros x Hx. by apply elem_of_nil in Hx.
  - by split.
Qed.

End SourceList.

Lemma chat_sources_not_repeated_witness :
  let sv := Examples.main2_services (Main2.Returned Examples.vector)
              (Main2.Returned [Examples.index_match_of "intro.md" "intro.md";
                               Examples.index_match_of "intro.md" "intro.md";
                               Examples.index_match_of "ros/nodes.md" "nodes.md"])
              (Main2.Returned "An answer.") in
  let body :=
    {| Main2.answer := "An answer.";
       Main2.sources := [ {| Main2.source := "/docs/intro";
                             Main2.filename := VStr "intro.md" |};
                          {| Main2.source := "/docs/ros/nodes";
                             Main2.filename := VStr "nodes.md" |} ];
       Main2.history_sent :=
         [ {| Main2.role := "user"; Main2.content := "q";
              Main2.timestamp := "2025-01-01T00:00:00" |};
           {| Main2.role := "assistant"; Main2.content := "An answer.";
              Main2.timestamp := "2025-01-01T00:00:00" |} ] |} in
  fst (Main2.chat_endpoint sv (Examples.chat_request "q") Main2.started) = Main2.Ok body
  /\ forall x, x ∈ Main2.sources body ->
       exists rest, Main2.source x = "/docs/" +:+ rest.
Proof.
  intros sv body.
  assert (fst (Main2.chat_endpoint sv (Examples.chat_request "q") Main2.started)
          = Main2.Ok body) as Hok by (vm_compute; reflexivity).
  split; [exact Hok |].
  exact (proj2 (chat_sources_not_repeated sv (Examples.chat_request "q")
                  Main2.started body Hok)).
Defined.

(** ** main2.py: the URL of a document *)

Lemma prefix_cons a b s1 s2 :
  String.prefix (String a s1) (String b s2) = Ascii.eqb a b && String.prefix s1 s2.
Proof.
  simpl. destruct (ascii_dec a b) as [-> | Hne].
  - by rewrite Ascii.eqb_refl.
  - by apply Ascii.eqb_neq in Hne as ->.
Qed.

(** A stretch without the first character of [old] is copied as it is. *)
Lemma replace_from_without_first c old new s t :
  has_char c s = false ->
  replace_from 0 (String c old) new (s +:+ t)
  = s +:+ replace_from 0 (String c old) new t.
Proof.
  induction s as [|x s IH]; intros Hs; [done |].
  simpl in Hs. apply orb_false_iff in Hs as [Hx Hs].
  rewrite !append_cons. cbn [replace_from].
  rewrite prefix_cons, Ascii.eqb_sym, Hx. cbn [andb].
  by rewrite IH.
Qed.

(** X15: for a path whose stem holds no full stop, the URL of a [.md]
    document is "/docs/" and the stem, and the URL of an [.mdx] document is
    "/docs/", the stem and an "x": [.md] is removed first, so the removal of
    [.mdx] finds nothing left to remove. *)
Theorem doc_url_of_markdown_paths (stem : string) :
  has_char "." stem = false ->
  Main2.doc_url (stem +:+ ".md") = "/docs/" +:+ stem
  /\ Main2.doc_url (stem +:+ ".mdx") = "/docs/" +:+ stem +:+ "x".
Proof.
  intros Hstem. unfold Main2.doc_url, replace. split.
  - rewrite (replace_from_without_first "." "md" "" stem ".md" Hstem).
    change (replace_from 0 ".md" "" ".md") with "".
    rewrite (replace_from_without_first "." "mdx" "" stem "" Hstem).
    change (replace_from 0 ".mdx" "" "") with "".
    by rewrite append_empty_r.
  - rewrite (replace_from_without_first "." "md" "" stem ".mdx" Hstem).
    change (replace_from 0 ".md" "" ".mdx") with "x".
    rewrite (replace_from_without_first "." "mdx" "" stem "x" Hstem).
    by change (replace_from 0 ".mdx" "" "x") with "x".
Qed.

Lemma doc_url_of_markdown_paths_witness :
  has_char "." "ros/nodes" = false
  /\ Main2.doc_url "ros/nodes.md" = "/docs/ros/nodes"
  /\ Main2.doc_url "ros/nodes.mdx" = "/docs/ros/nodesx".
Proof.
  split; [reflexivity |].
  exact (doc_url_of_markdown_paths "ros/nodes" eq_refl).
Defined.

(** ** embeddings.py: the cache across calls *)

(** X16: once [get_gemini_embedding] has returned a vector for a text, a
    later call for the same text returns the same vector without calling
    the provider, pausing or writing the file: the state stays as it is,
    whatever the provider would now reply. *)
Theorem embedded_text_not_requested_again (sv sv' : Embeddings.services)
    (fuel fuel' : nat) (t : string) (w w' : world) (v : pyval) :
  Embeddings.get_gemini_embedding sv fuel t w = (Some v, w') ->
  Embeddings.get_gemini_embedding sv' fuel' t w' = (Some v, w').
Proof.
  unfold Embeddings.get_gemini_embedding.
  destruct (embedding_cache w !! t) as [v0|] eqn:Hw.
  - intros [= <- <-]. by rewrite Hw.
  - intros Hrun.
    destruct (retry_loop_returns sv fuel t w v w' Hrun) as (_ & Hcache & _).
    by rewrite Hcache.
Qed.

Lemma embedded_text_not_requested_again_witness :
  let sv := Examples.embeddings_services Examples.embed_ok in
  let sv' := Examples.embeddings_services Examples.rate_limited in
  let w' := snd (Embeddings.get_gemini_embedding sv 1 "t" Examples.empty_world) in
  Embeddings.get_gemini_embedding sv 1 "t" Examples.empty_world
  = (Some Examples.vector, w')
  /\ Embeddings.get_gemini_embedding sv' 0 "t" w' = (Some Examples.vector, w').
Proof.
  intros sv sv' w'.
  assert (Embeddings.get_gemini_embedding sv 1 "t" Examples.empty_world
          = (Some Examples.vector, w')) as Hrun by reflexivity.
  split; [exact Hrun |].
  exact (embedded_text_not_requested_again sv sv' 1 0 "t" Examples.empty_world w'
           Examples.vector Hrun).
Defined.

(** ** create-embeddings.py: embedding under rate limiting *)

Section ScriptEmbedding.
Variable sv : CreateEmbeddings.services.

Lemma refused_succ chunk k h :
  h ++ CreateEmbeddings.refused chunk (S k)
  = ((h ++ [CreateEmbeddings.Embed chunk]) ++ [CreateEmbeddings.Sleep 65])
      ++ CreateEmbeddings.refused chunk k.
Proof. unfold CreateEmbeddings.refused. simpl. by rewrite <- !app_assoc. Qed.

(** The loop goes round once per refusal. *)
Lemma get_embedding_refused chunk k : forall fuel h,
  (forall j, j < k ->
     CreateEmbeddings.co_embed sv (h ++ CreateEmbeddings.refused chunk j) chunk
     = CreateEmbeddings.TooManyRequestsError) ->
  CreateEmbeddings.get_embedding sv (k + fuel) chunk h
  = CreateEmbeddings.get_embedding sv fuel chunk
      (h ++ CreateEmbeddings.refused chunk k).
Proof.
  induction k as [|k IH]; intros fuel h Href.
  - unfold CreateEmbeddings.refused. simpl. by rewrite app_nil_r.
  - cbn [Nat.add CreateEmbeddings.get_embedding].
    assert (CreateEmbeddings.co_embed sv h chunk
            = CreateEmbeddings.TooManyRequestsError) as ->.
    { specialize (Href 0 ltac:(lia)). unfold CreateEmbeddings.refused in Href.
      simpl in Href. by rewrite app_nil_r in Href. }
    rewrite IH, <- refused_succ; [done |].
    intros j Hj. rewrite <- refused_succ. apply Href. lia.
Qed.

End ScriptEmbedding.

(** X17: when [co.embed] refuses [k] calls for a chunk with
    [TooManyRequestsError] and answers the next one, [get_embedding] has by
    then made [k + 1] calls with a pause of 65 seconds after each refused
    one, and it returns the first embedding of the answer; an exception of
    another kind at that call is not caught: it is raised at once, with no
    pause and no further call. *)
Theorem get_embedding_waits_out_refusals (sv : CreateEmbeddings.services)
    (k fuel : nat) (chunk : string) (h : list CreateEmbeddings.event) :
  (forall j, j < k ->
     CreateEmbeddings.co_embed sv (h ++ CreateEmbeddings.refused chunk j) chunk
     = CreateEmbeddings.TooManyRequestsError) ->
  k < fuel ->
  (forall v vs,
     CreateEmbeddings.co_embed sv (h ++ CreateEmbeddings.refused chunk k) chunk
     = CreateEmbeddings.Embedded (v :: vs) ->
     CreateEmbeddings.get_embedding sv fuel chunk h
     = (Some (Ret v),
        h ++ CreateEmbeddings.refused chunk k ++ [CreateEmbeddings.Embed chunk]))
  /\ (forall e,
     CreateEmbeddings.co_embed sv (h ++ CreateEmbeddings.refused chunk k) chunk
     = CreateEmbeddings.EmbedFailure e ->
     CreateEmbeddings.get_embedding sv fuel chunk h
     = (Some (Raise e),
        h ++ CreateEmbeddings.refused chunk k ++ [CreateEmbeddings.Embed chunk])).
Proof.
  intros Href Hfuel.
  replace fuel with (k + S (fuel - S k)) by lia.
  rewrite (get_embedding_refused sv chunk k _ h Href).
  cbn [CreateEmbeddings.get_embedding].
  split.
  - intros v vs ->. by rewrite <- app_assoc.
  - intros e ->. by rewrite <- app_assoc.
Qed.

Lemma get_embedding_waits_out_refusals_witness :
  let sv := Examples.script_services 2 (Ret Examples.sentence) in
  (forall j, j < 2 ->
     CreateEmbeddings.co_embed sv ([] ++ CreateEmbeddings.refused "t" j) "t"
     = CreateEmbeddings.TooManyRequestsError)
  /\ 2 < 3
  /\ CreateEmbeddings.get_embedding sv 3 "t" []
     = (Some (Ret Examples.vector),
        [CreateEmbeddings.Embed "t"; CreateEmbeddings.Sleep 65;
         CreateEmbeddings.Embed "t"; CreateEmbeddings.Sleep 65;
         CreateEmbeddings.Embed "t"]).
Proof.
  intros sv.
  assert (forall j, j < 2 ->
     CreateEmbeddings.co_embed sv ([] ++ CreateEmbeddings.refused "t" j) "t"
     = CreateEmbeddings.TooManyRequestsError) as Href.
  { intros [|[|j]] Hj; [reflexivity | reflexivity | lia]. }
  assert (2 < 3) as Hfuel by lia.
  split; [exact Href |]. split; [exact Hfuel |].
  exact (proj1 (get_embedding_waits_out_refusals sv 2 3 "t" [] Href Hfuel)
           Examples.vector [] eq_refl).
Defined.

(** ** create-embeddings.py: what [main] stores *)

Section ScriptMain.
Variable sv : CreateEmbeddings.services.

Lemma no_upsert_app l1 l2 :
  CreateEmbeddings.no_upsert l1 = true -> CreateEmbeddings.no_upsert l2 = true ->
  CreateEmbeddings.no_upsert (l1 ++ l2) = true.
Proof.
  unfold CreateEmbeddings.no_upsert. intros H1 H2.
  by rewrite forallb_app, H1, H2.
Qed.

(** [get_embedding] only calls the provider and pauses, and what it
    returns is an embedding that the provider returned. *)
Lemma get_embedding_spec chunk fuel : forall h o h',
  CreateEmbeddings.get_embedding sv fuel chunk h = (o, h') ->
  (exists pre, h' = h ++ pre /\ CreateEmbeddings.no_upsert pre = true)
  /\ (forall v, o = Some (Ret v) ->
        exists tr vs, CreateEmbeddings.co_embed sv tr chunk
                      = CreateEmbeddings.Embedded (v :: vs)).
Proof.
  induction fuel as [|fuel IH]; intros h o h' Hrun.
  - injection Hrun as <- <-. split; [| done]. exists []. by rewrite app_nil_r.
  - cbn [CreateEmbeddings.get_embedding] in Hrun.
    destruct (CreateEmbeddings.co_embed sv h chunk) as [[|v vs]| |e] eqn:Hreply.
    + injection Hrun as <- <-. split; [by exists [CreateEmbeddings.Embed chunk] | done].
    + injection Hrun as <- <-. split; [by exists [CreateEmbeddings.Embed chunk] |].
      intros v' [= <-]. by exists h, vs.
    + destruct (IH _ _ _ Hrun) as [(pre & -> & Hpre) Hv]. split; [| done].
      exists ([CreateEmbeddings.Embed chunk; CreateEmbeddings.Sleep 65] ++ pre).
      split; [by rewrite <- !app_assoc |]. by apply no_upsert_app.
    + injection Hrun as <- <-. split; [by exists [CreateEmbeddings.Embed chunk] | done].
Qed.

(** The loop over the chunks of one file. *)
Lemma embed_chunks_spec fuel rel chunks : forall idx points h o h',
  CreateEmbeddings.embed_chunks sv fuel rel chunks idx points h = (o, h') ->
  (exists pre, h' = h ++ pre /\ CreateEmbeddings.no_upsert pre = true)
  /\ (forall points', o = Some (Ret points') ->
        exists new, points' = points ++ new
        /\ (forall p, p ∈ new ->
              exists i, CreateEmbeddings.chunk_index p = idx + i
              /\ chunks !! i = Some (CreateEmbeddings.text p)
              /\ 30 <= String.length (strip (CreateEmbeddings.text p))
              /\ CreateEmbeddings.file p = rel
              /\ CreateEmbeddings.chapter p = CreateEmbeddings.chapter_name sv rel
              /\ exists tr vs,
                   CreateEmbeddings.co_embed sv tr (CreateEmbeddings.text p)
                   = CreateEmbeddings.Embedded (CreateEmbeddings.vector p :: vs))
        /\ (forall i c, chunks !! i = Some c -> 30 <= String.length (strip c) ->
              exists p, p ∈ new /\ CreateEmbeddings.text p = c
                        /\ CreateEmbeddings.chunk_index p = idx + i
                        /\ CreateEmbeddings.file p = rel)).
Proof.
  induction chunks as [|chunk rest IH]; intros idx points h o h' Hrun.
  - injection Hrun as <- <-. split; [exists []; by rewrite app_nil_r |].
    intros points' [= <-]. exists []. rewrite app_nil_r. split; [done |].
    split; [intros p Hp; by apply elem_of_nil in Hp | intros i c Hi; by rewrite lookup_nil in Hi].
  - cbn [CreateEmbeddings.embed_chunks] in Hrun.
    destruct (Nat.ltb_spec (String.length (strip chunk)) 30) as [Hshort | Hlong].
    + destruct (IH _ _ _ _ _ Hrun) as [Hh Hp]. split; [done |].
      intros points' Ho. destruct (Hp points' Ho) as (new & -> & Hsound & Hall).
      exists new. split; [done |]. split.
      * intros p Hin. destruct (Hsound p Hin) as (i & Hi & Hc & Hrest).
        exists (S i). split; [lia |]. by split.
      * intros [|i] c Hi Hc; [injection Hi as ->; lia |].
        destruct (Hall i c Hi Hc) as (p & Hin & Ht & Hidx & Hf).
        exists p. repeat split; [done | done | lia | done].
    + destruct (CreateEmbeddings.get_embedding sv fuel chunk h)
        as [[[embedding|e]|] h1] eqn:Hembed.
      * destruct (get_embedding_spec chunk fuel h _ _ Hembed)
          as [(pre1 & -> & Hpre1) Hv].
        destruct (Hv embedding eq_refl) as (tr & vs & Hreply).
        destruct (IH _ _ _ _ _ Hrun) as [(pre2 & -> & Hpre2) Hp]. split.
        { exists (pre1 ++ pre2). split; [by rewrite app_assoc | by apply no_upsert_app]. }
        intros points' Ho. destruct (Hp points' Ho) as (new & -> & Hsound & Hall).
        eexists (_ :: new). split; [by rewrite <- app_assoc |]. split.
        -- intros p [-> | Hin]%elem_of_cons.
           ++ exists 0. cbn. split; [lia |]. repeat split; [done | by exists tr, vs].
           ++ destruct (Hsound p Hin) as (i & Hi & Hc & Hrest).
              exists (S i). split; [lia |]. by split.
        -- intros [|i] c Hi Hc.
           ++ injection Hi as ->. eexists. split; [apply list_elem_of_here |].
              cbn. repeat split. lia.
           ++ destruct (Hall i c Hi Hc) as (p & Hin & Ht & Hidx & Hf).
              exists p. repeat split; [by apply list_elem_of_further | done | lia | done].
      * injection Hrun as <- <-.
        destruct (get_embedding_spec chunk fuel h _ _ Hembed) as [Hh _].
        by split.
      * injection Hrun as <- <-.
        destruct (get_embedding_spec chunk fuel h _ _ Hembed) as [Hh _].
        by split.
Qed.

(** The loop over the files. *)
Lemma embed_files_spec fuel files : forall points h o h',
  CreateEmbeddings.embed_files sv fuel files points h = (o, h') ->
  (exists pre, h' = h ++ pre /\ CreateEmbeddings.no_upsert pre = true)
  /\ (forall points', o = Some (Ret points') ->
        exists new, points' = points ++ new
        /\ (forall p, p ∈ new ->
              exists path, path ∈ files /\ CreateEmbeddings.point_of sv path p)
        /\ (forall path content chunks i c,
              path ∈ files ->
              CreateEmbeddings.read sv path = Ret content ->
              CreateEmbeddings.chunk_text content = Some chunks ->
              chunks !! i = Some c -> 30 <= String.length (strip c) ->
              exists p, p ∈ new /\ CreateEmbeddings.text p = c
                        /\ CreateEmbeddings.chunk_index p = i
                        /\ CreateEmbeddings.file p
                           = replace CreateEmbeddings.backslash "/" path)).
Proof.
  induction files as [|path rest IH]; intros points h o h' Hrun.
  - injection Hrun as <- <-. split; [exists []; by rewrite app_nil_r |].
    intros points' [= <-]. exists []. rewrite app_nil_r. split; [done |].
    split; [intros p Hp; by apply elem_of_nil in Hp |].
    intros path content chunks i c Hin. by apply elem_of_nil in Hin.
  - cbn [CreateEmbeddings.embed_files] in Hrun.
    destruct (CreateEmbeddings.read sv path) as [content|e] eqn:Hread.
    2: { injection Hrun as <- <-. split; [exists []; by rewrite app_nil_r | done]. }
    destruct (CreateEmbeddings.chunk_text content) as [chunks|] eqn:Hchunks.
    2: { injection Hrun as <- <-. split; [exists []; by rewrite app_nil_r | done]. }
    destruct (CreateEmbeddings.embed_chunks sv fuel _ chunks 0 points h)
      as [[[points1|e]|] h1] eqn:Hfile.
    + destruct (embed_chunks_spec _ _ _ _ _ _ _ _ Hfile) as [(pre1 & -> & Hpre1) Hp1].
      destruct (Hp1 points1 eq_refl) as (new1 & -> & Hsound1 & Hall1).
      destruct (IH _ _ _ _ Hrun) as [(pre2 & -> & Hpre2) Hp2]. split.
      { exists (pre1 ++ pre2). split; [by rewrite app_assoc | by apply no_upsert_app]. }
      intros points' Ho. destruct (Hp2 points' Ho) as (new2 & -> & Hsound2 & Hall2).
      exists (new1 ++ new2). split; [by rewrite app_assoc |]. split.
      * intros p [Hin | Hin]%elem_of_app.
        -- destruct (Hsound1 p Hin) as (i & Hi & Hc & Hlen & Hf & Hch & Hv).
           exists path. split; [apply list_elem_of_here |].
           exists content, chunks. rewrite Hi. simpl.
           repeat split; [done | done | done | done | done | by rewrite Hf | done].
        -- destruct (Hsound2 p Hin) as (path' & Hin' & Hpoint).
           exists path'. split; [by apply list_elem_of_further | done].
      * intros path' content' chunks' i c [-> | Hin]%elem_of_cons Hread' Hchunks' Hi Hc.
        -- rewrite Hread in Hread'. injection Hread' as <-.
           rewrite Hchunks in Hchunks'. injection Hchunks' as <-.
           destruct (Hall1 i c Hi Hc) as (p & Hp & Ht & Hidx & Hf).
           exists p. split; [apply elem_of_app; by left | done].
        -- destruct (Hall2 path' content' chunks' i c Hin Hread' Hchunks' Hi Hc)
             as (p & Hp & Hrest).
           exists p. split; [apply elem_of_app; by right | done].
    + injection Hrun as <- <-.
      destruct (embed_chunks_spec _ _ _ _ _ _ _ _ Hfile) as [Hh _]. by split.
    + injection Hrun as <- <-.
      destruct (embed_chunks_spec _ _ _ _ _ _ _ _ Hfile) as [Hh _]. by split.
Qed.

(** The two ways a run of [main] ends: before the upsert, with an
    exception or out of fuel, or with the upsert of the points made. *)
Lemma main_cases fuel files h :
  let run := CreateEmbeddings.main sv fuel files h in
  (exists pre, snd run = h ++ pre /\ CreateEmbeddings.no_upsert pre = true
               /\ forall u, fst run <> Some (Ret u))
  \/ (exists pre points h1,
        snd run = h ++ pre ++ [CreateEmbeddings.Upsert points]
        /\ CreateEmbeddings.no_upsert pre = true
        /\ CreateEmbeddings.embed_files sv fuel files [] h = (Some (Ret points), h1)).
Proof.
  unfold CreateEmbeddings.main.
  destruct (CreateEmbeddings.embed_files sv fuel files [] h)
    as [[[points|e]|] h1] eqn:Hfiles;
    destruct (embed_files_spec _ _ _ _ _ _ Hfiles) as [(pre & -> & Hpre) _].
  - destruct (CreateEmbeddings.collection_exists sv _) as [[|]|e].
    + right. exists (pre ++ [CreateEmbeddings.GetCollections]), points, (h ++ pre).
      cbn [snd]. split; [by rewrite <- !app_assoc |].
      split; [by apply no_upsert_app | done].
    + destruct (CreateEmbeddings.create_collection sv _) as [[]|e].
      * right. exists (pre ++ [CreateEmbeddings.GetCollections;
                                CreateEmbeddings.CreateCollection]), points, (h ++ pre).
        cbn [snd]. split; [by rewrite <- !app_assoc |].
        split; [by apply no_upsert_app | done].
      * left. exists (pre ++ [CreateEmbeddings.GetCollections;
                               CreateEmbeddings.CreateCollection]).
        cbn [snd fst]. split; [by rewrite <- !app_assoc |].
        split; [by apply no_upsert_app | done].
    + left. exists (pre ++ [CreateEmbeddings.GetCollections]).
      cbn [snd fst]. split; [by rewrite <- !app_assoc |].
      split; [by apply no_upsert_app | done].
  - left. exists pre. by repeat split.
  - left. exists pre. by repeat split.
Qed.

End ScriptMain.

(** X18: a run of [main] stores nothing before its last call: the history
    it leaves is the one it found, then calls none of which is an upsert,
    then at most one upsert; a run that returns normally ends with that
    upsert.  So a run that is stopped by an exception while reading or
    embedding has stored none of the points it had made. *)
Theorem main_upserts_once_at_end (sv : CreateEmbeddings.services)
    (fuel : nat) (files : list string) (h : list CreateEmbeddings.event) :
  let run := CreateEmbeddings.main sv fuel files h in
  exists pre,
    CreateEmbeddings.no_upsert pre = true
    /\ (snd run = h ++ pre
        \/ exists points, snd run = h ++ pre ++ [CreateEmbeddings.Upsert points])
    /\ (forall u, fst run = Some (Ret u) ->
        exists points, snd run = h ++ pre ++ [CreateEmbeddings.Upsert points]).
Proof.
  intros run.
  destruct (main_cases sv fuel files h) as [(pre & Hh & Hpre & Hu) | (pre & points & h1 & Hh & Hpre & _)].
  - exists pre. split; [done |]. split; [by left |].
    intros u Hret. by destruct (Hu u).
  - exists pre. split; [done |]. split; [right |]; by exists points.
Qed.

(** X19: the points that [main] upserts are the chunks of at least 30
    characters (white space at the ends not counted) of the files it read:
    every point carries one such chunk with the position of the chunk
    among all the chunks of its file, the file and chapter names derived
    from the path, and an embedding the provider returned for that chunk;
    and every such chunk of every file has its point. *)
Theorem upserted_points_are_long_chunks (sv : CreateEmbeddings.services)
    (fuel : nat) (files : list string) (points : list CreateEmbeddings.PointStruct) :
  CreateEmbeddings.Upsert points ∈ snd (CreateEmbeddings.main sv fuel files []) ->
  (forall p, p ∈ points ->
     exists path, path ∈ files /\ CreateEmbeddings.point_of sv path p)
  /\ (forall path content chunks i c,
        path ∈ files ->
        CreateEmbeddings.read sv path = Ret content ->
        CreateEmbeddings.chunk_text content = Some chunks ->
        chunks !! i = Some c -> 30 <= String.length (strip c) ->
        exists p, p ∈ points /\ CreateEmbeddings.text p = c
                  /\ CreateEmbeddings.chunk_index p = i
                  /\ CreateEmbeddings.file p
                     = replace CreateEmbeddings.backslash "/" path).
Proof.
  intros Hin.
  assert (forall pre, CreateEmbeddings.no_upsert pre = true ->
            CreateEmbeddings.Upsert points ∈ pre -> False) as Hnot.
  { intros pre Hpre Hp. unfold CreateEmbeddings.no_upsert in Hpre.
    rewrite forallb_forall in Hpre.
    apply list_elem_of_In in Hp. by specialize (Hpre _ Hp). }
  destruct (main_cases sv fuel files [])
    as [(pre & Hh & Hpre & _) | (pre & points' & h1 & Hh & Hpre & Hfiles)];
    rewrite Hh in Hin; cbn [app] in Hin.
  - by destruct (Hnot pre Hpre).
  - apply elem_of_app in Hin as [Hin | Hin]; [by destruct (Hnot pre Hpre) |].
    apply list_elem_of_singleton in Hin. injection Hin as ->.
    destruct (embed_files_spec sv _ _ _ _ _ _ Hfiles) as [_ Hp].
    destruct (Hp points' eq_refl) as (new & Hnew & Hsound & Hall).
    cbn [app] in Hnew. subst new. by split.
Qed.

Lemma upserted_points_are_long_chunks_witness :
  let sv := Examples.script_services 0 (Ret Examples.sentence) in
  let points :=
    [ {| CreateEmbeddings.id := "point-0";
         CreateEmbeddings.vector := Examples.vector;
         CreateEmbeddings.text := Examples.sentence;
         CreateEmbeddings.chapter := "ros > intro";
         CreateEmbeddings.file := "ros/intro.md";
         CreateEmbeddings.chunk_index := 0 |} ] in
  CreateEmbeddings.Upsert points
    ∈ snd (CreateEmbeddings.main sv 1 ["ros/intro.md"] [])
  /\ forall p, p ∈ points ->
       exists path, path ∈ ["ros/intro.md"] /\ CreateEmbeddings.point_of sv path p.
Proof.
  intros sv points.
  assert (CreateEmbeddings.Upsert points
            ∈ snd (CreateEmbeddings.main sv 1 ["ros/intro.md"] [])) as Hin.
  { assert (snd (CreateEmbeddings.main sv 1 ["ros/intro.md"] [])
            = [CreateEmbeddings.Embed Examples.sentence;
               CreateEmbeddings.GetCollections;
               CreateEmbeddings.Upsert points]) as -> by (vm_compute; reflexivity).
    apply list_elem_of_further, list_elem_of_further, list_elem_of_here. }
  split; [exact Hin |].
  exact (proj1 (upserted_points_are_long_chunks sv 1 ["ros/intro.md"] points Hin)).
Defined.

(** X20: for a path whose stem holds no full stop, [main] of
    [create-embeddings.py] gives an [.md] file and an [.mdx] file the same
    chapter name, the stem with every "/" replaced by the arrow: here
    [.mdx] is removed before [.md]. *)
Theorem chapter_name_ignores_extension (sv : CreateEmbeddings.services)
    (stem : string) :
  has_char "." stem = false ->
  CreateEmbeddings.chapter_name sv (stem +:+ ".md")
  = replace "/" (CreateEmbeddings.arrow sv) stem
  /\ CreateEmbeddings.chapter_name sv (stem +:+ ".mdx")
     = replace "/" (CreateEmbeddings.arrow sv) stem.
Proof.
  intros Hstem. unfold CreateEmbeddings.chapter_name.
  assert (replace ".md" "" stem = stem) as Hsame.
  { rewrite <- (append_empty_r stem) at 1. unfold replace.
    rewrite (replace_from_without_first "." "md" "" stem "" Hstem).
    change (replace_from 0 ".md" "" "") with "". apply append_empty_r. }
  split; f_equal.
  - unfold replace at 2.
    rewrite (replace_from_without_first "." "mdx" "" stem ".md" Hstem).
    change (replace_from 0 ".mdx" "" ".md") with ".md".
    unfold replace.
    rewrite (replace_from_without_first "." "md" "" stem ".md" Hstem).
    change (replace_from 0 ".md" "" ".md") with "". apply append_empty_r.
  - unfold replace at 2.
    rewrite (replace_from_without_first "." "mdx" "" stem ".mdx" Hstem).
    change (replace_from 0 ".mdx" "" ".mdx") with "".
    by rewrite append_empty_r.
Qed.

Lemma chapter_name_ignores_extension_witness :
  let sv := Examples.script_services 0 (Ret Examples.sentence) in
  has_char "." "ros/nodes" = false
  /\ CreateEmbeddings.chapter_name sv "ros/nodes.md" = "ros > nodes"
  /\ CreateEmbeddings.chapter_name sv "ros/nodes.mdx" = "ros > nodes".
Proof.
  intros sv. split; [reflexivity |].
  exact (chapter_name_ignores_extension sv "ros/nodes" eq_refl).
Defined.

(** ** ingest.py: batches *)

Section IngestBatches.

Lemma div_batch d :
  0 < d -> (d + 49) / 50 = S ((d - 50 + 49) / 50).
Proof.
  intros Hd. destruct (le_lt_dec 50 d) as [Hle | Hlt].
  - replace (d + 49) with ((d - 50 + 49) + 1 * 50) by lia.
    rewrite Nat.div_add by lia. lia.
  - replace (d - 50) with 0 by lia.
    symmetry. replace ((0 + 49) / 50) with 0 by reflexivity.
    apply (Nat.div_unique _ _ 1 (d - 1)); lia.
Qed.

Lemma seq_succ_map {A} (f : nat -> A) m :
  map f (seq 0 (S m)) = f 0 :: map (fun k => f (S k)) (seq 0 m).
Proof. cbn [seq map]. by rewrite <- seq_shift, map_map. Qed.

(** The indices of the loop are the multiples of 50 below [stop]. *)
Lemma range_from_multiples stop fuel : forall i,
  stop - i <= fuel ->
  Ingest.range_from fuel i stop 50
  = map (fun k => i + 50 * k) (seq 0 ((stop - i + 49) / 50)).
Proof.
  induction fuel as [|fuel IH]; intros i Hfuel.
  - by replace (stop - i) with 0 by lia.
  - cbn [Ingest.range_from]. destruct (Nat.ltb_spec i stop) as [Hlt | Hge].
    + rewrite IH by lia. rewrite (div_batch (stop - i)) by lia.
      rewrite seq_succ_map. f_equal; [lia |].
      replace (stop - (i + 50)) with (stop - i - 50) by lia.
      apply map_ext. intros k. lia.
    + by replace (stop - i) with 0 by lia.
Qed.

Lemma range_multiples n :
  Ingest.range 0 n 50 = map (fun k => 50 * k) (seq 0 ((n + 49) / 50)).
Proof.
  unfold Ingest.range. rewrite range_from_multiples by lia.
  by rewrite Nat.sub_0_r.
Qed.

(** Slices of 50 at the multiples of 50 cover a list. *)
Lemma batches_cover {A} m : forall l : list A,
  length l <= 50 * m ->
  concat (map (fun k => slice l (50 * k) (50 * k + 50)) (seq 0 m)) = l.
Proof.
  induction m as [|m IH]; intros l Hlen.
  - destruct l; [done | simpl in Hlen; lia].
  - rewrite seq_succ_map. cbn [concat].
    transitivity (take 50 l ++ drop 50 l); [| apply take_drop]. f_equal.
    rewrite <- (IH (drop 50 l)) by (rewrite length_drop; lia).
    f_equal. apply map_ext. intros k. unfold slice.
    rewrite drop_drop. f_equal; [lia |]. f_equal. lia.
Qed.

(** The indices of the upload loop and the batches taken at them. *)
Lemma range_batches (chunks : list Ingest.chunk) :
  let indices := Ingest.range 0 (length chunks) Ingest.batch_size in
  let batch := fun i => slice chunks i (i + Ingest.batch_size) in
  length indices = Ingest.total_batches chunks
  /\ concat (map batch indices) = chunks
  /\ Forall (fun i => 1 <= length (batch i) <= Ingest.batch_size) indices.
Proof.
  intros indices batch. subst indices batch.
  unfold Ingest.total_batches, Ingest.batch_size.
  rewrite range_multiples.
  replace (length chunks + 50 - 1) with (length chunks + 49) by lia.
  set (m := (length chunks + 49) / 50).
  assert (length chunks <= 50 * m /\ (0 < m -> 50 * (m - 1) < length chunks))
    as [Hup Hlow].
  { subst m. pose proof (Nat.div_mod (length chunks + 49) 50 ltac:(lia)) as Hdm.
    pose proof (Nat.mod_upper_bound (length chunks + 49) 50 ltac:(lia)) as Hm.
    split; [lia |]. intros Hpos. lia. }
  split; [by rewrite length_map, length_seq |].
  split.
  - rewrite map_map. by apply batches_cover.
  - apply Forall_map, Forall_forall. intros k Hk.
    apply list_elem_of_In, in_seq in Hk. cbn beta.
    unfold slice. rewrite length_take, length_drop. lia.
Qed.

End IngestBatches.

(** X21: the upload loop of [ingest_data] goes round [total_batches]
    times; the batches it takes are, in order, a partition of the chunks
    into stretches of at least one and at most 50 chunks. *)
Theorem batches_partition_chunks (chunks : list Ingest.chunk) :
  let indices := Ingest.range 0 (length chunks) Ingest.batch_size in
  let batch := fun i => slice chunks i (i + Ingest.batch_size) in
  length indices = Ingest.total_batches chunks
  /\ concat (map batch indices) = chunks
  /\ Forall (fun i => 1 <= length (batch i) <= Ingest.batch_size) indices.
Proof. exact (range_batches chunks). Qed.

(** ** ingest.py: the upload loop *)

Section IngestUpload.
Variable sv : Ingest.services.

Lemma embedded_texts_app h1 h2 :
  Ingest.embedded_texts (h1 ++ h2) = Ingest.embedded_texts h1 ++ Ingest.embedded_texts h2.
Proof. apply flat_map_app. Qed.

Lemma upserted_app h1 h2 :
  Ingest.upserted (h1 ++ h2) = Ingest.upserted h1 ++ Ingest.upserted h2.
Proof. apply flat_map_app. Qed.

Lemma embed_calls_app h1 h2 :
  Ingest.embed_calls (h1 ++ h2) = Ingest.embed_calls h1 + Ingest.embed_calls h2.
Proof. unfold Ingest.embed_calls. by rewrite flat_map_app, length_app. Qed.

(** The items made from a batch pair its chunks with the vectors, in
    order, as far as the vectors go. *)
Lemma pair_vectors_spec vectors : forall batch acc,
  match Ingest.pair_vectors batch vectors acc with
  | Ret items =>
      length vectors <= length batch
      /\ exists new, items = acc ++ new
         /\ map Ingest.item_id new = map Ingest.id (take (length vectors) batch)
         /\ forall it, it ∈ new ->
              exists c, c ∈ batch /\ Ingest.item_id it = Ingest.id c
                /\ Ingest.metadata it = [("text", VStr (Ingest.text c));
                                         ("source", VStr (Ingest.source c));
                                         ("filename", VStr (Ingest.filename c))]
  | Raise _ => length batch < length vectors
  end.
Proof.
  induction vectors as [|v vectors IH]; intros batch acc.
  - cbn [Ingest.pair_vectors]. split; [simpl; lia |].
    exists []. rewrite app_nil_r. split; [done |]. split; [done |].
    intros it Hit. by apply elem_of_nil in Hit.
  - destruct batch as [|item batch]; [simpl; lia |].
    cbn [Ingest.pair_vectors].
    match goal with
    | |- context [Ingest.pair_vectors batch vectors ?a] =>
        specialize (IH batch a); revert IH;
        destruct (Ingest.pair_vectors batch vectors a) as [items|e]; intros IH
    end; [| simpl; lia].
    destruct IH as (Hlen & new & -> & Hids & Hsound).
    split; [simpl; lia |]. eexists (_ :: new).
    split; [by rewrite <- app_assoc |]. split.
    + cbn. by rewrite Hids.
    + intros it [-> | Hit]%elem_of_cons.
      * exists item. split; [apply list_elem_of_here | done].
      * destruct (Hsound it Hit) as (c & Hc & Hrest).
        exists c. split; [by apply list_elem_of_further | done].
Qed.

(** Every batch is sent to the embedding model once, whether the call
    returns or raises. *)
Lemma upload_texts chunks indices : forall h,
  (forall tr texts vs,
     Ingest.embed_documents sv tr texts = Some vs -> length vs <= length texts) ->
  let run := Ingest.upload sv indices chunks h in
  fst run = Ret tt
  /\ Ingest.embedded_texts (snd run)
     = Ingest.embedded_texts h
       ++ concat (map (fun i => map Ingest.text
                                  (slice chunks i (i + Ingest.batch_size))) indices)
  /\ Ingest.embed_calls (snd run) = Ingest.embed_calls h + length indices.
Proof.
  induction indices as [|i rest IH]; intros h Hvs.
  - cbn. by rewrite app_nil_r, Nat.add_0_r.
  - cbn [Ingest.upload]. cbv zeta.
    set (batch := slice chunks i (i + Ingest.batch_size)).
    destruct (Ingest.embed_documents sv h (map Ingest.text batch)) as [vectors|] eqn:He.
    + pose proof (pair_vectors_spec vectors batch []) as Hpair.
      destruct (Ingest.pair_vectors batch vectors []) as [items|e].
      * destruct (IH ((h ++ [Ingest.EmbedDocuments (map Ingest.text batch)])
                        ++ [Ingest.Upsert items]) Hvs) as (H1 & H2 & H3).
        split; [done |]. split.
        -- rewrite H2, !embedded_texts_app. cbn. by rewrite !app_nil_r, <- app_assoc.
        -- rewrite H3, !embed_calls_app. cbn. lia.
      * apply Hvs in He. rewrite length_map in He. lia.
    + destruct (IH (h ++ [Ingest.EmbedDocuments (map Ingest.text batch)]) Hvs)
        as (H1 & H2 & H3).
      split; [done |]. split.
      * rewrite H2, embedded_texts_app. cbn. by rewrite app_nil_r, <- app_assoc.
      * rewrite H3, embed_calls_app. cbn. lia.
Qed.

(** What is upserted describes chunks of the batches. *)
Lemma upload_items chunks indices : forall h it,
  it ∈ Ingest.upserted (snd (Ingest.upload sv indices chunks h)) ->
  it ∈ Ingest.upserted h
  \/ exists c, c ∈ chunks /\ Ingest.item_id it = Ingest.id c
       /\ Ingest.metadata it = [("text", VStr (Ingest.text c));
                                ("source", VStr (Ingest.source c));
                                ("filename", VStr (Ingest.filename c))].
Proof.
  induction indices as [|i rest IH]; intros h it Hit; [by left |].
  cbn [Ingest.upload] in Hit. cbv zeta in Hit.
  set (batch := slice chunks i (i + Ingest.batch_size)) in *.
  destruct (Ingest.embed_documents sv h (map Ingest.text batch)) as [vectors|].
  - pose proof (pair_vectors_spec vectors batch []) as Hpair.
    destruct (Ingest.pair_vectors batch vectors []) as [items|e].
    + destruct Hpair as (_ & new & Hnew & _ & Hsound). cbn [app] in Hnew. subst new.
      apply IH in Hit as [Hit | Hit]; [| by right].
      rewrite !upserted_app in Hit. cbn in Hit. rewrite !app_nil_r in Hit.
      apply elem_of_app in Hit as [Hit | Hit]; [by left | right].
      destruct (Hsound it Hit) as (c & Hc & Hrest). exists c. split; [| done].
      subst batch. unfold slice in Hc.
      by apply subseteq_take, subseteq_drop in Hc.
    + cbn [snd] in Hit. rewrite upserted_app in Hit. cbn in Hit.
      rewrite app_nil_r in Hit. by left.
  - apply IH in Hit as [Hit | Hit]; [| by right].
    rewrite upserted_app in Hit. cbn in Hit. rewrite app_nil_r in Hit. by left.
Qed.

(** When every call returns one vector per text, every batch is upserted
    whole. *)
Lemma upload_all chunks indices : forall h,
  (forall tr texts, exists vs,
     Ingest.embed_documents sv tr texts = Some vs /\ length vs = length texts) ->
  map Ingest.item_id (Ingest.upserted (snd (Ingest.upload sv indices chunks h)))
  = map Ingest.item_id (Ingest.upserted h)
    ++ map Ingest.id (concat (map (fun i => slice chunks i (i + Ingest.batch_size))
                                  indices)).
Proof.
  induction indices as [|i rest IH]; intros h Hall; [cbn; by rewrite app_nil_r |].
  cbn [Ingest.upload]. cbv zeta.
  set (batch := slice chunks i (i + Ingest.batch_size)).
  destruct (Hall h (map Ingest.text batch)) as (vs & -> & Hlen).
  rewrite length_map in Hlen.
  pose proof (pair_vectors_spec vs batch []) as Hpair.
  destruct (Ingest.pair_vectors batch vs []) as [items|e]; [| lia].
  destruct Hpair as (_ & new & Hnew & Hids & _). cbn [app] in Hnew. subst new.
  rewrite IH by done. rewrite !upserted_app. cbn [Ingest.upserted flat_map].
  rewrite !app_nil_r. cbn [map concat]. fold batch.
  rewrite !map_app, Hids, Hlen, firstn_all. by rewrite <- app_assoc.
Qed.

End IngestUpload.

(** X22: as long as the embedding model never returns more vectors than
    it was given texts, the upload loop of [ingest_data] runs to its end
    and sends the text of every chunk to the model exactly once, in order,
    in [total_batches] calls, whether those calls return or raise: a batch
    whose embedding fails is neither retried nor a reason to stop. *)
Theorem every_text_embedded_once (sv : Ingest.services)
    (chunks : list Ingest.chunk) (h : list Ingest.event) :
  (forall tr texts vs,
     Ingest.embed_documents sv tr texts = Some vs -> length vs <= length texts) ->
  let run := Ingest.ingest_chunks sv chunks h in
  fst run = Ret tt
  /\ Ingest.embedded_texts (snd run)
     = Ingest.embedded_texts h ++ map Ingest.text chunks
  /\ Ingest.embed_calls (snd run)
     = Ingest.embed_calls h + Ingest.total_batches chunks.
Proof.
  intros Hvs run. subst run. unfold Ingest.ingest_chunks.
  destruct (upload_texts sv chunks
              (Ingest.range 0 (length chunks) Ingest.batch_size) h Hvs)
    as (H1 & H2 & H3).
  destruct (range_batches chunks) as (Hn & Hcover & _).
  split; [done |]. split.
  - rewrite H2. f_equal. rewrite <- Hcover at 2.
    by rewrite concat_map, map_map.
  - by rewrite H3, Hn.
Qed.

Lemma every_text_embedded_once_witness :
  let sv := Examples.ingest_services true in
  let chunks := Examples.ingest_chunks_of 51 in
  (forall tr texts vs,
     Ingest.embed_documents sv tr texts = Some vs -> length vs <= length texts)
  /\ fst (Ingest.ingest_chunks sv chunks []) = Ret tt
  /\ Ingest.embedded_texts (snd (Ingest.ingest_chunks sv chunks []))
     = map Ingest.text chunks
  /\ Ingest.embed_calls (snd (Ingest.ingest_chunks sv chunks [])) = 2.
Proof.
  intros sv chunks.
  assert (forall tr texts vs,
            Ingest.embed_documents sv tr texts = Some vs -> length vs <= length texts)
    as Hvs.
  { intros [|e tr] texts vs; simpl; [discriminate |].
    intros [= <-]. rewrite length_map. lia. }
  split; [exact Hvs |].
  exact (every_text_embedded_once sv chunks [] Hvs).
Defined.

(** X23: every item that the upload loop of [ingest_data] upserts carries
    the identifier of one of the chunks and, as metadata, the text, source
    and file name of that chunk; and when every call to the embedding model
    returns one vector per text, the identifiers upserted are those of all
    the chunks, in order. *)
Theorem upserted_items_describe_chunks (sv : Ingest.services)
    (chunks : list Ingest.chunk) :
  let run := Ingest.ingest_chunks sv chunks [] in
  (forall it, it ∈ Ingest.upserted (snd run) ->
     exists c, c ∈ chunks /\ Ingest.item_id it = Ingest.id c
       /\ Ingest.metadata it = [("text", VStr (Ingest.text c));
                                ("source", VStr (Ingest.source c));
                                ("filename", VStr (Ingest.filename c))])
  /\ ((forall tr texts, exists vs,
         Ingest.embed_documents sv tr texts = Some vs /\ length vs = length texts) ->
      map Ingest.item_id (Ingest.upserted (snd run)) = map Ingest.id chunks).
Proof.
  intros run. subst run. unfold Ingest.ingest_chunks. split.
  - intros it Hit. apply upload_items in Hit as [Hit | Hit]; [| done].
    by apply elem_of_nil in Hit.
  - intros Hall. rewrite upload_all by done. cbn [Ingest.upserted flat_map map app].
    destruct (range_batches chunks) as (_ & Hcover & _). by rewrite Hcover.
Qed.

Lemma upserted_items_describe_chunks_witness :
  let sv := Examples.ingest_services false in
  let chunks := Examples.ingest_chunks_of 51 in
  (forall tr texts, exists vs,
     Ingest.embed_documents sv tr texts = Some vs /\ length vs = length texts)
  /\ map Ingest.item_id (Ingest.upserted (snd (Ingest.ingest_chunks sv chunks [])))
     = map Ingest.id chunks.
Proof.
  intros sv chunks.
  assert (forall tr texts, exists vs,
            Ingest.embed_documents sv tr texts = Some vs /\ length vs = length texts)
    as Hall.
  { intros [|e tr] texts; eexists; (split; [reflexivity | apply length_map]). }
  split; [exact Hall |].
  exact (proj2 (upserted_items_describe_chunks sv chunks) Hall).
Defined.

(** ** ingest.py: chunk identifiers *)

Section ReplaceChar.

Lemma prefix_empty s : String.prefix "" s = true.
Proof. by destruct s. Qed.

(** Replacing a single character goes character by character. *)
Lemma replace_char_cons c new x s :
  replace_from 0 (String c "") new (String x s)
  = (if Ascii.eqb c x then new else String x "")
    +:+ replace_from 0 (String c "") new s.
Proof.
  cbn [replace_from]. rewrite prefix_cons, prefix_empty, andb_true_r.
  by destruct (Ascii.eqb c x).
Qed.

Lemma replace_char_app c new a b :
  replace_from 0 (String c "") new (a +:+ b)
  = replace_from 0 (String c "") new a +:+ replace_from 0 (String c "") new b.
Proof.
  induction a as [|x a IH]; [done |].
  rewrite append_cons, !replace_char_cons, IH. by rewrite append_assoc.
Qed.

Lemma has_char_app c a b :
  has_char c (a +:+ b) = has_char c a || has_char c b.
Proof.
  induction a as [|x a IH]; [done |].
  rewrite append_cons. cbn [has_char]. by rewrite IH, orb_assoc.
Qed.

Lemma replace_char_removes c d s :
  Ascii.eqb d c = false ->
  has_char c (replace_from 0 (String c "") (String d "") s) = false.
Proof.
  intros Hne. induction s as [|x s IH]; [done |].
  rewrite replace_char_cons, has_char_app, IH, orb_false_r.
  destruct (Ascii.eqb c x) eqn:Hx; cbn [has_char]; rewrite orb_false_r; [done |].
  by rewrite Ascii.eqb_sym.
Qed.

Lemma replace_absent c old new s :
  has_char c s = false -> replace_from 0 (String c old) new s = s.
Proof.
  intros Hs. rewrite <- (append_empty_r s) at 1.
  rewrite (replace_from_without_first c old new s "" Hs). apply append_empty_r.
Qed.

Lemma append_inj_l a x y : a +:+ x = a +:+ y -> x = y.
Proof.
  induction a as [|c a IH]; [done |].
  rewrite !append_cons. intros [= H]. by apply IH.
Qed.

(** A string is cut at its last occurrence of a character in one way. *)
Lemma cut_at_last c s1 : forall s2 d1 d2,
  has_char c d1 = false -> has_char c d2 = false ->
  s1 +:+ String c d1 = s2 +:+ String c d2 ->
  s1 = s2 /\ d1 = d2.
Proof.
  induction s1 as [|a s1 IH]; intros [|b s2] d1 d2 H1 H2 Heq.
  - by injection Heq as ->.
  - rewrite append_nil, append_cons in Heq. injection Heq as <- ->.
    rewrite has_char_app in H1. cbn [has_char] in H1.
    rewrite Ascii.eqb_refl, orb_true_r in H1. discriminate.
  - rewrite append_nil, append_cons in Heq. injection Heq as -> <-.
    rewrite has_char_app in H2. cbn [has_char] in H2.
    rewrite Ascii.eqb_refl, orb_true_r in H2. discriminate.
  - rewrite !append_cons in Heq. injection Heq as -> Heq.
    destruct (IH _ _ _ H1 H2 Heq) as [-> ->]. done.
Qed.

(** [str(n)] holds digits only. *)
Lemma str_of_nat_digits c n :
  has_char c "0123456789" = false -> has_char c (str_of_nat n) = false.
Proof.
  intros Hc. unfold str_of_nat.
  cbn [has_char] in Hc. repeat (apply orb_false_iff in Hc as [? Hc]).
  induction (Nat.to_uint n) as [| d IH | d IH | d IH | d IH | d IH
                                | d IH | d IH | d IH | d IH | d IH];
    cbn [NilEmpty.string_of_uint has_char]; [done | ..];
    apply orb_false_iff; by split.
Qed.

Lemma str_of_nat_inj i j : str_of_nat i = str_of_nat j -> i = j.
Proof.
  unfold str_of_nat. intros Heq.
  apply DecimalNat.Unsigned.to_uint_inj.
  pose proof (NilEmpty.usu (Nat.to_uint i)) as Hi.
  rewrite Heq, NilEmpty.usu in Hi. by injection Hi.
Qed.

End ReplaceChar.

Section IngestChunks.
Variable sv : Ingest.services.

(** The chunks of one document, and of all of them. *)
Lemma chunk_splits_imap doc splits : forall i acc,
  Ingest.chunk_splits doc splits i acc
  = acc ++ imap (fun k t => Ingest.chunk_of doc (i + k) t) splits.
Proof.
  induction splits as [|t rest IH]; intros i acc; [by rewrite app_nil_r |].
  cbn [Ingest.chunk_splits imap]. rewrite IH, <- app_assoc. cbn [app].
  rewrite Nat.add_0_r. do 2 f_equal.
  apply imap_ext. intros k x _. cbn. f_equal. lia.
Qed.

Lemma chunk_docs_concat docs : forall acc,
  Ingest.chunk_docs sv docs acc
  = acc ++ concat (map (fun doc => imap (Ingest.chunk_of doc)
                                     (Ingest.split_text sv (Ingest.content doc)))
                       docs).
Proof.
  induction docs as [|doc rest IH]; intros acc; [by rewrite app_nil_r |].
  cbn [Ingest.chunk_docs map concat].
  by rewrite IH, chunk_splits_imap, <- app_assoc.
Qed.

(** The identifier of a chunk: the source with "/" for every backslash, a
    "#", and the index in decimal. *)
Lemma chunk_of_id doc i t :
  Ingest.id (Ingest.chunk_of doc i t)
  = replace Ingest.backslash "/" (Ingest.doc_source doc)
    +:+ String "#" (str_of_nat i).
Proof.
  cbn [Ingest.chunk_of Ingest.id]. unfold replace, Ingest.backslash.
  rewrite (replace_char_app _ _ (Ingest.doc_source doc)). f_equal.
  apply replace_absent. cbn [append has_char]. rewrite str_of_nat_digits; done.
Qed.

Lemma chunk_ids_of_doc doc splits x :
  x ∈ map Ingest.id (imap (Ingest.chunk_of doc) splits) ->
  exists i, x = replace Ingest.backslash "/" (Ingest.doc_source doc)
                +:+ String "#" (str_of_nat i).
Proof.
  intros (c & -> & Hc)%list_elem_of_fmap.
  apply list_elem_of_lookup in Hc as [i Hi].
  rewrite list_lookup_imap in Hi.
  destruct (splits !! i) as [t|]; [| done]. injection Hi as <-.
  exists i. apply chunk_of_id.
Qed.

Lemma chunk_ids_of_doc_distinct doc splits :
  NoDup (map Ingest.id (imap (Ingest.chunk_of doc) splits)).
Proof.
  apply NoDup_alt. intros i j x Hi Hj.
  change (map Ingest.id) with (fmap (M := list) Ingest.id) in Hi, Hj.
  rewrite list_lookup_fmap, list_lookup_imap in Hi, Hj.
  destruct (splits !! i) as [ti|]; [| done].
  destruct (splits !! j) as [tj|]; [| done].
  cbn [fmap option_fmap option_map] in Hi, Hj. injection Hi as Hi. injection Hj as Hj.
  pose proof (chunk_of_id doc i ti) as Ei. pose proof (chunk_of_id doc j tj) as Ej.
  cbn [Ingest.chunk_of Ingest.id] in Ei, Ej.
  rewrite Ei in Hi. rewrite Ej in Hj. rewrite <- Hj in Hi.
  apply append_inj_l in Hi. injection Hi as Hi. by apply str_of_nat_inj.
Qed.

Lemma chunk_ids_distinct docs :
  NoDup (map (fun d => replace Ingest.backslash "/" (Ingest.doc_source d)) docs) ->
  NoDup (map Ingest.id
           (concat (map (fun doc => imap (Ingest.chunk_of doc)
                                      (Ingest.split_text sv (Ingest.content doc)))
                        docs))).
Proof.
  induction docs as [|doc rest IH]; intros Hdocs; [constructor |].
  cbn [map concat] in *. apply NoDup_cons in Hdocs as [Hdoc Hrest].
  rewrite map_app. apply NoDup_app. split; [apply chunk_ids_of_doc_distinct |].
  split; [| by apply IH].
  intros x Hx Hx'. apply chunk_ids_of_doc in Hx as [i ->].
  apply Hdoc. clear -Hx'.
  induction rest as [|doc' rest IH]; [by apply elem_of_nil in Hx' |].
  cbn [map concat] in Hx'. rewrite map_app in Hx'.
  apply elem_of_app in Hx' as [Hx' | Hx'].
  - apply chunk_ids_of_doc in Hx' as [j Heq].
    apply cut_at_last in Heq as [-> _];
      [apply list_elem_of_here | by apply str_of_nat_digits ..].
  - apply list_elem_of_further. by apply IH.
Qed.

End IngestChunks.

(** X24: when no two documents have the same source path (with "/" for
    every backslash), [chunk_text] of [ingest.py] gives every chunk an
    identifier of its own, so that no upsert overwrites another chunk; no
    identifier holds a backslash, and there is one chunk per piece that the
    splitter returns. *)
Theorem chunk_ids_unique (sv : Ingest.services) (docs : list Ingest.document) :
  NoDup (map (fun d => replace Ingest.backslash "/" (Ingest.doc_source d)) docs) ->
  NoDup (map Ingest.id (Ingest.chunk_text sv docs))
  /\ Forall (fun c => has_char (ascii_of_nat 92) (Ingest.id c) = false)
       (Ingest.chunk_text sv docs)
  /\ map Ingest.text (Ingest.chunk_text sv docs)
     = concat (map (fun d => Ingest.split_text sv (Ingest.content d)) docs).
Proof.
  intros Hdocs. unfold Ingest.chunk_text. rewrite chunk_docs_concat. cbn [app].
  split; [by apply chunk_ids_distinct |]. split.
  - apply Forall_forall. intros c Hc.
    apply list_elem_of_In, in_concat in Hc as (l & Hl & Hc).
    apply in_map_iff in Hl as (doc & <- & _).
    apply list_elem_of_In, list_elem_of_lookup in Hc as [i Hi].
    rewrite list_lookup_imap in Hi.
    destruct (_ !! i) as [t|]; [| done]. injection Hi as <-.
    cbn [Ingest.chunk_of Ingest.id]. by apply replace_char_removes.
  - clear Hdocs. induction docs as [|doc rest IH]; [done |].
    cbn [map concat]. rewrite map_app, IH. f_equal.
    change (map Ingest.text) with (fmap (M := list) Ingest.text).
    apply list_eq. intros k. rewrite list_lookup_fmap, list_lookup_imap.
    by destruct (_ !! k).
Qed.

Lemma chunk_ids_unique_witness :
  let sv := Examples.ingest_services false in
  NoDup (map (fun d => replace Ingest.backslash "/" (Ingest.doc_source d))
           Examples.ingest_documents)
  /\ NoDup (map Ingest.id (Ingest.chunk_text sv Examples.ingest_documents))
  /\ map Ingest.id (Ingest.chunk_text sv Examples.ingest_documents)
     = ["intro.md#0"; "intro.md#1"; "intro.md#2"; "intro.md#3";
        "ros/nodes.md#0"; "ros/nodes.md#1"; "ros/nodes.md#2"].
Proof.
  intros sv.
  assert (NoDup (map (fun d => replace Ingest.backslash "/" (Ingest.doc_source d))
                   Examples.ingest_documents)) as Hdocs.
  { apply (bool_decide_unpack _). vm_compute. exact I. }
  split; [exact Hdocs |].
  split; [exact (proj1 (chunk_ids_unique sv Examples.ingest_documents Hdocs)) |].
  vm_compute. reflexivity.
Defined.
